(** * Tidal assessment: a shallow embedding of [tidal_analysis.py]

    The Python module manipulates pandas data frames that hold tide-gauge
    readings.  Every function of the module is embedded below under its own
    name, as a computation over an explicit store of frame objects; the
    pandas, numpy, scipy and matplotlib calls it makes are embedded as pure
    helper functions named after the call they stand for.

    Conventions.
    - A sea level is a float64: the rational number that a finite float64
      equals, or not-a-number.  The float64 operations round, so they are
      parameters of the development (class [Float64]); infinities and
      overflow are left out.
    - A timestamp is a count of nanoseconds since 1970-01-01T00:00:00 on the
      wall clock, with an optional time zone name, as in a DatetimeIndex; the
      offsets of the zones from UTC are a parameter (class [Zones]).
    - Where pandas leaves an order open (the sort of equal counts) the order
      is a parameter too (class [Sorter]).
    - Python exceptions are values of [exn]; a raised exception leaves the
      store as it was at the point of the raise. *)

From Stdlib Require Import ZArith QArith Qcanon Lia String Ascii.
From stdpp Require Import base numbers list strings option sorting.

Open Scope Z_scope.

(** ** Exceptions and results *)

Inductive exn : Type :=
| FileNotFoundError (msg : string)
| IsADirectoryError (msg : string)
| PermissionError (msg : string)
| ParserError (msg : string)
| ValueError (msg : string)
| TypeError (msg : string)
| KeyError (msg : string)
| AttributeError (msg : string)
| InvalidIndexError (msg : string).

(** [str(exc)] *)
Definition exn_msg (e : exn) : string :=
  match e with
  | FileNotFoundError m | IsADirectoryError m | PermissionError m
  | ParserError m | ValueError m | TypeError m | KeyError m
  | AttributeError m | InvalidIndexError m => m
  end.

Definition result (A : Type) : Type := exn + A.
Definition Ok {A} (a : A) : result A := inr a.
Definition Raise {A} (e : exn) : result A := inl e.

Definition rbind {A B} (r : result A) (k : A → result B) : result B :=
  match r with inl e => inl e | inr a => k a end.

(** ** Data model *)

Record timestamp : Type := Timestamp {
  ns : Z;                    (* wall-clock nanoseconds since the epoch *)
  tzinfo : option string     (* None: timezone naive *)
}.

(** The float of a sea level: a finite float64 is the rational number it
    equals, [None] is numpy's nan. *)
Definition float : Type := option Qc.

(** The arithmetic of float64.  Every operation rounds its result, and the
    order in which numpy adds up an array depends on the length of the array
    and on the build; so the operations that the module and its libraries
    carry out are parameters: the conversion of an int64, difference,
    product and quotient, the mean of an array that is not empty
    ([ndarray.mean]), the mean over the present values of a series that has
    some ([Series.mean], which may depend on where the missing values lie),
    the covariance of two arrays of one length ([np.cov] with [bias=1]) and
    the days since the epoch of an instant given in nanoseconds (the
    conversion inside [matplotlib.dates.date2num]). *)
Class Float64 : Type := {
  f64_of_int : Z → Qc;
  f64_days : Z → Qc;
  f64_sub : Qc → Qc → Qc;
  f64_mul : Qc → Qc → Qc;
  f64_div : Qc → Qc → Qc;
  f64_mean : list Qc → Qc;
  f64_nanmean : list (option Qc) → Qc;
  f64_cov : list Qc → list Qc → Qc
}.

(** The time zone database: the offset from UTC, in nanoseconds, of a zone
    at a wall-clock time. *)
Class Zones : Type := {
  utcoffset : string → Z → Z
}.

(** A value of a column that was not coerced: text, a number, or nan. *)
Inductive cell : Type :=
| Text (s : string)
| Num (q : Qc)
| NaN.

(** One row of a frame: the index entry, the "Sea Level" value and the values
    of the remaining columns, in the order of [columns]. *)
Record reading : Type := Reading {
  stamp : timestamp;
  sea_level : float;
  others : list cell
}.

(** A frame indexed by timestamps.  [columns] names the columns other than
    "Sea Level". *)
Record frame : Type := Frame {
  columns : list string;
  rows : list reading
}.

Definition columnNames : list string :=
  ["Index"; "Date"; "Time"; "Sea Level"; "Sea Level Rise"]%string.

#[global] Instance timestamp_eq_dec : EqDecision timestamp.
Proof. solve_decision. Defined.
#[global] Instance cell_eq_dec : EqDecision cell.
Proof. solve_decision. Defined.
#[global] Instance reading_eq_dec : EqDecision reading.
Proof. solve_decision. Defined.
#[global] Instance frame_eq_dec : EqDecision frame.
Proof. solve_decision. Defined.

Definition levels (f : frame) : list float := sea_level <$> rows f.
Definition index (f : frame) : list timestamp := stamp <$> rows f.

(** ** The store of frame objects

    A Python variable that holds a frame holds a reference to it.  The store
    maps references to frames; a pandas call that builds a frame allocates a
    new reference, an assignment to an attribute or a column of a frame
    overwrites the frame its reference points to. *)

Definition loc : Type := nat.
Abbreviation heap := (list frame).

Definition Py (A : Type) : Type := heap → heap * result A.

Definition raise {A} (e : exn) : Py A := fun h => (h, Raise e).
Definition lift {A} (r : result A) : Py A := fun h => (h, r).

#[global] Instance Py_ret : MRet Py := fun A a h => (h, Ok a).
#[global] Instance Py_bind : MBind Py := fun A B k m h =>
  match m h with
  | (h', inl e) => (h', inl e)
  | (h', inr a) => k a h'
  end.

(** Reading through a reference.  A reference that a caller holds always
    points into the store; the error branch is there to keep [deref] total. *)
Definition deref (l : loc) : Py frame :=
  fun h : heap => match h !! l with
           | Some f => (h, Ok f)
           | None => (h, Raise (KeyError "dangling reference"))
           end.

(** A call that returns a new frame object. *)
Definition alloc (f : frame) : Py loc :=
  fun h : heap => (h ++ [f], Ok (length h)).

(** In-place update of the object behind a reference. *)
Definition assign (l : loc) (f : frame) : Py unit :=
  fun h : heap => (<[l := f]> h, Ok tt).

(** [try: m except C: handler], the handler taking the caught exception;
    [catches] tells which exceptions the clause names. *)
Definition try_except {A} (m : Py A) (catches : exn → bool)
    (handler : exn → Py A) : Py A :=
  fun h => match m h with
           | (h', inl e) => if catches e then handler e h' else (h', inl e)
           | (h', inr a) => (h', inr a)
           end.

(** ** Contiguity scanner: [get_longest_contiguous_data] *)

(** [Series.isna()] *)
Definition isna (l : list float) : list bool :=
  (fun v => if v is None then true else false) <$> l.

(** [Series.shift()]: every value moves one place down, the first place is
    filled with nan and the last value is dropped. *)
Definition shift {A} (l : list A) : list (option A) :=
  take (length l) (None :: (Some <$> l)).

(** [a != b], element by element, for a boolean series and its shifted copy;
    nan differs from everything. *)
Definition ne (l : list bool) (s : list (option bool)) : list bool :=
  zip_with (fun b o => match o with Some b' => xorb b b' | None => true end) l s.

(** [Series.cumsum()] of a boolean series. *)
Fixpoint cumsum_from (acc : nat) (l : list bool) : list nat :=
  match l with
  | [] => []
  | b :: l' =>
      let acc' := (acc + if b then 1 else 0)%nat in
      acc' :: cumsum_from acc' l'
  end.
Definition cumsum (l : list bool) : list nat := cumsum_from 0 l.

(** [pd.unique]: the distinct values in order of first appearance. *)
Fixpoint unique (l : list nat) : list nat :=
  match l with
  | [] => []
  | x :: l' => x :: filter (fun y => y ≠ x) (unique l')
  end.

Definition count_of (x : nat) (l : list nat) : nat :=
  length (filter (fun y => y = x) l).

(** [Series.sort_values(ascending=False)] on the counts.  pandas sorts with
    numpy's quicksort, which is not stable: entries with equal counts come
    out in an order that depends on the numpy build.  The sort is therefore a
    parameter of the development; what is known of it is that it returns the
    entries it is given, by decreasing count. *)
Class Sorter : Type := {
  sort_values : list (nat * nat) → list (nat * nat)
}.

Class SorterLaws `{Sorter} : Prop := {
  sort_values_perm : ∀ l, sort_values l ≡ₚ l;
  sort_values_desc :
    ∀ l, StronglySorted (fun x y => (y.2 ≤ x.2)%nat) (sort_values l)
}.

(** [Series.value_counts()]: the count of every distinct value, the values in
    order of first appearance, then sorted by decreasing count. *)
Definition value_counts `{Sorter} (l : list nat) : list (nat * nat) :=
  sort_values ((fun k => (k, count_of k l)) <$> unique l).

(** [argmax]: the first occurrence of the maximum count, scanning from the
    left and keeping the best entry so far. *)
Fixpoint argmax_from (best : nat * nat) (l : list (nat * nat)) : nat * nat :=
  match l with
  | [] => best
  | x :: l' => if (snd best <? snd x)%nat then argmax_from x l'
               else argmax_from best l'
  end.
Definition argmax (l : list (nat * nat)) : option (nat * nat) :=
  match l with
  | [] => None
  | x :: l' => Some (argmax_from x l')
  end.

(** [Series.idxmax()]: the label of the first occurrence of the maximum; an
    empty series has none. *)
Definition idxmax (l : list (nat * nat)) : result nat :=
  match argmax l with
  | None => Raise (ValueError "attempt to get argmax of an empty sequence")
  | Some x => Ok (fst x)
  end.

(** [data[mask]]: the rows at which the boolean mask holds. *)
Fixpoint select {A} (l : list A) (m : list bool) : list A :=
  match l, m with
  | x :: l', b :: m' => if b then x :: select l' m' else select l' m'
  | _, _ => []
  end.

(** The run-identifiers of the rows:
    [(not_nan != not_nan.shift()).cumsum()]. *)
Definition run_ids (f : frame) : list nat :=
  let not_nan := negb <$> isna (levels f) in
  cumsum (ne not_nan (shift not_nan)).

Definition get_longest_contiguous_data `{Sorter} (data : loc) : Py loc :=
  d ← deref data;
  let not_nan := negb <$> isna (levels d) in
  let groups := cumsum (ne not_nan (shift not_nan)) in
  largest_group ← lift (idxmax (value_counts groups));
  alloc (Frame (columns d)
               (select (rows d) ((fun g => bool_decide (g = largest_group)) <$> groups))).

(** ** Python scalars and [str] *)

Definition digit_char (d : Z) : ascii := ascii_of_nat (48 + Z.to_nat d).

(** The decimal digits of a natural number, most significant first; [fuel]
    bounds the number of digits. *)
Fixpoint digits_fuel (fuel : nat) (n : Z) (acc : string) : string :=
  match fuel with
  | O => acc
  | S k =>
      let acc' := String (digit_char (n mod 10)) acc in
      if n <? 10 then acc' else digits_fuel k (n / 10) acc'
  end.

Definition str_nat (n : Z) : string :=
  digits_fuel (S (Z.to_nat (Z.log2 n))) n EmptyString.

(** [str(z)] for a Python int. *)
Definition str_int (z : Z) : string :=
  if z <? 0 then ("-" +:+ str_nat (- z))%string else str_nat z.

(** The arguments that stand for a date or a year: an int or a str. *)
Inductive scalar : Type :=
| SInt (z : Z)
| SStr (s : string).

Definition str (v : scalar) : string :=
  match v with
  | SInt z => str_int z
  | SStr s => s
  end.

(** ** Calendar and date strings *)

Definition ns_per_second : Z := 1000000000.
Definition ns_per_day : Z := 86400 * ns_per_second.

(** Days from 1970-01-01 to the given day of the proleptic Gregorian
    calendar. *)
Definition days_from_civil (y m d : Z) : Z :=
  let y' := if m <=? 2 then y - 1 else y in
  let era := y' / 400 in
  let yoe := y' - era * 400 in
  let mp := (m + 9) mod 12 in
  let doy := (153 * mp + 2) / 5 + d - 1 in
  let doe := yoe * 365 + yoe / 4 - yoe / 100 + doy in
  era * 146097 + doe - 719468.

Definition is_leap (y : Z) : bool :=
  (y mod 4 =? 0) && (negb (y mod 100 =? 0) || (y mod 400 =? 0)).

Definition days_in_month (y m : Z) : Z :=
  if m =? 2 then (if is_leap y then 29 else 28)
  else if (m =? 4) || (m =? 6) || (m =? 9) || (m =? 11) then 30
  else 31.

(** The days pandas can hold at nanosecond resolution lie between 1677 and
    2262; whole years inside that span are accepted here. *)
Definition valid_date (y m d : Z) : bool :=
  (1678 <=? y) && (y <=? 2261) && (1 <=? m) && (m <=? 12) &&
  (1 <=? d) && (d <=? days_in_month y m).

Definition digit_val (c : ascii) : option Z :=
  let n := Z.of_nat (nat_of_ascii c) in
  if (48 <=? n) && (n <=? 57) then Some (n - 48) else None.

Fixpoint number_of (s : string) (acc : Z) : option Z :=
  match s with
  | EmptyString => Some acc
  | String c s' => d ← digit_val c; number_of s' (acc * 10 + d)
  end.

(** An 8-digit [YYYYMMDD] date string, as the day it names (in days since the
    epoch).  Other spellings of a date are not accepted. *)
Definition parse_yyyymmdd (s : string) : option Z :=
  if bool_decide (String.length s = 8%nat) then
    n ← number_of s 0;
    let y := n / 10000 in
    let m := (n / 100) mod 100 in
    let d := n mod 100 in
    if valid_date y m d then Some (days_from_civil y m d) else None
  else None.

(** The two ends of a slice by date strings: the first instant of the start
    day and the last instant of the end day. *)
Definition slice_start (day : Z) : Z := day * ns_per_day.
Definition slice_end (day : Z) : Z := day * ns_per_day + (ns_per_day - 1).

(** ** Window extractor *)

(** The index is a DatetimeIndex when its timestamps share one time zone
    setting; [index_tz] is that setting. Concatenating a naive and an aware
    series yields an index of plain objects, on which the operations on dates
    are not available. *)
Definition index_tz (l : list timestamp) : option (option string) :=
  match l with
  | [] => Some None
  | t :: l' =>
      if forallb (fun u => bool_decide (tzinfo u = tzinfo t)) l'
      then Some (tzinfo t) else None
  end.

(** [DatetimeIndex.is_monotonic_increasing] *)
Fixpoint is_monotonic_increasing (l : list Z) : bool :=
  match l with
  | [] => true
  | x :: l' =>
      match l' with
      | [] => true
      | y :: _ => (x <=? y) && is_monotonic_increasing l'
      end
  end.

(** [Index.searchsorted(v, side)] on an increasing index: the position at
    which [v] would be inserted, before (left) or after (right) the entries
    equal to it. *)
Definition searchsorted_left (keys : list Z) (v : Z) : nat :=
  length (filter (fun k => k < v) keys).
Definition searchsorted_right (keys : list Z) (v : Z) : nat :=
  length (filter (fun k => k ≤ v) keys).

(** The index entry of a row, as a number. *)
Definition row_ns (r : reading) : Z := ns (stamp r).

Definition in_window (lo hi : Z) (r : reading) : Prop :=
  lo ≤ row_ns r ∧ row_ns r ≤ hi.

(** The rows selected by [data.loc[start:end]] for two date strings.  On an
    increasing index pandas takes the positions between the two insertion
    points of the bounds.  On any other index it accepts the slice only when
    both bounds are entries of the index, and then keeps the rows whose
    timestamp compares inside both bounds; otherwise it raises KeyError. *)
Definition slice_rows (lo hi : Z) (l : list reading) : result (list reading) :=
  let keys := row_ns <$> l in
  if is_monotonic_increasing keys then
    let i := searchsorted_left keys lo in
    let j := searchsorted_right keys hi in
    Ok (drop i (take j l))
  else if bool_decide (lo ∈ keys ∧ hi ∈ keys) then
    Ok (filter (in_window lo hi) l)
  else
    Raise (KeyError "Value based partial slicing on non-monotonic DatetimeIndexes with non-existing keys is not allowed.").

(** The series that can be sliced between two instants. *)
Definition sliceable (lo hi : Z) (l : list reading) : Prop :=
  is_monotonic_increasing (row_ns <$> l) = true ∨
  (lo ∈ row_ns <$> l ∧ hi ∈ row_ns <$> l).

(** [data.loc[start:end, ["Sea Level"]]]: a new frame with the selected rows
    and the one column. *)
Definition loc_slice (start_s end_s : string) (d : frame) : result frame :=
  match index_tz (index d) with
  | None => Raise (TypeError "slicing a non-datetime index by date strings")
  | Some _ =>
      match parse_yyyymmdd start_s, parse_yyyymmdd end_s with
      | Some a, Some b =>
          rbind (slice_rows (slice_start a) (slice_end b) (rows d))
            (fun selected =>
               Ok (Frame []
                     ((fun r => Reading (stamp r) (sea_level r) [])
                        <$> selected)))
      | None, _ => Raise (KeyError start_s)
      | _, None => Raise (KeyError end_s)
      end
  end.

(** The values that are present. *)
Definition present (l : list float) : list Qc := omap id l.

Definition Qc_sum (l : list Qc) : Qc := foldr Qcplus 0%Qc l.

(** [np.mean] of a pandas series: the mean of the values that are present,
    nan when there is none. *)
Definition np_mean `{Float64} (l : list float) : float :=
  match present l with
  | [] => None
  | _ => Some (f64_nanmean l)
  end.

(** Float subtraction; nan is absorbing. *)
Definition fsub `{Float64} (a b : float) : float :=
  match a, b with
  | Some x, Some y => Some (f64_sub x y)
  | _, _ => None
  end.

(** The arithmetic is exact when the mean and the difference are those of
    the rational numbers. *)
Definition exact_mean_and_sub `{Float64} : Prop :=
  (∀ x y, f64_sub x y = (x - y)%Qc) ∧
  (∀ l, f64_nanmean l
        = (Qc_sum (present l) / Qc_of_Z (Z.of_nat (length (present l))))%Qc).

(** [frame["Sea Level"] -= m] *)
Definition sub_sea_level `{Float64} (m : float) (d : frame) : frame :=
  Frame (columns d)
        ((fun r => Reading (stamp r) (fsub (sea_level r) m) (others r)) <$> rows d).

Definition extract_section_remove_mean `{Float64} (start end_ : scalar)
    (data : loc) : Py loc :=
  let data_string_start := str start in
  let data_string_end := str end_ in
  d ← deref data;
  sliced ← lift (loc_slice data_string_start data_string_end d);
  extracted_data ← alloc sliced;
  e ← deref extracted_data;
  let mmm := np_mean (levels e) in
  _ ← assign extracted_data (sub_sea_level mmm e);
  mret extracted_data.

Definition extract_single_year_remove_mean `{Float64} (year : scalar)
    (data : loc) : Py loc :=
  let year_string_start := (str year +:+ "0101")%string in
  let year_string_end := (str year +:+ "1231")%string in
  d ← deref data;
  sliced ← lift (loc_slice year_string_start year_string_end d);
  year_data ← alloc sliced;
  e ← deref year_data;
  let mmm := np_mean (levels e) in
  _ ← assign year_data (sub_sea_level mmm e);
  mret year_data.

(** ** Series combiner *)

(** What a caller may pass where a frame is expected. *)
Inductive pyval : Type :=
| PyNone
| PyScalar (v : scalar)
| PyRef (l : loc).

Definition type_name (v : scalar) : string :=
  match v with
  | SInt _ => "<class 'int'>"
  | SStr _ => "<class 'str'>"
  end.

(** The cells of a row laid out for the columns [cols], nan where the row's
    frame has no such column. *)
Definition reindex (cols : list string) (own : list string) (r : reading)
    : reading :=
  Reading (stamp r) (sea_level r)
    ((fun c => match list_find (fun c' => c' = c) own with
               | Some (i, _) => default NaN (others r !! i)
               | None => NaN
               end) <$> cols).

(** The union of the column labels, in order of appearance. *)
Definition union_columns (a b : list string) : list string :=
  a ++ filter (fun c => c ∉ a) b.

(** The rows of two frames end to end.  Frames with the same columns are put
    together as they are; otherwise each is laid out for the union of the
    columns. *)
Definition concat_rows (x y : frame) : frame :=
  if decide (columns x = columns y) then Frame (columns x) (rows x ++ rows y)
  else
    let cols := union_columns (columns x) (columns y) in
    Frame cols ((reindex cols (columns x) <$> rows x) ++
                (reindex cols (columns y) <$> rows y)).

(** The labels of the columns of a frame. *)
Definition labels (f : frame) : list string := "Sea Level"%string :: columns f.

(** Two frames can be concatenated when their columns are the same, or when
    neither has a label twice: pandas lays a frame out for other columns
    through an indexer, which a repeated label does not have. *)
Definition joinable (x y : frame) : Prop :=
  columns x = columns y ∨ (NoDup (labels x) ∧ NoDup (labels y)).

#[global] Instance joinable_dec (x y : frame) : Decision (joinable x y).
Proof. unfold joinable. apply _. Defined.

(** Row-wise concatenation of two frames. *)
Definition concat2 (x y : frame) : result frame :=
  if decide (joinable x y) then Ok (concat_rows x y)
  else Raise (InvalidIndexError
                "Reindexing only valid with uniquely valued Index objects").

Fixpoint concat_frames (first : frame) (rest : list frame) : result frame :=
  match rest with
  | [] => Ok first
  | y :: rest' => rbind (concat2 first y) (fun f => concat_frames f rest')
  end.

(** [pd.concat(objs)]: None entries are dropped; if nothing is left the call
    raises ValueError; an entry that is neither None nor a frame raises
    TypeError; frames that cannot be laid out for common columns raise
    InvalidIndexError; otherwise a new frame is built. *)
Fixpoint concat_args (objs : list pyval) (h : heap) : result (list frame) :=
  match objs with
  | [] => Ok []
  | PyNone :: objs' => concat_args objs' h
  | PyScalar v :: _ =>
      Raise (TypeError ("cannot concatenate object of type '" +:+ type_name v
                        +:+ "'; only Series and DataFrame objs are valid"))
  | PyRef l :: objs' =>
      match h !! l with
      | None => Raise (KeyError "dangling reference")
      | Some f => rbind (concat_args objs' h) (fun fs => Ok (f :: fs))
      end
  end.

Definition pd_concat (objs : list pyval) : Py loc :=
  match objs with
  | [] => raise (ValueError "No objects to concatenate")
  | _ =>
      if forallb (fun o => if o is PyNone then true else false) objs
      then raise (ValueError "All objects passed were None")
      else
        frames ← (fun h => (h, concat_args objs h));
        match frames with
        | [] => raise (ValueError "All objects passed were None")
        | f :: fs => joined ← lift (concat_frames f fs); alloc joined
        end
  end.

Definition is_TypeError (e : exn) : bool :=
  if e is TypeError _ then true else false.

Definition join_data (data1 data2 : pyval) : Py loc :=
  try_except (pd_concat [data2; data1]) is_TypeError
    (fun exc => raise (ValueError ("Concatenation error joining data: "
                                   +:+ exn_msg exc))).

(** ** Trend estimator *)

(** [data.dropna(subset=["Sea Level"])]: a new frame without the rows whose
    sea level is nan. *)
Definition dropna (d : frame) : frame :=
  Frame (columns d) (filter (fun r => sea_level r ≠ None) (rows d)).

(** [pd.to_datetime(index)] of an index of timestamps. *)
Definition to_datetime_index (l : list timestamp) : result (list timestamp) :=
  match index_tz l with
  | Some _ => Ok l
  | None => Raise (ValueError "cannot mix tz-aware with tz-naive values")
  end.

(** [data.index = idx] *)
Definition set_index (d : frame) (idx : list timestamp) : frame :=
  Frame (columns d)
        (zip_with (fun r t => Reading t (sea_level r) (others r)) (rows d) idx).

(** pandas' missing timestamp, NaT, is stored as the least 64-bit integer. *)
Definition iNaT : Z := - 2 ^ 63.

(** The instant of a timestamp: nanoseconds since the epoch in UTC. *)
Definition utc_ns `{Zones} (t : timestamp) : Z :=
  match tzinfo t with
  | None => ns t
  | Some zone => ns t - utcoffset zone (ns t)
  end.

(** [matplotlib.dates.date2num]: days since the epoch, as a float; the
    instant is taken in UTC, and a missing timestamp gives nan. *)
Definition date2num `{Float64} `{Zones} (t : timestamp) : float :=
  if ns t =? iNaT then None
  else Some (f64_days (utc_ns t)).

(** All values of a float array, or nothing if one of them is nan. *)
Fixpoint all_present (l : list float) : option (list Qc) :=
  match l with
  | [] => Some []
  | Some x :: l' =>
      match all_present l' with
      | Some xs => Some (x :: xs)
      | None => None
      end
  | None :: _ => None
  end.

(** An entry of [np.cov(x, y, bias=1)].  The deviations of a single
    observation from its mean are zero, and so is its covariance, in float64
    as in exact arithmetic. *)
Definition np_cov `{Float64} (x y : list Qc) : Qc :=
  match x with
  | [_] => 0%Qc
  | _ => f64_cov x y
  end.

(** The first two fields of the tuple that [scipy.stats.linregress] returns,
    which scipy names slope and intercept.  The three fields after them are
    discarded by the module and are left out. *)
Definition linregress `{Float64} (x y : list float) : result (float * float) :=
  match x, y with
  | [], _ | _, [] => Raise (ValueError "Inputs must not be empty.")
  | _, _ =>
      match all_present x, all_present y with
      | Some xs, Some ys =>
          if bool_decide (1 < length xs)%nat &&
             forallb (fun v => bool_decide (v = default 0%Qc (head xs))) xs
          then Raise (ValueError
                 "Cannot calculate a linear regression if all x values are identical")
          else
            let xmean := f64_mean xs in
            let ymean := f64_mean ys in
            let ssxm := np_cov xs xs in
            let ssxym := np_cov xs ys in
            if bool_decide (ssxm = 0%Qc) then Ok (None, None)
            else
              let slope := f64_div ssxym ssxm in
              Ok (Some slope, Some (f64_sub ymean (f64_mul slope xmean)))
      | _, _ => Ok (None, None)
      end
  end.

Definition sea_level_rise `{Float64} `{Zones} (data : loc)
    : Py (float * float) :=
  d ← deref data;
  data ← alloc (dropna d);
  d ← deref data;
  idx ← lift (to_datetime_index (index d));
  _ ← assign data (set_index d idx);
  d ← deref data;
  let x_value := date2num <$> index d in
  let y_value := levels d in
  '(slope, p_value) ← lift (linregress x_value y_value);
  mret (slope, p_value).

(** ** Harmonic adapter *)

(** The tidal-constituent solver of the [uptide] package, an external
    collaborator: building a tide object from constituent names, setting its
    reference time, and the least-squares fit. *)
Class Uptide : Type := {
  tides : Type;
  Tides : list string → result tides;
  set_initial_time : tides → timestamp → tides;
  harmonic_analysis :
    tides → list float → list float → result (list float * list float)
}.

(** The timestamp without its time zone, the wall clock kept. *)
Definition naive (t : timestamp) : timestamp := Timestamp (ns t) None.

(** [DatetimeIndex.tz_localize(None)]: the time zone is removed, the wall
    clock kept.  An index of plain objects has no such method. *)
Definition tz_localize_none (l : list timestamp) : result (list timestamp) :=
  match index_tz l with
  | Some _ => Ok (naive <$> l)
  | None => Raise (AttributeError "'Index' object has no attribute 'tz_localize'")
  end.

(** [(t - start).total_seconds()]: the int64 difference in nanoseconds,
    divided as a float by the nanoseconds of a second. *)
Definition total_seconds `{Float64} (start t : timestamp) : float :=
  if (ns t =? iNaT) || (ns start =? iNaT) then None
  else Some (f64_div (f64_of_int (ns t - ns start)) (f64_of_int ns_per_second)).

(** [pd.notna] *)
Definition notna (l : list float) : list bool := negb <$> isna l.

Definition tidal_analysis `{Float64} `{Uptide} (data : loc)
    (constituents : list string)
    (start_datetime : timestamp) : Py (list float * list float) :=
  let start_datetime :=
    if tzinfo start_datetime is Some _
    then naive start_datetime else start_datetime in
  tide ← lift (Tides constituents);
  let tide := set_initial_time tide start_datetime in
  d ← deref data;
  idx ← lift (tz_localize_none (index d));
  _ ← assign data (set_index d idx);
  d ← deref data;
  let seconds_since := total_seconds start_datetime <$> index d in
  let sl := levels d in
  let is_a_number := notna sl in
  let sl := select sl is_a_number in
  let seconds_since := select seconds_since is_a_number in
  lift (harmonic_analysis tide sl seconds_since).

(** ** Record parser and flag sanitizer: [read_tidal_data] *)

(** What a path names in the file system. *)
Inductive fnode : Type :=
| Regular (content : string)
| Directory
| Unreadable.

Definition filesystem : Type := string → option fnode.

(** A row as [pd.read_csv] delivers it for the five column names. *)
Record raw_row : Type := RawRow {
  r_index : cell;
  r_date : cell;
  r_time : cell;
  r_level : cell;
  r_rise : cell
}.
Abbreviation table := (list raw_row).

(** The text parsers the module relies on: the tokenizer and type inference
    of [pd.read_csv] (given the number of rows to skip and the column names,
    it yields the table or the message of its parser error), the
    format-directed parser behind [pd.to_datetime], and Python's conversion
    of text to float. *)
Class Parsers : Type := {
  parse_csv : nat → list string → string → string + table;
  strptime : string → string → option timestamp;
  to_float : string → option float
}.

Definition open_file (fs : filesystem) (filename : string) : result string :=
  match fs filename with
  | None =>
      Raise (FileNotFoundError
               ("[Errno 2] No such file or directory: '" +:+ filename +:+ "'"))
  | Some Directory =>
      Raise (IsADirectoryError
               ("[Errno 21] Is a directory: '" +:+ filename +:+ "'"))
  | Some Unreadable =>
      Raise (PermissionError
               ("[Errno 13] Permission denied: '" +:+ filename +:+ "'"))
  | Some (Regular content) => Ok content
  end.

(** [pd.read_csv(filename, delim_whitespace=True, header=None,
    skiprows=..., names=...)] *)
Definition read_csv `{Parsers} (fs : filesystem) (filename : string)
    (skiprows : nat) (names : list string) : result table :=
  rbind (open_file fs filename) (fun content =>
  match parse_csv skiprows names content with
  | inl msg => Raise (ParserError msg)
  | inr t => Ok t
  end).

Fixpoint rmapM {A B} (f : A → result B) (l : list A) : result (list B) :=
  match l with
  | [] => Ok []
  | x :: l' =>
      rbind (f x) (fun y => rbind (rmapM f l') (fun ys => Ok (y :: ys)))
  end.

Definition is_text (c : cell) : bool := if c is Text _ then true else false.

(** [series + " "] for a column and a str.  A column without any text is a
    float column, to which a str cannot be added; in a column of objects the
    nan entries stay nan. *)
Definition series_add_str (col : list cell) (s : string) : result (list cell) :=
  match col with
  | [] => Ok []
  | _ =>
      if existsb is_text col then
        rmapM (fun c => match c with
                        | Text a => Ok (Text (a +:+ s))
                        | NaN => Ok NaN
                        | Num _ =>
                            Raise (TypeError
                              "unsupported operand type(s) for +: 'float' and 'str'")
                        end) col
      else Raise (TypeError "unsupported operand type(s) for +: 'float' and 'str'")
  end.

(** [a + b] for two columns, the left one of objects: text is joined to text,
    a row with nan on either side gives nan. *)
Definition series_add (a b : list cell) : result (list cell) :=
  rmapM (fun p => match p with
                  | (Text x, Text y) => Ok (Text (x +:+ y))
                  | (NaN, _) | (_, NaN) => Ok NaN
                  | (_, _) =>
                      Raise (TypeError
                        "can only concatenate str (not 'float') to str")
                  end) (zip a b).

(** The timestamp of one value under a format: the text must match the
    format; nan becomes NaT. *)
Definition timestamp_of_cell `{Parsers} (format : string) (c : cell)
    : result timestamp :=
  match c with
  | Text s =>
      match strptime format s with
      | Some t => Ok t
      | None =>
          Raise (ValueError
                   ("time data '" +:+ s +:+ "' does not match format '"
                    +:+ format +:+ "'"))
      end
  | NaN => Ok (Timestamp iNaT None)
  | Num _ => Raise (ValueError "cannot parse a number with this format")
  end.

(** [pd.to_datetime(series, format=...)]: every text must match the format,
    or the call raises. *)
Definition to_datetime `{Parsers} (col : list cell) (format : string)
    : result (list timestamp) :=
  rmapM (timestamp_of_cell format) col.

(** [s] ends with [suf]. *)
Fixpoint string_suffixb (suf s : string) : bool :=
  bool_decide (s = suf) ||
  match s with
  | EmptyString => false
  | String _ s' => string_suffixb suf s'
  end.

Definition newline : ascii := ascii_of_nat 10.

(** [re.search(pattern, s)] for the patterns of the module, which have the
    shape [.*c$] for a letter [c]: the text ends with [c], or with [c] and a
    final newline. *)
Definition re_search (pattern s : string) : bool :=
  match pattern with
  | String "." (String "*" (String c (String "$" EmptyString))) =>
      string_suffixb (String c EmptyString) s ||
      string_suffixb (String c (String newline EmptyString)) s
  | _ => false
  end.

Definition update_column (name : string) (g : cell → cell) (r : raw_row)
    : raw_row :=
  if decide (name = "Index"%string) then
    RawRow (g (r_index r)) (r_date r) (r_time r) (r_level r) (r_rise r)
  else if decide (name = "Date"%string) then
    RawRow (r_index r) (g (r_date r)) (r_time r) (r_level r) (r_rise r)
  else if decide (name = "Time"%string) then
    RawRow (r_index r) (r_date r) (g (r_time r)) (r_level r) (r_rise r)
  else if decide (name = "Sea Level"%string) then
    RawRow (r_index r) (r_date r) (r_time r) (g (r_level r)) (r_rise r)
  else if decide (name = "Sea Level Rise"%string) then
    RawRow (r_index r) (r_date r) (r_time r) (r_level r) (g (r_rise r))
  else r.

(** What the replacement does to one value: a text that the pattern matches
    becomes nan, everything else stays. *)
Definition mask_cell (pattern : string) (c : cell) : cell :=
  match c with
  | Text s => if re_search pattern s then NaN else c
  | _ => c
  end.

(** [data.replace(to_replace=pattern, value={name: np.nan}, regex=True,
    inplace=True)]: in the named column every text that the pattern matches
    becomes nan. *)
Definition replace (to_replace : string) (name : string) (data : table) : table :=
  update_column name (mask_cell to_replace) <$> data.

(** The float of one value: Python's [float] for a text, the number for a
    number, nan for nan. *)
Definition float_of_cell `{Parsers} (c : cell) : result float :=
  match c with
  | Text s =>
      match to_float s with
      | Some v => Ok v
      | None =>
          Raise (ValueError
                   ("could not convert string to float: '" +:+ s +:+ "'"))
      end
  | Num q => Ok (Some q)
  | NaN => Ok None
  end.

(** [series.astype(float)] *)
Definition astype_float `{Parsers} (col : list cell) : result (list float) :=
  rmapM float_of_cell col.

(** The frame that the function returns: the timestamps as the index, the
    sea levels as floats, the other columns as they are. *)
Definition build_frame (idx : list timestamp) (lv : list float) (data : table)
    : frame :=
  Frame ["Index"; "Date"; "Time"; "Sea Level Rise"]%string
    (zip_with (fun p r => Reading p.1 p.2 [r_index r; r_date r; r_time r; r_rise r])
       (zip idx lv) data).

Definition is_FileNotFoundError (e : exn) : bool :=
  if e is FileNotFoundError _ then true else false.

Definition read_tidal_data `{Parsers} (fs : filesystem) (filename : string)
    : Py loc :=
  let no_of_header_rows_to_skip := 11%nat in
  try_except
    (data ← lift (read_csv fs filename no_of_header_rows_to_skip columnNames);
     date_sp ← lift (series_add_str (r_date <$> data) " ");
     text ← lift (series_add date_sp (r_time <$> data));
     DateTime ← lift (to_datetime text "%Y/%m/%d %H:%M:%S");
     let data := replace ".*M$" (columnNames !!! 3%nat) data in
     let data := replace ".*N$" (columnNames !!! 3%nat) data in
     let data := replace ".*T$" (columnNames !!! 3%nat) data in
     let data := replace ".*M$" (columnNames !!! 4%nat) data in
     let data := replace ".*N$" (columnNames !!! 4%nat) data in
     let data := replace ".*T$" (columnNames !!! 4%nat) data in
     lv ← lift (astype_float (r_level <$> data));
     alloc (build_frame DateTime lv data))
    is_FileNotFoundError
    (fun exc => raise (FileNotFoundError
                         ("The file " +:+ filename +:+ " does not exist"))).

(** ** The scan of the specification

    The contiguity scanner is specified as one pass from left to right that
    classifies each row as valid or missing and gives it a run-identifier,
    which starts at 1 and goes up by one each time the classification
    differs from that of the row before. *)

Fixpoint scan_from (prev : bool) (id : nat) (l : list bool) : list nat :=
  match l with
  | [] => []
  | b :: l' =>
      let id' := if bool_decide (b = prev) then id else S id in
      id' :: scan_from b id' l'
  end.

Definition scan_runs (l : list bool) : list nat :=
  match l with
  | [] => []
  | b :: l' => 1%nat :: scan_from b 1 l'
  end.

(** The classification of a row: [true] when its sea level is present. *)
Definition valid_row (r : reading) : bool :=
  if sea_level r is Some _ then true else false.

(** ** Reference parsers

    Plain instances of the external parsers, used to run the module on
    concrete files: a tokenizer that splits lines on blanks, a parser for the
    one date format of the module, and decimal literals. *)

Fixpoint split_on (p : ascii → bool) (s : string) (cur : string) : list string :=
  match s with
  | EmptyString => [cur]
  | String c s' =>
      if p c then cur :: split_on p s' EmptyString
      else split_on p s' (cur +:+ String c EmptyString)
  end.

Definition is_blank (c : ascii) : bool :=
  bool_decide (c = " "%char) || bool_decide (c = ascii_of_nat 9).

Definition fields (line : string) : list string :=
  filter (fun t => t ≠ EmptyString) (split_on is_blank line EmptyString).

Fixpoint split_dot (s : string) : string * option string :=
  match s with
  | EmptyString => (EmptyString, None)
  | String c s' =>
      if bool_decide (c = "."%char) then (EmptyString, Some s')
      else let '(a, b) := split_dot s' in (String c a, b)
  end.

Definition dec_float (s : string) : option float :=
  let '(neg, body) :=
    match s with
    | String "-" r => (true, r)
    | String "+" r => (false, r)
    | _ => (false, s)
    end in
  let '(ip, fp) := split_dot body in
  let fp := default EmptyString fp in
  if bool_decide (ip = EmptyString) then None
  else
    a ← number_of ip 0;
    b ← number_of fp 0;
    let k := 10 ^ Z.of_nat (String.length fp) in
    let q := (Qc_of_Z (a * k + b) / Qc_of_Z k)%Qc in
    Some (Some (if neg : bool then (- q)%Qc else q)).

Definition ref_strptime (format s : string) : option timestamp :=
  if bool_decide (format = "%Y/%m/%d %H:%M:%S"%string) &&
     bool_decide (String.length s = 19%nat) &&
     bool_decide (substring 4 1 s = "/"%string) &&
     bool_decide (substring 7 1 s = "/"%string) &&
     bool_decide (substring 10 1 s = " "%string) &&
     bool_decide (substring 13 1 s = ":"%string) &&
     bool_decide (substring 16 1 s = ":"%string)
  then
    y ← number_of (substring 0 4 s) 0;
    m ← number_of (substring 5 2 s) 0;
    d ← number_of (substring 8 2 s) 0;
    hh ← number_of (substring 11 2 s) 0;
    mm ← number_of (substring 14 2 s) 0;
    ss ← number_of (substring 17 2 s) 0;
    if valid_date y m d && (hh <? 24) && (mm <? 60) && (ss <? 60)
    then Some (Timestamp (days_from_civil y m d * ns_per_day
                          + (hh * 3600 + mm * 60 + ss) * ns_per_second) None)
    else None
  else None.

Definition ref_cell (numeric : bool) (s : string) : cell :=
  if numeric then
    match dec_float s with
    | Some (Some q) => Num q
    | _ => NaN
    end
  else Text s.

Definition ref_row (num_level num_rise : bool) (fs : list string)
    : option raw_row :=
  match fs with
  | [a; b; c; d; e] =>
      Some (RawRow (Text a) (Text b) (Text c)
                   (ref_cell num_level d) (ref_cell num_rise e))
  | _ => None
  end.

Definition ref_parse_csv (skiprows : nat) (names : list string)
    (content : string) : string + table :=
  let lines := drop skiprows (split_on (fun c => bool_decide (c = newline))
                                content EmptyString) in
  let toks := filter (fun l => l ≠ []) (fields <$> lines) in
  let numeric (i : nat) :=
    forallb (fun l => if dec_float (default EmptyString (l !! i)) is Some _
                      then true else false) toks in
  match mapM (ref_row (numeric 3%nat) (numeric 4%nat)) toks with
  | Some t => inr t
  | None => inl "Error tokenizing data"%string
  end.

Definition ref_parsers : Parsers :=
  {| parse_csv := ref_parse_csv; strptime := ref_strptime; to_float := dec_float |}.

(** Arithmetic without rounding, used to run the module on concrete
    series: the operations of the rational numbers. *)
#[global] Instance exact : Float64 :=
  {| f64_of_int := Qc_of_Z;
     f64_days := fun u => (Qc_of_Z u / Qc_of_Z ns_per_day)%Qc;
     f64_sub := Qcminus;
     f64_mul := Qcmult;
     f64_div := Qcdiv;
     f64_mean := fun l => (Qc_sum l / Qc_of_Z (Z.of_nat (length l)))%Qc;
     f64_nanmean := fun l =>
       (Qc_sum (present l) / Qc_of_Z (Z.of_nat (length (present l))))%Qc;
     f64_cov := fun x y =>
       let n := Qc_of_Z (Z.of_nat (length x)) in
       let xmean := (Qc_sum x / n)%Qc in
       let ymean := (Qc_sum y / n)%Qc in
       (Qc_sum (zip_with (fun u v => (u - xmean) * (v - ymean)) x y) / n)%Qc |}.

(** Two zones with a fixed offset: UTC, and Tokyo nine hours ahead of it. *)
#[global] Instance fixed_zones : Zones :=
  {| utcoffset := fun zone _ =>
       if decide (zone = "Asia/Tokyo"%string) then 9 * 3600 * ns_per_second
       else 0 |}.

(** A stand-in solver that reports amplitude and phase zero for every
    constituent. *)
Definition ref_uptide : Uptide :=
  {| tides := list string;
     Tides := fun cs => Ok cs;
     set_initial_time := fun t _ => t;
     harmonic_analysis := fun t _ _ =>
       Ok ((fun _ => Some 0%Qc) <$> t, (fun _ => Some 0%Qc) <$> t) |}.

(** Two sorts by decreasing count, used to run the scanner on concrete
    series: insertion sorts that put an entry before, or after, the entries
    with the same count that follow it.  The first keeps equal counts in the
    order they had; the second reverses them. *)
Fixpoint insert_desc (x : nat * nat) (l : list (nat * nat)) : list (nat * nat) :=
  match l with
  | [] => [x]
  | y :: l' => if (snd y <=? snd x)%nat then x :: y :: l'
               else y :: insert_desc x l'
  end.
Fixpoint sort_desc (l : list (nat * nat)) : list (nat * nat) :=
  match l with
  | [] => []
  | x :: l' => insert_desc x (sort_desc l')
  end.

Fixpoint insert_desc_last (x : nat * nat) (l : list (nat * nat))
    : list (nat * nat) :=
  match l with
  | [] => [x]
  | y :: l' => if (snd y <? snd x)%nat then x :: y :: l'
               else y :: insert_desc_last x l'
  end.
Fixpoint sort_desc_last (l : list (nat * nat)) : list (nat * nat) :=
  match l with
  | [] => []
  | x :: l' => insert_desc_last x (sort_desc_last l')
  end.

#[global] Instance ties_first : Sorter := {| sort_values := sort_desc |}.
Definition ties_last : Sorter := {| sort_values := sort_desc_last |}.

(** A file system with one regular file. *)
Definition one_file (name content : string) : filesystem :=
  fun p => if decide (p = name) then Some (Regular content) else None.

(** The rows to which the scan of the specification gives the
    run-identifier [g]. *)
Definition rows_of_run (g : nat) (d : frame) : list reading :=
  (filter (fun x => x.2 = g)
     (zip (rows d) (scan_runs (valid_row <$> rows d)))).*1.

(** ** Sample data *)

(** Hourly readings without other columns, starting at 1947-01-01. *)
Definition hour_ns : Z := 3600 * ns_per_second.

Definition sample_row (i : Z) (v : float) : reading :=
  Reading (Timestamp (days_from_civil 1947 1 1 * ns_per_day + i * hour_ns) None)
          v [].

Definition sample_rows (start : Z) (vs : list float) : list reading :=
  imap (fun i v => sample_row (start + Z.of_nat i) v) vs.

(** Two missing readings, ten valid ones, three missing ones. *)
Definition gappy_levels : list float :=
  [None; None] ++
  ((fun z => Some (Qc_of_Z z)) <$> [3; 1; 4; 1; 5; 9; 2; 6; 5; 3]) ++
  [None; None; None].

Definition gappy : frame := Frame [] (sample_rows 0 gappy_levels).

(** Two runs of two rows each, the first of missing readings and the second
    of valid ones, after two runs of one row. *)
Definition tied : frame :=
  Frame [] (sample_rows 0 [None; Some (Qc_of_Z 2); None; None;
                           Some (Qc_of_Z 5); Some (Qc_of_Z 6)]).

(** Six valid readings one year later, to be joined with [gappy]. *)
Definition later : frame :=
  Frame [] (sample_rows 8760 ((fun z => Some (Qc_of_Z z)) <$> [2; 7; 1; 8; 2; 8])).

(** The readings of [later] followed by those of [gappy]: a series that is
    not in time order. *)
Definition unsorted : frame := Frame [] (rows later ++ rows gappy).

(** The argument is a frame object that exists, or is not a frame. *)
Definition valid_arg (h : heap) (v : pyval) : Prop :=
  match v with
  | PyRef l => is_Some (h !! l)
  | _ => True
  end.

Definition is_scalar (v : pyval) : Prop :=
  match v with
  | PyScalar _ => True
  | _ => False
  end.

(** The message of the TypeError that [pd.concat] raises for an object that
    is not a frame. *)
Definition type_error_text (s : scalar) : string :=
  ("cannot concatenate object of type '" +:+ type_name s
   +:+ "'; only Series and DataFrame objs are valid")%string.

(** A series with one valid reading between two missing ones. *)
Definition lonely : frame :=
  Frame [] (sample_rows 0 [None; Some (Qc_of_Z 5); None]).

(** [lonely] with its index localized to UTC. *)
Definition aware : frame :=
  set_index lonely ((fun t => Timestamp (ns t) (Some "UTC"%string)) <$> index lonely).


(** ** The parser after the file is read

    The steps of [read_tidal_data] between [pd.read_csv] and the return, as a
    function of the table: they touch no object of the store. *)

Definition sanitize (data : table) : table :=
  let data := replace ".*M$" (columnNames !!! 3%nat) data in
  let data := replace ".*N$" (columnNames !!! 3%nat) data in
  let data := replace ".*T$" (columnNames !!! 3%nat) data in
  let data := replace ".*M$" (columnNames !!! 4%nat) data in
  let data := replace ".*N$" (columnNames !!! 4%nat) data in
  let data := replace ".*T$" (columnNames !!! 4%nat) data in
  data.

Definition parse_table `{Parsers} (data : table) : result frame :=
  rbind (series_add_str (r_date <$> data) " ") (fun date_sp =>
  rbind (series_add date_sp (r_time <$> data)) (fun text =>
  rbind (to_datetime text "%Y/%m/%d %H:%M:%S") (fun DateTime =>
  rbind (astype_float (r_level <$> sanitize data)) (fun lv =>
  Ok (build_frame DateTime lv (sanitize data)))))).

(** One of the three patterns matches the text. *)
Definition flagged (s : string) : bool :=
  re_search ".*M$" s || re_search ".*N$" s || re_search ".*T$" s.

(** A value after the three replacements. *)
Definition sanitize_cell (c : cell) : cell :=
  mask_cell ".*T$" (mask_cell ".*N$" (mask_cell ".*M$" c)).

(** The "Sea Level Rise" value of a row of a parsed frame. *)
Definition rise (r : reading) : option cell := others r !! 3%nat.

(** A file with the 11 header lines and three readings, the second of them
    flagged in both numeric fields. *)
Definition nl : string := String newline EmptyString.

Definition sample_file : string :=
  (String.concat nl (replicate 11 "header"%string) +:+ nl +:+
   "1) 1947/01/01 00:00:00 3.5 0.1" +:+ nl +:+
   "2) 1947/01/01 01:00:00 2.5M 0.2M" +:+ nl +:+
   "3) 1947/01/01 02:00:00 1.5 -0.3" +:+ nl)%string.


(** The store after reading [sample_file] with the reference parsers. *)
Definition parsed_sample : heap :=
  (@read_tidal_data ref_parsers (one_file "a.txt" sample_file) "a.txt" []).1.

(** The three marker letters. *)
Definition markers : list ascii := ["M"; "N"; "T"]%char.

(** ** The earlier copy of the module

    [data/tidal_analysis.py] is an earlier copy of the module.  Its
    [join_data] catches every exception of [pd.concat] and raises a plain
    Exception in its place. *)
Module Data.

(** The one kind of exception that this [join_data] raises. *)
Inductive exception : Type :=
| Exception (msg : string).

Definition join_data (data1 data2 : pyval)
    : heap → heap * (exception + loc) :=
  fun h =>
    match pd_concat [data2; data1] h with
    | (h', inl e) =>
        (h', inl (Exception ("Concatenation error joining data: "
                             +:+ exn_msg e)))
    | (h', inr data) => (h', inr data)
    end.

End Data.

(** ** More sample data *)

(** A frame in which the label "Date" names two columns. *)
Definition repeated : frame :=
  Frame ["Date"; "Date"]%string
        [Reading (Timestamp 0 None) (Some (Qc_of_Z 1)) [Text "a"; Text "b"]].

(** Two valid readings taken at the same instant. *)
Definition twice : frame :=
  Frame [] [Reading (Timestamp 0 None) (Some (Qc_of_Z 1)) [];
            Reading (Timestamp 0 None) (Some (Qc_of_Z 5)) []].

(** A stand-in solver that hands back the sea levels and the times it is
    given, and rejects an empty list of constituents. *)
Definition echo_uptide : Uptide :=
  {| tides := list string * option timestamp;
     Tides := fun cs =>
       if decide (cs = []) then Raise (ValueError "no constituents")
       else Ok (cs, None);
     set_initial_time := fun t start => (t.1, Some start);
     harmonic_analysis := fun _ sl seconds => Ok (sl, seconds) |}.

(** The sample file with a sea level that is neither flagged nor a number. *)
Definition bad_level_file : string :=
  (String.concat nl (replicate 11 "header"%string) +:+ nl +:+
   "1) 1947/01/01 00:00:00 3.5 0.1" +:+ nl +:+
   "2) 1947/01/01 01:00:00 2.5x 0.2M" +:+ nl)%string.

(** * Properties *)

(** ** Running a computation *)

Ltac py_simpl :=
  repeat (progress (unfold mbind, Py_bind, mret, Py_ret, lift, alloc, assign,
                      raise, try_except, Ok, Raise in *; cbv beta iota)).

Lemma run_bind {A B} (m : Py A) (k : A → Py B) (h : heap) :
  (m ≫= k) h = match m h with
                | (h', inl e) => (h', inl e)
                | (h', inr a) => k a h'
                end.
Proof. reflexivity. Qed.

Lemma run_deref (h : heap) (l : loc) (f : frame) :
  h !! l = Some f → deref l h = (h, Ok f).
Proof. intros E. unfold deref. by rewrite E. Qed.

Lemma lookup_alloc (h : heap) (f : frame) (l : loc) (g : frame) :
  h !! l = Some g → (h ++ [f]) !! l = Some g.
Proof. intros E. by apply lookup_app_l_Some. Qed.

Lemma lookup_alloc_new (h : heap) (f : frame) :
  (h ++ [f]) !! length h = Some f.
Proof. by rewrite list_lookup_middle. Qed.

(** ** The two reference sorts *)

Lemma insert_desc_perm (kc : list (nat * nat)) (x : nat * nat) : insert_desc x kc ≡ₚ x :: kc.
Proof.
  induction kc as [|y kc IH]; [done|]. cbn [insert_desc].
  destruct (y.2 <=? x.2)%nat; [done|]. rewrite IH. apply Permutation_swap.
Qed.

Lemma insert_desc_sorted (kc : list (nat * nat)) (x : nat * nat) :
  StronglySorted (fun a b => (b.2 ≤ a.2)%nat) kc →
  StronglySorted (fun a b => (b.2 ≤ a.2)%nat) (insert_desc x kc).
Proof.
  induction 1 as [|y kc Hs IH Hy]; [repeat constructor|]. cbn [insert_desc].
  destruct (Nat.leb_spec y.2 x.2) as [L|L].
  - constructor; [by constructor|]. constructor; [done|].
    eapply Forall_impl; [exact Hy|]. cbn. intros; lia.
  - constructor; [done|]. rewrite insert_desc_perm.
    constructor; [lia | done].
Qed.

#[global] Instance ties_first_laws : @SorterLaws ties_first.
Proof.
  split; cbn.
  - induction l as [|x l IH]; [done|]. cbn [sort_desc].
    by rewrite insert_desc_perm, IH.
  - induction l as [|x l IH]; [constructor|]. by apply insert_desc_sorted.
Qed.

Lemma insert_desc_last_perm (kc : list (nat * nat)) (x : nat * nat) :
  insert_desc_last x kc ≡ₚ x :: kc.
Proof.
  induction kc as [|y kc IH]; [done|]. cbn [insert_desc_last].
  destruct (y.2 <? x.2)%nat; [done|]. rewrite IH. apply Permutation_swap.
Qed.

Lemma insert_desc_last_sorted (kc : list (nat * nat)) (x : nat * nat) :
  StronglySorted (fun a b => (b.2 ≤ a.2)%nat) kc →
  StronglySorted (fun a b => (b.2 ≤ a.2)%nat) (insert_desc_last x kc).
Proof.
  induction 1 as [|y kc Hs IH Hy]; [repeat constructor|].
  cbn [insert_desc_last].
  destruct (Nat.ltb_spec y.2 x.2) as [L|L].
  - constructor; [by constructor|]. constructor; [lia|].
    eapply Forall_impl; [exact Hy|]. cbn. intros; lia.
  - constructor; [done|]. rewrite insert_desc_last_perm.
    constructor; [lia | done].
Qed.

Lemma ties_last_laws : @SorterLaws ties_last.
Proof.
  split; cbn.
  - induction l as [|x l IH]; [done|]. cbn [sort_desc_last].
    by rewrite insert_desc_last_perm, IH.
  - induction l as [|x l IH]; [constructor|]. by apply insert_desc_last_sorted.
Qed.

(** ** The contiguity scanner *)

Section Scanner.
Context `{SorterLaws}.

Implicit Types (l : list bool) (ids : list nat) (kc : list (nat * nat)).

Lemma ne_shift_scan l prev acc :
  cumsum_from acc (ne l (take (length l) (Some prev :: (Some <$> l))))
  = scan_from prev acc l.
Proof.
  revert prev acc. induction l as [|b l IH]; intros prev acc; [done|].
  cbn [length take fmap list_fmap ne zip_with cumsum_from scan_from].
  assert (E : (acc + (if xorb b prev then 1 else 0))%nat
              = if bool_decide (b = prev) then acc else S acc).
  { case_bool_decide; destruct b, prev; cbn; (lia || congruence). }
  rewrite E. f_equal. apply (IH b).
Qed.

Lemma cumsum_ne_shift l : cumsum (ne l (shift l)) = scan_runs l.
Proof.
  destruct l as [|b l]; [done|].
  unfold cumsum, shift.
  cbn [length take fmap list_fmap ne zip_with cumsum_from scan_runs].
  f_equal. apply (ne_shift_scan l b 1).
Qed.

Lemma run_ids_scan (d : frame) :
  run_ids d = scan_runs (valid_row <$> rows d).
Proof.
  unfold run_ids. rewrite cumsum_ne_shift. f_equal.
  unfold isna, levels. rewrite <- !list_fmap_compose.
  apply list_fmap_ext. intros _ r _. cbn. unfold valid_row.
  by destruct (sea_level r).
Qed.

Lemma scan_from_length prev id l : length (scan_from prev id l) = length l.
Proof. revert prev id. induction l; intros; cbn; [done|]. by rewrite IHl. Qed.

Lemma scan_runs_length l : length (scan_runs l) = length l.
Proof. destruct l; cbn; [done|]. by rewrite scan_from_length. Qed.

Lemma scan_from_ge prev id l :
  Forall (fun k => (id ≤ k)%nat) (scan_from prev id l).
Proof.
  revert prev id. induction l as [|b l IH]; intros prev id; cbn; [constructor|].
  constructor; [case_bool_decide; lia|].
  apply Forall_forall. intros k Hk.
  pose proof (IH b (if bool_decide (b = prev) then id else S id)) as G.
  rewrite Forall_forall in G. apply G in Hk. case_bool_decide; lia.
Qed.

(** Run-identifiers never go down along the series. *)
Lemma scan_from_sorted prev id l :
  StronglySorted le (scan_from prev id l).
Proof.
  revert prev id. induction l as [|b l IH]; intros prev id; cbn; constructor.
  - apply IH.
  - apply scan_from_ge.
Qed.

Lemma scan_runs_sorted l : StronglySorted le (scan_runs l).
Proof.
  destruct l as [|b l]; cbn; constructor.
  - apply scan_from_sorted.
  - apply scan_from_ge.
Qed.

(** Rows that carry the current identifier have the current classification. *)
Lemma scan_from_current prev id l :
  Forall (fun p => p.2 = id → p.1 = prev) (zip l (scan_from prev id l)).
Proof.
  revert prev id. induction l as [|b l IH]; intros prev id; cbn; [constructor|].
  constructor.
  - cbn. case_bool_decide; [done | lia].
  - case_bool_decide as E.
    + subst. apply IH.
    + apply Forall_forall. intros [c k] Hin Hk. cbn in *. subst k.
      apply elem_of_zip_r in Hin.
      pose proof (scan_from_ge b (S id) l) as G.
      rewrite Forall_forall in G. apply G in Hin. lia.
Qed.

(** Rows with one run-identifier have one classification. *)
Lemma scan_from_homogeneous prev id l (g : nat) :
  ∃ c, Forall (fun p => p.2 = g → p.1 = c) (zip l (scan_from prev id l)).
Proof.
  revert prev id. induction l as [|b l IH]; intros prev id; cbn.
  - exists true. constructor.
  - set (id' := if bool_decide (b = prev) then id else S id).
    destruct (decide (g = id')) as [->|N].
    + exists b. constructor; [done|]. apply scan_from_current.
    + destruct (IH b id') as [c Hc]. exists c. constructor; [|done].
      cbn. intros E. congruence.
Qed.

Lemma scan_runs_homogeneous l (g : nat) :
  ∃ c, Forall (fun p => p.2 = g → p.1 = c) (zip l (scan_runs l)).
Proof.
  destruct l as [|b l]; cbn.
  - exists true. constructor.
  - destruct (decide (g = 1%nat)) as [->|N].
    + exists b. constructor; [done|]. apply scan_from_current.
    + destruct (scan_from_homogeneous b 1 l g) as [c Hc]. exists c.
      constructor; [|done]. cbn. intros E. congruence.
Qed.

(** *** The first maximum *)

Lemma argmax_from_spec kc (best : nat * nat) :
  ∃ pre post,
    best :: kc = pre ++ argmax_from best kc :: post ∧
    Forall (fun x => (x.2 < (argmax_from best kc).2)%nat) pre ∧
    Forall (fun x => (x.2 ≤ (argmax_from best kc).2)%nat) (best :: post).
Proof.
  revert best. induction kc as [|x kc IH]; intros best; cbn [argmax_from].
  - exists [], []. repeat split; repeat constructor.
  - destruct (Nat.ltb_spec best.2 x.2) as [L|L].
    + destruct (IH x) as (pre & post & E & Hpre & Hpost).
      inversion Hpost as [|? ? Hx Hpost']; subst.
      exists (best :: pre), post. rewrite E at 1. split; [done|].
      split; constructor; try done; lia.
    + destruct (IH best) as (pre & post & E & Hpre & Hpost).
      inversion Hpost as [|? ? Hb Hpost']; subst.
      destruct pre as [|p pre].
      * cbn in E. injection E as Eb Ekc.
        exists [], (x :: post). cbn. rewrite <- Eb. split; [by rewrite Ekc at 1|].
        split; [constructor|]. rewrite <- Eb in Hpost'.
        repeat constructor; try done; lia.
      * cbn in E. injection E as Eb Ekc. subst p.
        exists (best :: x :: pre), post. cbn. split; [by do 2 f_equal|].
        inversion Hpre; subst.
        split; repeat constructor; try done; lia.
Qed.

(** In a list sorted by decreasing count the first maximum is the head. *)
Lemma argmax_from_head kc (x : nat * nat) :
  Forall (fun y => (y.2 ≤ x.2)%nat) kc → argmax_from x kc = x.
Proof.
  induction 1 as [|y kc Hy _ IH]; [done|]. cbn [argmax_from].
  destruct (Nat.ltb_spec x.2 y.2); [lia | done].
Qed.

Lemma argmax_sorted kc :
  StronglySorted (fun x y => (y.2 ≤ x.2)%nat) kc → argmax kc = head kc.
Proof.
  destruct kc as [|x kc]; [done|]. intros Hs. cbn [argmax head].
  f_equal. apply argmax_from_head. by inversion Hs.
Qed.

Lemma argmax_spec kc (z : nat * nat) :
  argmax kc = Some z →
  ∃ pre post, kc = pre ++ z :: post ∧
    Forall (fun x => (x.2 < z.2)%nat) pre ∧
    Forall (fun x => (x.2 ≤ z.2)%nat) post.
Proof.
  destruct kc as [|x kc]; [done|]. cbn. intros [= <-].
  destruct (argmax_from_spec kc x) as (pre & post & E & Hpre & Hpost).
  exists pre, post. split; [done|]. split; [done|]. by inversion Hpost.
Qed.

(** *** Distinct values and their counts *)

Lemma elem_of_unique ids (x : nat) : x ∈ unique ids ↔ x ∈ ids.
Proof.
  induction ids as [|y ids IH]; cbn; [done|].
  rewrite !elem_of_cons, list_elem_of_filter, IH.
  destruct (decide (x = y)) as [->|N]; [by split; [left|left] |].
  split; [intros [?|[_ ?]]; [done | by right] | intros [?|?]; [done | by right]].
Qed.

Lemma StronglySorted_filter_nat (R : relation nat) (P : nat → Prop)
    `{∀ x, Decision (P x)} (ks : list nat) :
  StronglySorted R ks → StronglySorted R (filter P ks).
Proof.
  induction 1 as [|y ks Hs IH Hy]; [constructor|].
  rewrite filter_cons. case_decide; [|done].
  constructor; [done|]. apply Forall_forall. intros x Hx.
  apply list_elem_of_filter in Hx as [_ Hx].
  rewrite Forall_forall in Hy. by apply Hy.
Qed.

Lemma unique_sorted ids :
  StronglySorted le ids → StronglySorted lt (unique ids).
Proof.
  induction 1 as [|y ids Hs IH Hy]; cbn; constructor.
  - by apply StronglySorted_filter_nat.
  - apply Forall_forall. intros x Hx.
    apply list_elem_of_filter in Hx as [Hne Hx].
    apply (proj1 (elem_of_unique _ _)) in Hx. rewrite Forall_forall in Hy.
    apply Hy in Hx. lia.
Qed.

Lemma count_of_pos ids (x : nat) : x ∈ ids → (0 < count_of x ids)%nat.
Proof.
  intros Hx. unfold count_of.
  assert (Hf : x ∈ filter (fun y => y = x) ids) by (by apply list_elem_of_filter).
  destruct (filter _ ids); [by apply elem_of_nil in Hf | cbn; lia].
Qed.

Lemma value_counts_nil : value_counts [] = [].
Proof.
  unfold value_counts. cbn [unique fmap list_fmap].
  apply Permutation_nil_r. apply sort_values_perm.
Qed.

(** The label that [idxmax] picks from the value counts: it is the label of
    the first entry of the sorted counts, it occurs in the series, and no
    label occurs more often. *)
Lemma idxmax_value_counts ids :
  match idxmax (value_counts ids) with
  | inl _ => ids = []
  | inr g =>
      g ∈ ids ∧
      (∀ k, k ∈ ids → (count_of k ids ≤ count_of g ids)%nat) ∧
      head (value_counts ids) = Some (g, count_of g ids)
  end.
Proof.
  unfold idxmax. rewrite argmax_sorted by apply sort_values_desc.
  unfold value_counts.
  set (kc := (fun k => (k, count_of k ids)) <$> unique ids).
  pose proof (sort_values_perm kc) as Hp.
  pose proof (sort_values_desc kc) as Hs.
  destruct (sort_values kc) as [|z sorted] eqn:E; cbn [head].
  - apply Permutation_nil_l in Hp. symmetry in Hp. apply fmap_nil_inv in Hp.
    destruct ids as [|x ids]; [done|]. discriminate.
  - assert (Hz : z ∈ kc) by (rewrite <- Hp; left).
    apply list_elem_of_fmap in Hz as (g & -> & Hg). cbn [fst].
    apply (proj1 (elem_of_unique _ _)) in Hg.
    split; [done|]. split; [|done].
    intros k Hin. apply (proj2 (elem_of_unique _ _)) in Hin.
    assert (Hkc : (k, count_of k ids) ∈ kc)
      by (apply list_elem_of_fmap; by exists k).
    rewrite <- Hp in Hkc. apply elem_of_cons in Hkc as [[= ->]|Hkc]; [done|].
    inversion Hs as [|? ? _ Hall]; subst. rewrite Forall_forall in Hall.
    by apply (Hall _ Hkc).
Qed.

(** *** Selecting rows by a mask *)

Lemma select_app {A} (l1 l2 : list A) (m1 m2 : list bool) :
  length l1 = length m1 →
  select (l1 ++ l2) (m1 ++ m2) = select l1 m1 ++ select l2 m2.
Proof.
  revert m1. induction l1 as [|x l1 IH]; intros [|b m1] E; try done.
  cbn in *. rewrite IH by lia. by destruct b.
Qed.

Lemma select_none {A} (l : list A) (n : nat) :
  select l (replicate n false) = [].
Proof. revert n. induction l; intros [|n]; cbn; auto. Qed.

Lemma select_all {A} (l : list A) :
  select l (replicate (length l) true) = l.
Proof. induction l; cbn; [done|]. by f_equal. Qed.

Lemma select_zip {A} (l : list A) (p : nat → bool) (ks : list nat) :
  select l (p <$> ks) = (filter (fun x => p x.2 = true) (zip l ks)).*1.
Proof.
  revert ks. induction l as [|x l IH]; intros [|k ks]; try done.
  change (zip (x :: l) (k :: ks)) with ((x, k) :: zip l ks).
  rewrite filter_cons. cbn [select fmap list_fmap snd].
  destruct (p k) eqn:E.
  - rewrite decide_True by done. cbn. f_equal. apply IH.
  - rewrite decide_False by done. apply IH.
Qed.

Lemma count_of_app ids1 ids2 (k : nat) :
  count_of k (ids1 ++ ids2) = (count_of k ids1 + count_of k ids2)%nat.
Proof. unfold count_of. by rewrite filter_app, length_app. Qed.

Lemma count_of_replicate (n k x : nat) :
  count_of k (replicate n x) = if decide (x = k) then n else 0%nat.
Proof.
  unfold count_of. induction n as [|n IH]; [by destruct (decide _)|].
  cbn [replicate]. rewrite filter_cons.
  destruct (decide (x = k)); cbn; by rewrite IH.
Qed.

Lemma scan_from_same prev id (n : nat) l :
  scan_from prev id (replicate n prev ++ l)
  = replicate n id ++ scan_from prev id l.
Proof.
  induction n as [|n IH]; cbn; [done|].
  rewrite bool_decide_eq_true_2 by done. by rewrite IH.
Qed.

Lemma scan_from_other prev id (n : nat) :
  scan_from prev id (replicate n (negb prev)) = replicate n (S id).
Proof.
  destruct n as [|n]; cbn; [done|].
  rewrite bool_decide_eq_false_2 by (by destruct prev). f_equal.
  rewrite <- (app_nil_r (replicate n (negb prev))).
  rewrite scan_from_same. cbn. by rewrite app_nil_r.
Qed.

Lemma scan_from_other_same prev id (n m : nat) l :
  (0 < n)%nat →
  scan_from prev id (replicate n (negb prev) ++ l)
  = replicate n (S id) ++ scan_from (negb prev) (S id) l.
Proof.
  destruct n as [|n]; [lia|]. intros _. cbn.
  rewrite bool_decide_eq_false_2 by (by destruct prev). f_equal.
  apply scan_from_same.
Qed.

Lemma fmap_constant {A B} (f : A → B) (c : B) (rs : list A) :
  Forall (fun r => f r = c) rs → f <$> rs = replicate (length rs) c.
Proof. induction 1 as [|r rs E _ IH]; cbn; [done|]. by rewrite E, IH. Qed.

Lemma get_longest_run (h : heap) (data : loc) (d : frame) :
  h !! data = Some d →
  get_longest_contiguous_data data h =
  match idxmax (value_counts (run_ids d)) with
  | inl e => (h, inl e)
  | inr g =>
      (h ++ [Frame (columns d)
               (select (rows d) ((fun k => bool_decide (k = g)) <$> run_ids d))],
       Ok (length h))
  end.
Proof.
  intros E. unfold get_longest_contiguous_data, mbind, Py_bind.
  rewrite (run_deref _ _ _ E). unfold lift, run_ids, Ok. cbv beta iota.
  by destruct (idxmax _).
Qed.

(** *** A run between two shorter runs of the other kind *)

Lemma scan_from_switch prev (b : bool) id (n : nat) l :
  b ≠ prev → (0 < n)%nat →
  scan_from prev id (replicate n b ++ l)
  = replicate n (S id) ++ scan_from b (S id) l.
Proof.
  intros Hb Hn. assert (b = negb prev) as -> by (by destruct b, prev).
  by apply (scan_from_other_same prev id n 0).
Qed.

Lemma scan_from_switch_end prev (b : bool) id (n : nat) :
  b ≠ prev → scan_from prev id (replicate n b) = replicate n (S id).
Proof.
  intros Hb. assert (b = negb prev) as -> by (by destruct b, prev).
  apply scan_from_other.
Qed.

Lemma scan_runs_three_blocks (c : bool) (p n q : nat) :
  (0 < n)%nat →
  ∃ x a y : nat, x ≠ a ∧ y ≠ a ∧ x ≠ y ∧
    scan_runs (replicate p (negb c) ++ replicate n c ++ replicate q (negb c))
    = replicate p x ++ replicate n a ++ replicate q y.
Proof.
  intros Hn. destruct p as [|p].
  - exists 0%nat, 1%nat, 2%nat. repeat split; try done.
    destruct n as [|n]; [lia|]. cbn. f_equal.
    by rewrite scan_from_same, scan_from_other.
  - exists 1%nat, 2%nat, 3%nat. repeat split; try done.
    cbn. f_equal. rewrite scan_from_same. f_equal.
    rewrite scan_from_switch by (done || by destruct c). f_equal.
    apply scan_from_switch_end. by destruct c.
Qed.

Lemma most_frequent_block (p n q x a y g : nat) :
  x ≠ a → y ≠ a → x ≠ y → (p < n)%nat → (q < n)%nat →
  let ids := replicate p x ++ replicate n a ++ replicate q y in
  g ∈ ids →
  (∀ k, k ∈ ids → (count_of k ids ≤ count_of g ids)%nat) →
  g = a.
Proof.
  intros Hxa Hya Hxy Hp Hq ids Hg Hmax.
  assert (Ha : a ∈ ids).
  { unfold ids. rewrite !elem_of_app. right. left.
    apply elem_of_replicate. split; [done | lia]. }
  apply Hmax in Ha. unfold ids in Ha, Hg.
  rewrite !count_of_app, !count_of_replicate in Ha.
  rewrite !elem_of_app, !elem_of_replicate in Hg.
  repeat case_decide; try congruence; destruct Hg as [[? ?]|[[? ?]|[? ?]]];
    subst; try congruence; lia.
Qed.

Lemma select_block {A} (pre run post : list A) (p n q x a y : nat) :
  x ≠ a → y ≠ a → length pre = p → length run = n →
  select (pre ++ run ++ post)
    ((fun k => bool_decide (k = a)) <$>
       (replicate p x ++ replicate n a ++ replicate q y))
  = run.
Proof.
  intros Hxa Hya Hp Hn.
  rewrite !fmap_app, !fmap_replicate.
  rewrite (bool_decide_eq_false_2 (x = a)), (bool_decide_eq_false_2 (y = a)),
    (bool_decide_eq_true_2 (a = a)) by done.
  rewrite select_app by (by rewrite length_replicate).
  rewrite select_app by (by rewrite length_replicate).
  rewrite !select_none. subst n. by rewrite select_all, app_nil_r.
Qed.

Lemma select_rows_of_run (g : nat) (d : frame) :
  select (rows d) ((fun k => bool_decide (k = g)) <$> run_ids d)
  = rows_of_run g d.
Proof.
  rewrite select_zip, run_ids_scan. unfold rows_of_run. f_equal.
  apply list_filter_iff. intros [r k]. cbn. by rewrite bool_decide_eq_true.
Qed.

(** C2: [get_longest_contiguous_data] numbers the runs in one pass from the
    left (the identifier goes up by one whenever a row is missing and the row
    before it is not, or the other way round) and returns exactly the rows of
    a run-identifier [g] that has the most rows.  When several identifiers
    have as many, [g] is the one that the sort of the counts lists first,
    and that sort is not stable: the first-seen run is not promised.
    Whether the run is one of valid or of missing values plays no part: a
    run of either kind that lies between two shorter runs of the other kind
    (a run of 10 valid rows between shorter runs of missing rows, say) is
    returned as it is. *)
Theorem longest_contiguous_most_frequent_run (h : heap) (data : loc) (d : frame) :
  h !! data = Some d →
  rows d ≠ [] →
  ∃ g : nat,
    get_longest_contiguous_data data h
      = (h ++ [Frame (columns d) (rows_of_run g d)], Ok (length h)) ∧
    run_ids d = scan_runs (valid_row <$> rows d) ∧
    g ∈ run_ids d ∧
    (∀ k, k ∈ run_ids d →
       (count_of k (run_ids d) ≤ count_of g (run_ids d))%nat) ∧
    head (value_counts (run_ids d)) = Some (g, count_of g (run_ids d)) ∧
    (∀ k, k ∈ run_ids d →
       (∀ k', k' ∈ run_ids d → k' ≠ k →
              (count_of k' (run_ids d) < count_of k (run_ids d))%nat) →
       g = k) ∧
    (∀ (c : bool) (pre run post : list reading),
       rows d = pre ++ run ++ post →
       Forall (fun r => valid_row r = negb c) pre →
       Forall (fun r => valid_row r = c) run →
       Forall (fun r => valid_row r = negb c) post →
       (length pre < length run)%nat →
       (length post < length run)%nat →
       rows_of_run g d = run).
Proof.
  intros E Hne. rewrite (get_longest_run _ _ _ E).
  pose proof (idxmax_value_counts (run_ids d)) as Hg.
  destruct (idxmax (value_counts (run_ids d))) as [e|g].
  { exfalso. rewrite run_ids_scan in Hg.
    apply (f_equal length) in Hg. rewrite scan_runs_length, length_fmap in Hg.
    destruct (rows d); [done | discriminate]. }
  destruct Hg as (Hin & Hmax & Hhead).
  exists g. rewrite select_rows_of_run. split; [done|].
  split; [apply run_ids_scan|]. split; [done|]. split; [done|].
  split; [done|]. split.
  - intros k Hk Hstrict. destruct (decide (g = k)) as [|N]; [done|].
    specialize (Hstrict g Hin N). specialize (Hmax k Hk). lia.
  - intros c pre run post Hrows Hpre Hrun Hpost Hp Hq.
    assert (Hn : (0 < length run)%nat) by lia.
    destruct (scan_runs_three_blocks c (length pre) (length run) (length post) Hn)
      as (x & a & y & Hxa & Hya & Hxy & Hids).
    assert (Hids' : run_ids d
              = replicate (length pre) x ++ replicate (length run) a
                ++ replicate (length post) y).
    { rewrite run_ids_scan, Hrows, !fmap_app.
      by rewrite (fmap_constant _ _ _ Hpre), (fmap_constant _ _ _ Hrun),
        (fmap_constant _ _ _ Hpost). }
    rewrite Hids' in Hin, Hmax.
    pose proof (most_frequent_block _ _ _ _ _ _ g Hxa Hya Hxy Hp Hq Hin Hmax)
      as ->.
    rewrite <- select_rows_of_run, Hids', Hrows.
    by apply select_block.
Qed.

(** C10: on a series without rows [get_longest_contiguous_data] raises (there
    is no run to pick); on every other series it returns a new series that is
    not empty and whose rows are those of one run-identifier, hence all valid
    or all missing. *)
Theorem longest_contiguous_needs_rows (h : heap) (data : loc) (d : frame) :
  h !! data = Some d →
  (rows d = [] →
     get_longest_contiguous_data data h
       = (h, Raise (ValueError "attempt to get argmax of an empty sequence"))) ∧
  (rows d ≠ [] →
     ∃ (g : nat) (out : frame),
       get_longest_contiguous_data data h = (h ++ [out], Ok (length h)) ∧
       rows out = rows_of_run g d ∧
       rows out ≠ [] ∧
       ∃ c : bool, Forall (fun r => valid_row r = c) (rows out)).
Proof.
  intros E. rewrite (get_longest_run _ _ _ E). split.
  - intros Hnil. rewrite run_ids_scan, Hnil. cbn [fmap list_fmap scan_runs].
    by rewrite value_counts_nil.
  - intros Hne.
    pose proof (idxmax_value_counts (run_ids d)) as Hg.
    destruct (idxmax (value_counts (run_ids d))) as [e|g].
    { exfalso. rewrite run_ids_scan in Hg.
      apply (f_equal length) in Hg.
      rewrite scan_runs_length, length_fmap in Hg.
      destruct (rows d); [done | discriminate]. }
    destruct Hg as (Hin & _ & _).
    exists g, (Frame (columns d) (rows_of_run g d)).
    rewrite select_rows_of_run. split; [done|]. split; [done|]. cbn. split.
    + rewrite run_ids_scan in Hin.
      apply list_elem_of_lookup in Hin as [i Hi].
      assert (Hlt : (i < length (rows d))%nat).
      { apply lookup_lt_Some in Hi.
        by rewrite scan_runs_length, length_fmap in Hi. }
      apply lookup_lt_is_Some in Hlt as [r Hr].
      assert (Hz : (r, g) ∈ zip (rows d) (scan_runs (valid_row <$> rows d))).
      { apply list_elem_of_lookup. exists i.
        rewrite lookup_zip_with, Hr. cbn. by rewrite Hi. }
      unfold rows_of_run. intros Hnil. apply fmap_nil_inv in Hnil.
      assert (Hf : (r, g) ∈ filter (fun x : reading * nat => x.2 = g)
                     (zip (rows d) (scan_runs (valid_row <$> rows d))))
        by (by apply list_elem_of_filter).
      rewrite Hnil in Hf. by apply elem_of_nil in Hf.
    + destruct (scan_runs_homogeneous (valid_row <$> rows d) g) as [c Hc].
      exists c. unfold rows_of_run. apply Forall_forall. intros r Hr.
      apply list_elem_of_fmap in Hr as ([r' k] & -> & Hr). cbn.
      apply list_elem_of_filter in Hr as [Hk Hr]. cbn in Hk. subst k.
      apply list_elem_of_lookup in Hr as [i Hi].
      rewrite lookup_zip_with in Hi.
      destruct (rows d !! i) as [r0|] eqn:Er; [|done]. cbn in Hi.
      destruct (scan_runs (valid_row <$> rows d) !! i) as [k|] eqn:Ek; [|done].
      cbn in Hi. injection Hi as -> ->.
      rewrite Forall_forall in Hc.
      apply (Hc (valid_row r', g)); [|done].
      apply list_elem_of_lookup. exists i.
      rewrite lookup_zip_with, list_lookup_fmap, Er. cbn. by rewrite Ek.
Qed.

End Scanner.

Section ScannerExamples.
Lemma longest_contiguous_most_frequent_run_witness :
  [gappy] !! 0%nat = Some gappy ∧ rows gappy ≠ [] ∧
  ∃ out : frame,
    get_longest_contiguous_data 0%nat [gappy] = ([gappy; out], Ok 1%nat) ∧
    rows out = sample_rows 2
      ((fun z => Some (Qc_of_Z z)) <$> [3; 1; 4; 1; 5; 9; 2; 6; 5; 3]).
Proof.
  split; [reflexivity|]. split; [discriminate|].
  destruct (longest_contiguous_most_frequent_run [gappy] 0%nat gappy eq_refl)
    as (g & E & _ & _ & _ & _ & _ & Hshape); [discriminate|].
  exists (Frame [] (rows_of_run g gappy)). split; [exact E|].
  apply (Hshape true (sample_rows 0 [None; None]) _
           (sample_rows 12 [None; None; None])).
  - reflexivity.
  - repeat constructor.
  - repeat constructor.
  - repeat constructor.
  - cbn. lia.
  - cbn. lia.
Defined.

Lemma longest_contiguous_needs_rows_witness :
  [gappy] !! 0%nat = Some gappy ∧
  ∃ (g : nat) (out : frame),
    get_longest_contiguous_data 0%nat [gappy] = ([gappy; out], Ok 1%nat) ∧
    rows out = rows_of_run g gappy ∧ rows out ≠ [] ∧
    ∃ c : bool, Forall (fun r => valid_row r = c) (rows out).
Proof.
  split; [reflexivity|].
  apply (longest_contiguous_needs_rows [gappy] 0%nat gappy eq_refl).
  discriminate.
Defined.

(** The claim that the first-seen of several longest runs is returned fails
    under a sort that lists equal counts in the reverse of their order: of
    the two runs of two rows of [tied], the missing rows 2 and 3 and the
    valid rows 4 and 5, the second is returned. *)
Lemma longest_contiguous_tie_not_first :
  run_ids tied = [1; 2; 3; 3; 4; 4]%nat ∧
  @value_counts ties_last (run_ids tied)
  = [(4, 2); (3, 2); (2, 1); (1, 1)]%nat ∧
  (@get_longest_contiguous_data ties_last 0%nat [tied]).2 = Ok 1%nat ∧
  (rows <$> (@get_longest_contiguous_data ties_last 0%nat [tied]).1 !! 1%nat)
  = Some (sample_rows 4 [Some (Qc_of_Z 5); Some (Qc_of_Z 6)]) ∧
  rows_of_run 3 tied = sample_rows 2 [None; None] ∧
  sample_rows 4 [Some (Qc_of_Z 5); Some (Qc_of_Z 6)] ≠ rows_of_run 3 tied.
Proof.
  split; [reflexivity|]. split; [reflexivity|]. split; [reflexivity|].
  split; [reflexivity|]. split; [reflexivity|]. discriminate.
Qed.

End ScannerExamples.

(** ** Decimal strings *)

Section Decimal.
Context {F64 : Float64}.
Lemma string_app_assoc (a b c : string) : (a +:+ b) +:+ c = a +:+ (b +:+ c).
Proof.
  induction a as [|x a IH]; [done|].
  change (String x ((a +:+ b) +:+ c) = String x (a +:+ (b +:+ c))).
  by rewrite IH.
Qed.

Lemma digits_fuel_acc (fuel : nat) (n : Z) (acc : string) :
  digits_fuel fuel n acc = digits_fuel fuel n EmptyString +:+ acc.
Proof.
  revert n acc. induction fuel as [|k IH]; intros n acc; cbn; [done|].
  destruct (n <? 10); [done|].
  rewrite IH, (IH _ (String _ EmptyString)). by rewrite string_app_assoc.
Qed.

(** Once the fuel covers the digits, more fuel changes nothing. *)
Lemma digits_fuel_enough (f f' : nat) (n : Z) (acc : string) :
  0 ≤ n < 10 ^ Z.of_nat (S f) → (S f ≤ f')%nat →
  digits_fuel f' n acc = digits_fuel (S f) n acc.
Proof.
  revert f' n acc. induction f as [|f IH]; intros f' n acc Hn Hf.
  - destruct f' as [|k]; [lia|]. cbn.
    destruct (Z.ltb_spec n 10); [done|]. change (10 ^ Z.of_nat 1) with 10 in Hn. lia.
  - destruct f' as [|k]; [lia|]. cbn [digits_fuel].
    destruct (Z.ltb_spec n 10); [done|].
    apply IH; [|lia]. split; [apply Z.div_pos; lia|].
    apply Z.div_lt_upper_bound; [lia|].
    rewrite Nat2Z.inj_succ, Z.pow_succ_r in Hn by lia. lia.
Qed.

Lemma str_nat_fuel (n : Z) (f : nat) :
  0 ≤ n → (S (Z.to_nat (Z.log2 n)) ≤ f)%nat →
  digits_fuel f n EmptyString = str_nat n.
Proof.
  intros Hn Hf. unfold str_nat. apply digits_fuel_enough; [|done].
  split; [done|].
  destruct (decide (n = 0)) as [->|N]; [done|].
  pose proof (Z.log2_spec n ltac:(lia)) as [_ Hu].
  pose proof (Z.log2_nonneg n).
  rewrite Nat2Z.inj_succ, Z2Nat.id by done.
  eapply Z.lt_le_trans; [exact Hu|].
  apply Z.pow_le_mono_l. lia.
Qed.

(** Appending a digit to the decimal string of a positive number. *)
Lemma str_nat_snoc (n d : Z) :
  0 < n → 0 ≤ d < 10 →
  str_nat (10 * n + d) = str_nat n +:+ String (digit_char d) EmptyString.
Proof.
  intros Hn Hd. unfold str_nat at 1. cbn [digits_fuel].
  destruct (Z.ltb_spec (10 * n + d) 10); [lia|].
  replace ((10 * n + d) mod 10) with d
    by (rewrite Z.add_comm, Z.mul_comm, Z_mod_plus_full; by rewrite Z.mod_small).
  replace ((10 * n + d) / 10) with n
    by (rewrite Z.add_comm, Z.mul_comm, Z_div_plus_full by lia;
        rewrite Z.div_small; lia).
  rewrite digits_fuel_acc. f_equal. apply str_nat_fuel; [lia|].
  pose proof (Z.log2_nonneg n).
  assert (Z.log2 n < Z.log2 (10 * n + d)); [|lia].
  apply Z.lt_le_trans with (Z.log2 (2 * n)).
  - rewrite Z.log2_double by done. lia.
  - apply Z.log2_le_mono. lia.
Qed.

Lemma str_int_year_start (y : Z) :
  0 < y → str_int (y * 10000 + 101) = (str_int y +:+ "0101")%string.
Proof.
  intros Hy. unfold str_int.
  destruct (Z.ltb_spec (y * 10000 + 101) 0), (Z.ltb_spec y 0); try lia.
  replace (y * 10000 + 101)
    with (10 * (10 * (10 * (10 * y + 0) + 1) + 0) + 1) by lia.
  rewrite !str_nat_snoc by lia.
  by rewrite !string_app_assoc.
Qed.

Lemma str_int_year_end (y : Z) :
  0 < y → str_int (y * 10000 + 1231) = (str_int y +:+ "1231")%string.
Proof.
  intros Hy. unfold str_int.
  destruct (Z.ltb_spec (y * 10000 + 1231) 0), (Z.ltb_spec y 0); try lia.
  replace (y * 10000 + 1231)
    with (10 * (10 * (10 * (10 * y + 1) + 2) + 3) + 1) by lia.
  rewrite !str_nat_snoc by lia.
  by rewrite !string_app_assoc.
Qed.

(** C5: for a year [y] (a positive number, given as an int or as the str of
    that int), [extract_single_year_remove_mean y data] is the same
    computation as [extract_section_remove_mean] between [y*10000+0101] and
    [y*10000+1231]: same result and same effect on the store. *)
Theorem extract_single_year_is_section (y : Z) (data : loc) (h : heap) :
  0 < y →
  extract_single_year_remove_mean (SInt y) data h
  = extract_section_remove_mean
      (SInt (y * 10000 + 101)) (SInt (y * 10000 + 1231)) data h ∧
  extract_single_year_remove_mean (SStr (str_int y)) data h
  = extract_section_remove_mean
      (SInt (y * 10000 + 101)) (SInt (y * 10000 + 1231)) data h.
Proof.
  intros Hy.
  unfold extract_single_year_remove_mean, extract_section_remove_mean, str.
  by rewrite str_int_year_start, str_int_year_end.
Qed.

End Decimal.

(** ** The window extractor *)

Section Extractor.
Context {F64 : Float64}.
Lemma monotonic_cons (x : Z) (ks : list Z) :
  is_monotonic_increasing (x :: ks) = true →
  Forall (fun y => x ≤ y) ks ∧ is_monotonic_increasing ks = true.
Proof.
  revert x. induction ks as [|y ks IH]; intros x H; [by split|].
  cbn [is_monotonic_increasing] in H.
  apply andb_prop in H as [Hxy H]. apply Z.leb_le in Hxy.
  destruct (IH y H) as [Hy _]. split; [|done].
  constructor; [done|]. apply Forall_forall. intros z Hz.
  rewrite Forall_forall in Hy. apply Hy in Hz. lia.
Qed.

Lemma filter_none {A} (P : A → Prop) `{∀ x, Decision (P x)} (xs : list A) :
  Forall (fun x => ¬ P x) xs → filter P xs = [].
Proof.
  induction 1 as [|x xs Hx _ IH]; [done|].
  by rewrite filter_cons, decide_False.
Qed.

Lemma filter_ext_Forall {A} (P Q : A → Prop) `{∀ x, Decision (P x)}
    `{∀ x, Decision (Q x)} (xs : list A) :
  Forall (fun x => P x ↔ Q x) xs → filter P xs = filter Q xs.
Proof.
  induction 1 as [|x xs Hx _ IH]; [done|].
  rewrite !filter_cons, IH.
  destruct (decide (P x)), (decide (Q x)); tauto || done.
Qed.

Lemma searchsorted_right_take l hi :
  is_monotonic_increasing (row_ns <$> l) = true →
  take (searchsorted_right (row_ns <$> l) hi) l = filter (fun r => row_ns r ≤ hi) l.
Proof.
  unfold searchsorted_right.
  induction l as [|r l IH]; intros Hs; [done|].
  rewrite fmap_cons in *. apply monotonic_cons in Hs as [Hr Hs].
  rewrite !filter_cons. destruct (decide (row_ns r ≤ hi)) as [L|L].
  - cbn [length take]. f_equal. by apply IH.
  - rewrite !filter_none; [done| |].
    + apply Forall_forall. intros x Hx. rewrite Forall_forall in Hr.
      assert (row_ns x ∈ row_ns <$> l) as Hk by (apply list_elem_of_fmap; by exists x).
      apply Hr in Hk. cbn in *. lia.
    + apply Forall_forall. intros x Hx. rewrite Forall_forall in Hr.
      apply Hr in Hx. lia.
Qed.

(** Between the insertion points of the two bounds lie exactly the rows
    inside the window. *)
Lemma searchsorted_slice l lo hi :
  is_monotonic_increasing (row_ns <$> l) = true →
  drop (searchsorted_left (row_ns <$> l) lo)
       (take (searchsorted_right (row_ns <$> l) hi) l)
  = filter (in_window lo hi) l.
Proof.
  induction l as [|r l IH]; intros Hs; [done|].
  pose proof Hs as Hs0.
  rewrite fmap_cons in Hs. apply monotonic_cons in Hs as [Hr Hs].
  rewrite Forall_forall in Hr.
  destruct (decide (row_ns r < lo)) as [L|L].
  - unfold searchsorted_left, searchsorted_right.
    rewrite fmap_cons, !filter_cons, decide_True by done.
    rewrite (decide_False (P := in_window lo hi r)) by (unfold in_window; lia).
    destruct (decide (row_ns r ≤ hi)) as [U|U].
    + cbn [length take drop]. by apply IH.
    + rewrite (filter_none (fun k => k ≤ hi)).
      * cbn [length take]. rewrite drop_nil. symmetry. apply filter_none.
        apply Forall_forall. intros x Hx.
        assert (row_ns x ∈ row_ns <$> l) as Hk by (apply list_elem_of_fmap; by exists x).
        apply Hr in Hk. unfold in_window. cbn in *. lia.
      * apply Forall_forall. intros x Hx. apply Hr in Hx. lia.
  - assert (E : searchsorted_left (row_ns <$> r :: l) lo = 0%nat).
    { unfold searchsorted_left. rewrite filter_none; [done|].
      rewrite fmap_cons. constructor; [done|].
      apply Forall_forall. intros x Hx. apply Hr in Hx. lia. }
    rewrite E, drop_0, searchsorted_right_take by done.
    apply filter_ext_Forall. apply Forall_forall. intros x Hx.
    unfold in_window. split; [|tauto]. intros U. split; [|done].
    apply elem_of_cons in Hx as [->|Hx]; [lia|].
    assert (row_ns x ∈ row_ns <$> l) as Hk by (apply list_elem_of_fmap; by exists x).
    apply Hr in Hk. cbn in *. lia.
Qed.

(** On every index the slice holds the rows inside the window, in the order
    of the series. *)
Lemma slice_rows_filter l lo hi :
  sliceable lo hi l →
  slice_rows lo hi l = Ok (filter (in_window lo hi) l).
Proof.
  unfold slice_rows, sliceable.
  destruct (is_monotonic_increasing _) eqn:E.
  - intros _. f_equal. by apply searchsorted_slice.
  - intros [?|Hin]; [done|]. by rewrite bool_decide_eq_true_2.
Qed.

Lemma slice_rows_key_error l lo hi :
  ¬ sliceable lo hi l →
  slice_rows lo hi l
  = Raise (KeyError "Value based partial slicing on non-monotonic DatetimeIndexes with non-existing keys is not allowed.").
Proof.
  unfold slice_rows, sliceable. intros Hn.
  destruct (is_monotonic_increasing _) eqn:E; [exfalso; apply Hn; by left|].
  rewrite bool_decide_eq_false_2; [done|]. intros Hin. apply Hn. by right.
Qed.

(** *** Removing the mean *)

Lemma Qc_sum_sub (mu : Qc) (vs : list Qc) :
  Qc_sum ((fun x => x - mu)%Qc <$> vs)
  = (Qc_sum vs - Qc_of_Z (Z.of_nat (length vs)) * mu)%Qc.
Proof.
  induction vs as [|v vs IH]; cbn [fmap list_fmap Qc_sum foldr length].
  - change (Z.of_nat 0) with 0. rewrite Z2Qc_inj_0. ring.
  - fold (Qc_sum ((fun x => x - mu)%Qc <$> vs)). fold (Qc_sum vs).
    rewrite IH, Nat2Z.inj_succ, <- Z.add_1_r, Z2Qc_inj_add, Z2Qc_inj_1.
    ring.
Qed.

Lemma Qc_of_nat_nonzero (n : nat) :
  n ≠ 0%nat → Qc_of_Z (Z.of_nat n) ≠ 0%Qc.
Proof.
  intros Hn E. rewrite <- Z2Qc_inj_0 in E.
  apply Z2Qc_inj in E. lia.
Qed.

Lemma present_fsub (m : Qc) (vs : list float) :
  present ((fun v => fsub v (Some m)) <$> vs)
  = (fun x => f64_sub x m) <$> present vs.
Proof.
  unfold present. induction vs as [|[v|] vs IH]; cbn; [done| |done].
  by f_equal.
Qed.

Lemma present_fsub_nan (vs : list float) :
  present ((fun v => fsub v None) <$> vs) = [].
Proof. unfold present. induction vs as [|[v|] vs IH]; cbn; done. Qed.

(** In exact arithmetic, after the mean of the present values is subtracted
    from every value the present values add up to zero. *)
Lemma centred_sum (vs : list float) :
  exact_mean_and_sub →
  Qc_sum (present ((fun v => fsub v (np_mean vs)) <$> vs)) = 0%Qc.
Proof.
  intros [Hsub Hmean]. unfold np_mean. destruct (present vs) as [|x xs] eqn:E.
  - by rewrite present_fsub_nan.
  - rewrite present_fsub, Hmean, E.
    rewrite (list_fmap_ext _ (fun v => v - _)%Qc (x :: xs))
      by (intros; apply Hsub).
    rewrite Qc_sum_sub.
    set (n := Qc_of_Z (Z.of_nat (length (x :: xs)))).
    assert (n ≠ 0%Qc) by (by apply Qc_of_nat_nonzero).
    field. done.
Qed.

Lemma centred_mean (vs : list float) :
  exact_mean_and_sub →
  present vs ≠ [] →
  np_mean ((fun v => fsub v (np_mean vs)) <$> vs) = Some 0%Qc.
Proof.
  intros Hex Hne. pose proof (centred_sum vs Hex) as Hs. revert Hs.
  unfold np_mean at 2.
  destruct (present ((fun v => fsub v (np_mean vs)) <$> vs)) as [|y ys] eqn:E'.
  - exfalso. revert E'. unfold np_mean.
    destruct (present vs) as [|x xs] eqn:E; [done|].
    by rewrite present_fsub, E.
  - intros Hs. f_equal. rewrite (proj2 Hex), E', Hs.
    assert (Qc_of_Z (Z.of_nat (length (y :: ys))) ≠ 0%Qc)
      by (by apply Qc_of_nat_nonzero).
    field. done.
Qed.

Lemma run_extract_section (start end_ : scalar) (data : loc) (h : heap)
    (d sliced : frame) :
  h !! data = Some d →
  loc_slice (str start) (str end_) d = Ok sliced →
  extract_section_remove_mean start end_ data h
  = (h ++ [sub_sea_level (np_mean (levels sliced)) sliced], Ok (length h)).
Proof.
  intros E S. unfold extract_section_remove_mean. cbv zeta.
  py_simpl. rewrite (run_deref _ _ _ E). py_simpl.
  rewrite S. py_simpl.
  rewrite (run_deref _ _ _ (lookup_alloc_new h sliced)). py_simpl.
  f_equal. rewrite insert_app_r_alt by lia. by rewrite Nat.sub_diag.
Qed.

Lemma levels_sub_sea_level (mm : float) (d : frame) :
  levels (sub_sea_level mm d) = (fun v => fsub v mm) <$> levels d.
Proof.
  unfold levels, sub_sea_level. cbn [rows].
  rewrite <- !list_fmap_compose. by apply list_fmap_ext.
Qed.

Lemma np_mean_nan_inv (vs : list float) :
  np_mean vs = None → ∀ v, v ∈ vs → v = None.
Proof.
  unfold np_mean. destruct (present vs) as [|x xs] eqn:E; [|done].
  intros _. revert E. unfold present.
  induction vs as [|[w|] vs IH]; cbn; intros E v Hv.
  - by apply elem_of_nil in Hv.
  - done.
  - apply elem_of_cons in Hv as [->|Hv]; [done|]. by apply IH.
Qed.

Lemma run_extract_section_raise (start end_ : scalar) (data : loc) (h : heap)
    (d : frame) (e : exn) :
  h !! data = Some d →
  loc_slice (str start) (str end_) d = Raise e →
  extract_section_remove_mean start end_ data h = (h, Raise e).
Proof.
  intros E S. unfold extract_section_remove_mean. cbv zeta.
  py_simpl. rewrite (run_deref _ _ _ E). py_simpl. by rewrite S.
Qed.

Lemma run_loc_slice (start_s end_s : string) (d : frame) (a b : Z) :
  is_Some (index_tz (index d)) →
  parse_yyyymmdd start_s = Some a → parse_yyyymmdd end_s = Some b →
  sliceable (slice_start a) (slice_end b) (rows d) →
  loc_slice start_s end_s d
  = Ok (Frame [] ((fun r => Reading (stamp r) (sea_level r) []) <$>
                    filter (in_window (slice_start a) (slice_end b)) (rows d))).
Proof.
  intros [tz Htz] Ha Hb Hs. unfold loc_slice.
  by rewrite Htz, Ha, Hb, slice_rows_filter.
Qed.

Lemma run_loc_slice_key_error (start_s end_s : string) (d : frame) (a b : Z) :
  is_Some (index_tz (index d)) →
  parse_yyyymmdd start_s = Some a → parse_yyyymmdd end_s = Some b →
  ¬ sliceable (slice_start a) (slice_end b) (rows d) →
  loc_slice start_s end_s d
  = Raise (KeyError "Value based partial slicing on non-monotonic DatetimeIndexes with non-existing keys is not allowed.").
Proof.
  intros [tz Htz] Ha Hb Hs. unfold loc_slice.
  by rewrite Htz, Ha, Hb, slice_rows_key_error.
Qed.

(** C3: for a series with a datetime index that can be sliced (an index in
    increasing time order, or else one that has both ends of the window among
    its entries) and two bounds that spell 8-digit [YYYYMMDD] dates (as ints
    or as strs), [extract_section_remove_mean] returns a new series that
    holds exactly the rows whose timestamp lies between the first instant of
    the start day and the last instant of the end day, in the order of the
    input, with the sea-level column only.  Rows whose sea level is missing
    are kept; the mean [m] is taken over the present values only and is
    subtracted from every value, in float64; in exact arithmetic the present
    values of the result add up to zero and, when there are any, have mean
    zero.  The input series is unchanged.  On a series that cannot be sliced
    the call raises the KeyError of pandas and makes no series. *)
Theorem extract_section_centred_window (h : heap) (data : loc) (d : frame)
    (start end_ : scalar) (a b : Z) :
  h !! data = Some d →
  is_Some (index_tz (index d)) →
  parse_yyyymmdd (str start) = Some a →
  parse_yyyymmdd (str end_) = Some b →
  let window := filter (in_window (slice_start a) (slice_end b)) (rows d) in
  let m := np_mean (sea_level <$> window) in
  (sliceable (slice_start a) (slice_end b) (rows d) →
   ∃ out : frame,
     extract_section_remove_mean start end_ data h
       = (h ++ [out], Ok (length h)) ∧
     columns out = [] ∧
     rows out = (fun r => Reading (stamp r) (fsub (sea_level r) m) []) <$> window ∧
     index out = stamp <$> window ∧
     isna (levels out) = isna (sea_level <$> window) ∧
     (present (sea_level <$> window) ≠ [] →
        m = Some (f64_nanmean (sea_level <$> window))) ∧
     (exact_mean_and_sub →
        Qc_sum (present (levels out)) = 0%Qc ∧
        (present (levels out) ≠ [] → np_mean (levels out) = Some 0%Qc)) ∧
     (h ++ [out]) !! data = Some d) ∧
  (¬ sliceable (slice_start a) (slice_end b) (rows d) →
   extract_section_remove_mean start end_ data h
   = (h, Raise (KeyError "Value based partial slicing on non-monotonic DatetimeIndexes with non-existing keys is not allowed."))).
Proof.
  intros E Htz Ha Hb window m. split.
  2:{ intros Hn. apply (run_extract_section_raise _ _ _ _ _ _ E).
      by apply (run_loc_slice_key_error _ _ _ a b). }
  intros Hs.
  rewrite (run_extract_section _ _ _ _ _ _ E
             (run_loc_slice _ _ _ _ _ Htz Ha Hb Hs)).
  fold window. set (sliced := Frame [] _).
  assert (Hl : levels sliced = sea_level <$> window).
  { unfold levels, sliced. cbn [rows]. rewrite <- list_fmap_compose.
    by apply list_fmap_ext. }
  assert (Hout : levels (sub_sea_level (np_mean (levels sliced)) sliced)
                 = (fun v => fsub v m) <$> (sea_level <$> window)).
  { by rewrite levels_sub_sea_level, Hl. }
  eexists. split; [reflexivity|]. rewrite Hout.
  split; [done|]. split.
  { unfold sub_sea_level. cbn [rows]. rewrite Hl. unfold sliced. cbn [rows].
    rewrite <- list_fmap_compose. by apply list_fmap_ext. }
  split.
  { unfold index, sub_sea_level, sliced. cbn [rows].
    rewrite <- !list_fmap_compose. by apply list_fmap_ext. }
  split.
  { unfold isna. rewrite <- !list_fmap_compose. apply list_fmap_ext.
    intros i r Hr. cbn. destruct (sea_level r) as [x|] eqn:Ex; [|done].
    destruct m as [mu|] eqn:Em; [done|].
    assert (Hx : Some x = None); [|discriminate].
    apply (np_mean_nan_inv _ Em (Some x)).
    rewrite <- Ex. apply list_elem_of_fmap. exists r. split; [done|].
    apply list_elem_of_lookup. by exists i. }
  split.
  { intros Hne. unfold m, np_mean. by destruct (present _). }
  split.
  { intros Hex. split; [by apply centred_sum|].
    intros Hne. apply centred_mean; [done|]. intros Hnil. apply Hne.
    unfold m, np_mean. rewrite Hnil. apply present_fsub_nan. }
  by apply lookup_alloc.
Qed.

End Extractor.

Section ExtractorExamples.

Lemma exact_is_exact : @exact_mean_and_sub exact.
Proof. split; reflexivity. Qed.

Lemma extract_section_centred_window_witness :
  ∃ out : frame,
    extract_section_remove_mean (SInt 19470101) (SStr "19470101") 0%nat [gappy]
      = ([gappy; out], Ok 1%nat) ∧
    length (rows out) = 15%nat ∧
    Qc_sum (present (levels out)) = 0%Qc ∧
    np_mean (levels out) = Some 0%Qc ∧
    [gappy; out] !! 0%nat = Some gappy.
Proof.
  destruct (extract_section_centred_window [gappy] 0%nat gappy
              (SInt 19470101) (SStr "19470101") (-8401) (-8401))
    as [Hok _].
  - reflexivity.
  - by eexists.
  - reflexivity.
  - reflexivity.
  - destruct Hok as (out & E & _ & Hrows & _ & _ & _ & Hexact & Hsame).
    { left. reflexivity. }
    destruct (Hexact exact_is_exact) as [Hsum Hmean].
    exists out. split; [exact E|]. split; [by rewrite Hrows|].
    split; [exact Hsum|]. split; [|exact Hsame].
    apply Hmean. unfold levels. rewrite Hrows. discriminate.
Defined.

(** The claim that the rows inside the bounds come back for every series
    fails for a series that is not in time order: [unsorted] has the 15 rows
    of January 1947 after the rows of 1948, and the call raises the KeyError
    of pandas. *)
Lemma extract_section_unsorted_key_error :
  is_monotonic_increasing (row_ns <$> rows unsorted) = false ∧
  length (filter (in_window (slice_start (-8401)) (slice_end (-8371)))
            (rows unsorted)) = 15%nat ∧
  extract_section_remove_mean (SInt 19470101) (SInt 19470131) 0%nat [unsorted]
  = ([unsorted],
     Raise (KeyError "Value based partial slicing on non-monotonic DatetimeIndexes with non-existing keys is not allowed.")).
Proof. split; [reflexivity|]. split; reflexivity. Qed.

Lemma extract_single_year_is_section_witness :
  0 < 1947 ∧
  extract_single_year_remove_mean (SInt 1947) 0%nat [gappy]
  = extract_section_remove_mean (SInt 19470101) (SInt 19471231) 0%nat [gappy] ∧
  extract_single_year_remove_mean (SStr "1947") 0%nat [gappy]
  = extract_section_remove_mean (SInt 19470101) (SInt 19471231) 0%nat [gappy].
Proof.
  split; [lia|].
  apply (extract_single_year_is_section 1947 0%nat [gappy]). lia.
Defined.

(** Outside the positive years the two spellings of the bounds part: for the
    year 0 the one function slices from ["00101"], the other from ["101"]. *)
Example year_zero_bounds :
  (str (SInt 0) +:+ "0101")%string = "00101"%string ∧
  str (SInt (0 * 10000 + 101)) = "101"%string.
Proof. split; reflexivity. Qed.

End ExtractorExamples.

(** ** The series combiner *)

Section Combiner.
Lemma reindex_stamp cols own (r : reading) :
  stamp (reindex cols own r) = stamp r ∧
  sea_level (reindex cols own r) = sea_level r.
Proof. done. Qed.

Lemma concat2_index (x y : frame) :
  index (concat_rows x y) = index x ++ index y ∧
  levels (concat_rows x y) = levels x ++ levels y.
Proof.
  unfold concat_rows, index, levels. case_decide; cbn [rows].
  - by rewrite !fmap_app.
  - rewrite !fmap_app, <- !list_fmap_compose. done.
Qed.

Lemma concat2_same_columns (x y : frame) :
  columns x = columns y →
  concat_rows x y = Frame (columns x) (rows x ++ rows y).
Proof. intros E. unfold concat_rows. by rewrite decide_True. Qed.

Lemma run_concat2 (x y : frame) :
  joinable x y → concat2 x y = Ok (concat_rows x y).
Proof. intros J. unfold concat2. by rewrite decide_True. Qed.

Lemma run_concat2_raise (x y : frame) :
  ¬ joinable x y →
  concat2 x y
  = Raise (InvalidIndexError
             "Reindexing only valid with uniquely valued Index objects").
Proof. intros J. unfold concat2. by rewrite decide_False. Qed.

Lemma run_join_frames (h : heap) (l1 l2 : loc) (a b : frame) :
  h !! l1 = Some a → h !! l2 = Some b → joinable b a →
  join_data (PyRef l1) (PyRef l2) h = (h ++ [concat_rows b a], Ok (length h)).
Proof.
  intros E1 E2 J. unfold join_data, pd_concat. py_simpl. cbn [forallb andb].
  cbn [concat_args]. rewrite E1, E2. unfold rbind, Ok. cbv beta iota.
  cbn [concat_frames]. unfold rbind. by rewrite (run_concat2 _ _ J).
Qed.

Lemma run_join_frames_raise (h : heap) (l1 l2 : loc) (a b : frame) :
  h !! l1 = Some a → h !! l2 = Some b → ¬ joinable b a →
  join_data (PyRef l1) (PyRef l2) h
  = (h, Raise (InvalidIndexError
                 "Reindexing only valid with uniquely valued Index objects")).
Proof.
  intros E1 E2 J. unfold join_data, pd_concat. py_simpl. cbn [forallb andb].
  cbn [concat_args]. rewrite E1, E2. unfold rbind, Ok. cbv beta iota.
  cbn [concat_frames]. unfold rbind. by rewrite (run_concat2_raise _ _ J).
Qed.

(** C4: for two series [a] and [b] that can be concatenated (the same
    columns, or no label twice in either), [join_data a b] builds a new
    series with [length a + length b] rows: the timestamps and sea levels of
    [b], in their order, followed by those of [a], in theirs.  When the two
    series have the same columns the rows of the result are the rows of [b]
    followed by the rows of [a], as they are: no row is dropped as a
    duplicate and the rows are not sorted by timestamp. *)
Theorem join_data_second_argument_first (h : heap) (l1 l2 : loc) (a b : frame) :
  h !! l1 = Some a →
  h !! l2 = Some b →
  joinable b a →
  ∃ out : frame,
    join_data (PyRef l1) (PyRef l2) h = (h ++ [out], Ok (length h)) ∧
    length (rows out) = (length (rows a) + length (rows b))%nat ∧
    index out = index b ++ index a ∧
    levels out = levels b ++ levels a ∧
    (columns a = columns b → rows out = rows b ++ rows a).
Proof.
  intros E1 E2 J. exists (concat_rows b a).
  split; [by apply run_join_frames|].
  destruct (concat2_index b a) as [Hi Hl].
  split.
  { rewrite <- (length_fmap stamp). fold (index (concat_rows b a)).
    rewrite Hi, length_app. unfold index. rewrite !length_fmap. lia. }
  split; [done|]. split; [done|].
  intros Hc. by rewrite concat2_same_columns.
Qed.

Lemma join_data_second_argument_first_witness :
  ∃ out : frame,
    join_data (PyRef 0%nat) (PyRef 1%nat) [gappy; later]
      = ([gappy; later; out], Ok 2%nat) ∧
    length (rows out) = 21%nat ∧
    rows out = rows later ++ rows gappy.
Proof.
  destruct (join_data_second_argument_first [gappy; later] 0%nat 1%nat
              gappy later eq_refl eq_refl)
    as (out & E & Hlen & _ & _ & Hrows).
  - by left.
  - exists out. split; [exact E|]. split; [exact Hlen|]. by apply Hrows.
Defined.

Lemma run_join_scalar_second (h : heap) (v : pyval) (s : scalar) :
  join_data v (PyScalar s) h
  = (h, Raise (ValueError ("Concatenation error joining data: "
                           +:+ type_error_text s))).
Proof. unfold join_data, pd_concat. by py_simpl. Qed.

Lemma run_join_scalar_first (h : heap) (v : pyval) (s : scalar) :
  valid_arg h v → ¬ is_scalar v →
  join_data (PyScalar s) v h
  = (h, Raise (ValueError ("Concatenation error joining data: "
                           +:+ type_error_text s))).
Proof.
  intros Hv Hs. unfold join_data, pd_concat. py_simpl.
  destruct v as [|s'|l]; cbn in *; [done|done|].
  destruct Hv as [f ->]. done.
Qed.

Lemma run_join_none_none (h : heap) :
  join_data PyNone PyNone h
  = (h, Raise (ValueError "All objects passed were None")).
Proof. unfold join_data, pd_concat. by py_simpl. Qed.

Lemma run_join_none_frame (h : heap) (l : loc) (f : frame) :
  h !! l = Some f →
  join_data PyNone (PyRef l) h = (h ++ [f], Ok (length h)) ∧
  join_data (PyRef l) PyNone h = (h ++ [f], Ok (length h)).
Proof.
  intros E. unfold join_data, pd_concat. py_simpl. cbn [forallb andb].
  cbn [concat_args]. rewrite E. done.
Qed.

(** C7: [join_data] turns into its one descriptive error (a ValueError whose
    text starts with "Concatenation error joining data: ") exactly the
    TypeError of [pd.concat], which is raised when an argument is neither a
    series nor None.  Two series that can be concatenated are concatenated
    without error.  Two series that cannot (a label twice among the columns
    of one, and other columns in the other) make [pd.concat] raise
    InvalidIndexError, which is not a TypeError: it is not caught and reaches
    the caller as pandas raised it. *)
Theorem join_data_wraps_type_errors (h : heap) (v1 v2 : pyval) :
  valid_arg h v1 →
  valid_arg h v2 →
  (is_scalar v1 ∨ is_scalar v2 →
     ∃ s : scalar,
       join_data v1 v2 h
       = (h, Raise (ValueError ("Concatenation error joining data: "
                                +:+ type_error_text s)))) ∧
  (¬ is_scalar v1 → ¬ is_scalar v2 →
     ∀ msg : string,
       (join_data v1 v2 h).2
       ≠ Raise (ValueError ("Concatenation error joining data: " +:+ msg))) ∧
  (∀ (l1 l2 : loc) (a b : frame),
     v1 = PyRef l1 → v2 = PyRef l2 → h !! l1 = Some a → h !! l2 = Some b →
     (joinable b a →
      join_data v1 v2 h = (h ++ [concat_rows b a], Ok (length h))) ∧
     (¬ joinable b a →
      join_data v1 v2 h
      = (h, Raise (InvalidIndexError
                     "Reindexing only valid with uniquely valued Index objects")))).
Proof.
  intros H1 H2. split; [|split].
  - intros [Hs|Hs].
    + destruct v1 as [|s|l]; try done.
      destruct v2 as [|s'|l'].
      * exists s. apply run_join_scalar_first; [exact H2 | cbn; tauto].
      * exists s'. apply run_join_scalar_second.
      * exists s. apply run_join_scalar_first; [exact H2 | cbn; tauto].
    + destruct v2 as [|s|l]; try done. exists s. apply run_join_scalar_second.
  - intros N1 N2 msg.
    destruct v1 as [|s1|l1], v2 as [|s2|l2]; cbn in N1, N2; try done.
    + destruct H2 as [f E]. by rewrite (proj1 (run_join_none_frame h l2 f E)).
    + destruct H1 as [f E]. by rewrite (proj2 (run_join_none_frame h l1 f E)).
    + destruct H1 as [a E1], H2 as [b E2].
      destruct (decide (joinable b a)) as [J|J].
      * by rewrite (run_join_frames h l1 l2 a b E1 E2 J).
      * by rewrite (run_join_frames_raise h l1 l2 a b E1 E2 J).
  - intros l1 l2 a b -> -> E1 E2. split; intros J.
    + by apply (run_join_frames h l1 l2 a b).
    + by apply (run_join_frames_raise h l1 l2 a b).
Qed.

Lemma join_data_wraps_type_errors_witness :
  ∃ s : scalar,
    join_data (PyRef 0%nat) (PyScalar (SInt 3)) [gappy]
    = ([gappy], Raise (ValueError ("Concatenation error joining data: "
                                   +:+ type_error_text s))).
Proof.
  apply (join_data_wraps_type_errors [gappy] (PyRef 0%nat) (PyScalar (SInt 3))).
  - by exists gappy.
  - exact I.
  - right. exact I.
Defined.

(** The claim that two series that cannot be joined get the descriptive
    error fails for [repeated], in which one label names two columns, and
    [gappy], which has other columns: [pd.concat] raises InvalidIndexError,
    which the handler for TypeError lets through. *)
Lemma join_data_repeated_label_not_wrapped :
  ¬ joinable gappy repeated ∧
  join_data (PyRef 0%nat) (PyRef 1%nat) [repeated; gappy]
  = ([repeated; gappy],
     Raise (InvalidIndexError
              "Reindexing only valid with uniquely valued Index objects")) ∧
  ¬ ∃ msg : string,
      (join_data (PyRef 0%nat) (PyRef 1%nat) [repeated; gappy]).2
      = Raise (ValueError ("Concatenation error joining data: " +:+ msg)).
Proof.
  assert (J : ¬ joinable gappy repeated).
  { intros [E|[_ N]]; [discriminate|]. unfold labels, repeated in N.
    cbn [columns] in N. apply NoDup_cons in N as [_ N].
    apply NoDup_cons in N as [N _]. apply N. left. }
  split; [exact J|]. split; [reflexivity|].
  intros [msg E]. unfold Raise in E. cbn in E. discriminate E.
Qed.

End Combiner.

(** ** The trend estimator *)

Section Estimator.
Context {F64 : Float64} {TZ : Zones}.

Lemma set_index_same (d : frame) : set_index d (index d) = d.
Proof.
  destruct d as [cols rs]. unfold set_index, index. cbn [rows columns].
  f_equal. induction rs as [|[t v o] rs IH]; [done|].
  cbn. f_equal. apply IH.
Qed.

Lemma run_sea_level_rise (h : heap) (data : loc) (d : frame) :
  h !! data = Some d →
  is_Some (index_tz (index (dropna d))) →
  sea_level_rise data h
  = (h ++ [dropna d],
     linregress (date2num <$> index (dropna d)) (levels (dropna d))).
Proof.
  intros E [tz Htz]. unfold sea_level_rise. py_simpl.
  rewrite (run_deref _ _ _ E). py_simpl.
  rewrite (run_deref _ _ _ (lookup_alloc_new h (dropna d))). py_simpl.
  unfold to_datetime_index. rewrite Htz. py_simpl.
  rewrite set_index_same.
  rewrite insert_app_r_alt by lia. rewrite Nat.sub_diag. cbn [insert list_insert].
  rewrite (run_deref _ _ _ (lookup_alloc_new h (dropna d))). py_simpl.
  by destruct (linregress _ _) as [e|[s p]].
Qed.

(** One point gives no line: both values are nan, and nothing is raised. *)
Lemma linregress_single (x y : float) : linregress [x] [y] = Ok (None, None).
Proof.
  destruct x as [x|], y as [y|]; [|done..].
  unfold linregress. cbn [all_present length head default].
  rewrite bool_decide_eq_false_2 by lia. reflexivity.
Qed.

(** C8: [sea_level_rise] drops every row whose sea level is missing and hands
    the rows that remain to the regression, without a check of its own on
    their number.  With no row left the regression raises its ValueError;
    with exactly one row left nothing is raised and both returned values are
    nan.  The caller's series is unchanged. *)
Theorem sea_level_rise_forwards_valid_points (h : heap) (data : loc) (d : frame) :
  h !! data = Some d →
  is_Some (index_tz (index (dropna d))) →
  let pts := dropna d in
  rows pts = filter (fun r => sea_level r ≠ None) (rows d) ∧
  Forall (fun r => sea_level r ≠ None) (rows pts) ∧
  sea_level_rise data h
    = (h ++ [pts], linregress (date2num <$> index pts) (levels pts)) ∧
  (rows pts = [] →
     sea_level_rise data h
     = (h ++ [pts], Raise (ValueError "Inputs must not be empty."))) ∧
  (length (rows pts) = 1%nat →
     sea_level_rise data h = (h ++ [pts], Ok (None, None))) ∧
  (h ++ [pts]) !! data = Some d.
Proof.
  intros E Htz pts. split; [done|]. split.
  { apply Forall_forall. intros r Hr.
    by apply list_elem_of_filter in Hr as [Hr _]. }
  rewrite (run_sea_level_rise _ _ _ E Htz). fold pts.
  split; [done|]. split; [|split].
  - intros Hnil. unfold index, levels. by rewrite Hnil.
  - intros Hone. unfold index, levels.
    destruct (rows pts) as [|r [|r' rs]]; try done.
    cbn [fmap list_fmap]. by rewrite linregress_single.
  - by apply lookup_alloc.
Qed.

End Estimator.

Section EstimatorExamples.
Lemma sea_level_rise_forwards_valid_points_witness :
  sea_level_rise 0%nat [lonely] = ([lonely; dropna lonely], Ok (None, None)) ∧
  length (rows (dropna lonely)) = 1%nat.
Proof.
  destruct (sea_level_rise_forwards_valid_points [lonely] 0%nat lonely eq_refl)
    as (_ & _ & _ & _ & Hone & _).
  - by eexists.
  - split; [|reflexivity]. by apply Hone.
Defined.

(** The claim that fewer than two valid points raise an error fails for a
    series with one valid reading: the call returns nan twice. *)
Lemma sea_level_rise_one_point_silent_nan :
  length (filter (fun r => sea_level r ≠ None) (rows lonely)) = 1%nat ∧
  (sea_level_rise 0%nat [lonely]).2 = Ok (None, None).
Proof. split; reflexivity. Qed.

End EstimatorExamples.

(** ** What the callers' series go through *)

Section Frame.
Context {F64 : Float64} {TZ : Zones}.

Lemma grown_lookup (h h' : heap) (l : loc) (f : frame) :
  (h' = h ∨ ∃ out, h' = h ++ [out]) → h !! l = Some f → h' !! l = Some f.
Proof. intros [->|[out ->]] E; [done|]. by apply lookup_alloc. Qed.

Lemma extract_section_store (s e : scalar) (h : heap) (data : loc) (d : frame) :
  h !! data = Some d →
  let h' := (extract_section_remove_mean s e data h).1 in
  h' = h ∨ ∃ out, h' = h ++ [out].
Proof.
  intros E. destruct (loc_slice (str s) (str e) d) as [x|sl] eqn:S.
  - left. unfold extract_section_remove_mean. cbv zeta. py_simpl.
    rewrite (run_deref _ _ _ E). py_simpl. by rewrite S.
  - right. eexists. by rewrite (run_extract_section _ _ _ _ _ _ E S).
Qed.

Lemma extract_year_store (y : scalar) (h : heap) (data : loc) (d : frame) :
  h !! data = Some d →
  let h' := (extract_single_year_remove_mean y data h).1 in
  h' = h ∨ ∃ out, h' = h ++ [out].
Proof.
  intros E. unfold extract_single_year_remove_mean. cbv zeta. py_simpl.
  rewrite (run_deref _ _ _ E). py_simpl.
  destruct (loc_slice _ _ d) as [x|sl]; py_simpl; [by left|]. right.
  rewrite (run_deref _ _ _ (lookup_alloc_new h sl)). py_simpl.
  eexists. cbn [fst]. rewrite insert_app_r_alt by lia.
  by rewrite Nat.sub_diag.
Qed.

Lemma join_data_store (v1 v2 : pyval) (h : heap) :
  let h' := (join_data v1 v2 h).1 in
  h' = h ∨ ∃ out, h' = h ++ [out].
Proof.
  unfold join_data, pd_concat. py_simpl.
  destruct v1 as [|s1|l1], v2 as [|s2|l2]; cbn [forallb andb concat_args];
    try (by left);
    repeat match goal with
           | |- context [ ?h !! ?l ] => destruct (h !! l)
           end;
    unfold rbind, Ok; cbv beta iota; cbn [concat_frames];
    unfold rbind, concat2; repeat case_decide;
    cbn; try (by left); right; by eexists.
Qed.

Lemma get_longest_store `{SorterLaws} (h : heap) (data : loc) (d : frame) :
  h !! data = Some d →
  let h' := (get_longest_contiguous_data data h).1 in
  h' = h ∨ ∃ out, h' = h ++ [out].
Proof.
  intros E. rewrite (get_longest_run _ _ _ E).
  destruct (idxmax _); [by left|]. right. by eexists.
Qed.

Lemma sea_level_rise_store (h : heap) (data : loc) (d : frame) :
  h !! data = Some d →
  (sea_level_rise data h).1 = h ++ [dropna d].
Proof.
  intros E. unfold sea_level_rise. py_simpl.
  rewrite (run_deref _ _ _ E). py_simpl.
  rewrite (run_deref _ _ _ (lookup_alloc_new h (dropna d))). py_simpl.
  unfold to_datetime_index.
  destruct (index_tz (index (dropna d))); py_simpl; [|done].
  rewrite set_index_same.
  rewrite insert_app_r_alt by lia. rewrite Nat.sub_diag. cbn [insert list_insert].
  rewrite (run_deref _ _ _ (lookup_alloc_new h (dropna d))). py_simpl.
  by destruct (linregress _ _) as [x|[s p]].
Qed.

Lemma set_index_fmap (g : timestamp → timestamp) (d : frame) :
  set_index d (g <$> index d)
  = Frame (columns d)
      ((fun r => Reading (g (stamp r)) (sea_level r) (others r)) <$> rows d).
Proof.
  unfold set_index, index. f_equal.
  induction (rows d) as [|r rs IH]; [done|]. cbn. by f_equal.
Qed.

Lemma index_tz_naive (l : list timestamp) :
  index_tz l = Some None → naive <$> l = l.
Proof.
  destruct l as [|t l]; [done|]. cbn [index_tz].
  destruct (forallb _ l) eqn:F; [|done]. intros [= Ht].
  rewrite forallb_forall in F.
  assert (Hall : ∀ u, u ∈ t :: l → tzinfo u = None).
  { intros u Hu. apply elem_of_cons in Hu as [->|Hu]; [done|].
    apply list_elem_of_In, F, bool_decide_eq_true in Hu. congruence. }
  rewrite <- (list_fmap_id (t :: l)) at 2.
  apply list_fmap_ext. intros i u Hu.
  assert (Hin : u ∈ t :: l) by (apply list_elem_of_lookup; by exists i).
  apply Hall in Hin. destruct u as [n tz]. cbn in *. by subst.
Qed.

Lemma tidal_analysis_store `{Uptide} (h : heap) (data : loc) (d : frame)
    (cs : list string) (t0 : timestamp) :
  h !! data = Some d →
  let h' := (tidal_analysis data cs t0 h).1 in
  h' = h ∨ h' = <[data := set_index d (naive <$> index d)]> h.
Proof.
  intros E. unfold tidal_analysis. cbv zeta. py_simpl.
  destruct (Tides cs) as [x|tide]; [by left|].
  rewrite (run_deref _ _ _ E). py_simpl. unfold tz_localize_none.
  destruct (index_tz (index d)); py_simpl; [|by left]. right.
  assert (Hlt : (data < length h)%nat) by (by eapply lookup_lt_Some).
  rewrite (run_deref _ _ (set_index d (naive <$> index d)))
    by (by apply list_lookup_insert_eq).
  py_simpl. by destruct (harmonic_analysis _ _ _).
Qed.

(** C9: the operations that consume a series leave the caller's series as it
    was, each building its result as a new object, with one exception:
    [tidal_analysis] assigns a timezone-naive index to the series it is
    given.  After that call the series has the same columns, sea levels,
    other values and wall-clock times, its timestamps carry no time zone, and
    it is unchanged altogether when its index was naive already. *)
Theorem consumers_and_the_callers_series `{Uptide} `{SorterLaws} (h : heap)
    (data : loc)
    (d : frame) :
  h !! data = Some d →
  (∀ s e, (extract_section_remove_mean s e data h).1 !! data = Some d) ∧
  (∀ y, (extract_single_year_remove_mean y data h).1 !! data = Some d) ∧
  (∀ v, (join_data (PyRef data) v h).1 !! data = Some d ∧
        (join_data v (PyRef data) h).1 !! data = Some d) ∧
  (get_longest_contiguous_data data h).1 !! data = Some d ∧
  (sea_level_rise data h).1 !! data = Some d ∧
  (∀ cs t0, ∃ d' : frame,
     (tidal_analysis data cs t0 h).1 !! data = Some d' ∧
     columns d' = columns d ∧
     levels d' = levels d ∧
     others <$> rows d' = others <$> rows d ∧
     ns <$> index d' = ns <$> index d ∧
     (d' = d ∨ Forall (fun t => tzinfo t = None) (index d')) ∧
     (index_tz (index d) = Some None → d' = d)).
Proof.
  intros E. split; [|split; [|split; [|split; [|split]]]].
  - intros s e. eapply grown_lookup; [|done]. by eapply extract_section_store.
  - intros y. eapply grown_lookup; [|done]. by eapply extract_year_store.
  - intros v. split; (eapply grown_lookup; [|done]); apply join_data_store.
  - eapply grown_lookup; [|done]. by eapply get_longest_store.
  - rewrite (sea_level_rise_store _ _ _ E). by apply lookup_alloc.
  - intros cs t0. destruct (tidal_analysis_store h data d cs t0 E) as [->| ->].
    + exists d. repeat split; auto.
    + exists (set_index d (naive <$> index d)).
      assert (Hlt : (data < length h)%nat) by (by eapply lookup_lt_Some).
      split; [by apply list_lookup_insert_eq|].
      split; [done|]. split; [|split; [|split; [|split]]].
      * rewrite set_index_fmap. unfold levels. cbn [rows].
        rewrite <- list_fmap_compose. by apply list_fmap_ext.
      * rewrite set_index_fmap. cbn [rows].
        rewrite <- list_fmap_compose. by apply list_fmap_ext.
      * rewrite set_index_fmap. unfold index. cbn [rows].
        rewrite <- !list_fmap_compose. by apply list_fmap_ext.
      * right. rewrite set_index_fmap. unfold index. cbn [rows].
        rewrite <- list_fmap_compose.
        apply Forall_forall. intros t Ht.
        by apply list_elem_of_fmap in Ht as (r & -> & _).
      * intros Hn. rewrite (index_tz_naive _ Hn). apply set_index_same.
Qed.

End Frame.

Section FrameExamples.
Lemma consumers_and_the_callers_series_witness :
  (sea_level_rise 0%nat [aware]).1 !! 0%nat = Some aware ∧
  (get_longest_contiguous_data 0%nat [aware]).1 !! 0%nat = Some aware ∧
  (@tidal_analysis exact ref_uptide 0%nat ["M2"; "S2"]%string
     (Timestamp 0 None) [lonely]).1 !! 0%nat = Some lonely.
Proof.
  destruct (@consumers_and_the_callers_series _ _ ref_uptide _ _ [aware] 0%nat aware
              eq_refl) as (_ & _ & _ & Hl & Hs & _).
  split; [exact Hs|]. split; [exact Hl|].
  destruct (@consumers_and_the_callers_series _ _ ref_uptide _ _ [lonely] 0%nat lonely
              eq_refl) as (_ & _ & _ & _ & _ & Ht).
  destruct (Ht ["M2"; "S2"]%string (Timestamp 0 None))
    as (d' & E & _ & _ & _ & _ & _ & Hsame).
  etransitivity; [exact E|]. f_equal. by apply Hsame.
Defined.

(** The claim that no consumer changes the caller's series fails for
    [tidal_analysis] on a series whose index carries a time zone: after the
    call the caller's series has a naive index. *)
Lemma tidal_analysis_strips_callers_timezone :
  index_tz (index aware) = Some (Some "UTC"%string) ∧
  (@tidal_analysis exact ref_uptide 0%nat ["M2"; "S2"]%string
     (Timestamp 0 (Some "UTC"%string)) [aware]).1 !! 0%nat = Some lonely ∧
  lonely ≠ aware.
Proof. split; [reflexivity|]. split; [reflexivity|]. discriminate. Qed.

End FrameExamples.

(** ** The record parser and the flag sanitizer *)

Section Reader.
Context `{Parsers}.

Lemma rmapM_Forall2 {A B} (f : A → result B) (l : list A) (l' : list B) :
  rmapM f l = Ok l' → Forall2 (fun x y => f x = Ok y) l l'.
Proof.
  revert l'. induction l as [|x l IH]; intros l' E; cbn in E.
  - injection E as <-. constructor.
  - destruct (f x) as [e|y] eqn:Ex; [done|]. cbn in E.
    destruct (rmapM f l) as [e|ys]; [done|]. cbn in E. injection E as <-.
    constructor; [done|]. by apply IH.
Qed.

Lemma rmapM_raise {A B} (f : A → result B) (l : list A) (e : exn) :
  rmapM f l = Raise e → ∃ x, x ∈ l ∧ f x = Raise e.
Proof.
  induction l as [|x l IH]; intros E; cbn in E; [done|].
  destruct (f x) as [e'|y] eqn:Ex.
  - injection E as <-. exists x. split; [left | done].
  - cbn in E. destruct (rmapM f l) as [e'|ys]; [|done].
    injection E as <-. destruct (IH eq_refl) as (x' & Hin & Hx).
    exists x'. split; [by right | done].
Qed.

(** A row that fails makes the whole column fail. *)
Lemma rmapM_fails {A B} (f : A → result B) (l : list A) (x : A) (e : exn) :
  x ∈ l → f x = Raise e → ∃ e', rmapM f l = Raise e'.
Proof.
  intros Hin Hx. unfold Raise in *.
  induction l as [|y l IH]; [by apply elem_of_nil in Hin|].
  cbn. destruct (f y) as [e'|z] eqn:Ey; [by exists e'|]. cbn.
  apply elem_of_cons in Hin as [->|Hin]; [congruence|].
  destruct (IH Hin) as [e' ->]. by exists e'.
Qed.

Lemma parse_table_not_missing_file (t : table) (e : exn) :
  parse_table t = Raise e → is_FileNotFoundError e = false.
Proof.
  unfold parse_table. intros E.
  destruct (series_add_str (r_date <$> t) " ") as [e1|ds] eqn:E1.
  { injection E as <-. unfold series_add_str in E1.
    destruct (r_date <$> t) as [|c cs]; [done|].
    destruct (existsb is_text (c :: cs)); [|by injection E1 as <-].
    apply rmapM_raise in E1 as (x & _ & Hx).
    destruct x; try done. by injection Hx as <-. }
  cbn in E.
  destruct (series_add ds (r_time <$> t)) as [e2|tx] eqn:E2.
  { injection E as <-. apply rmapM_raise in E2 as ([x y] & _ & Hx).
    destruct x, y; try done; by injection Hx as <-. }
  cbn in E.
  destruct (to_datetime tx _) as [e3|dt] eqn:E3.
  { injection E as <-. apply rmapM_raise in E3 as (x & _ & Hx).
    destruct x as [s| |]; [|by injection Hx as <- | done]. cbn in Hx.
    destruct (strptime _ s); [done|]. by injection Hx as <-. }
  cbn in E.
  destruct (astype_float _) as [e4|lv] eqn:E4; [|done].
  injection E as <-. apply rmapM_raise in E4 as (x & _ & Hx).
  destruct x as [s| |]; [|done..]. cbn in Hx.
  destruct (to_float s); [done|]. by injection Hx as <-.
Qed.


Lemma run_read_tidal_data (fs : filesystem) (filename : string) (h : heap) :
  read_tidal_data fs filename h =
  match read_csv fs filename 11 columnNames with
  | inl e =>
      (h, Raise (if is_FileNotFoundError e
                 then FileNotFoundError
                        ("The file " +:+ filename +:+ " does not exist")
                 else e))
  | inr t =>
      match parse_table t with
      | inl e => (h, Raise e)
      | inr f => (h ++ [f], Ok (length h))
      end
  end.
Proof.
  unfold read_tidal_data. cbv zeta. py_simpl.
  destruct (read_csv fs filename 11 columnNames) as [e|t]; py_simpl.
  { by destruct (is_FileNotFoundError e). }
  pose proof (parse_table_not_missing_file t) as Hn.
  unfold parse_table, sanitize in *. cbv zeta in *.
  destruct (series_add_str _ _) as [e1|ds]; cbn [rbind] in *; py_simpl.
  { by rewrite (Hn e1 eq_refl). }
  destruct (series_add ds _) as [e2|tx]; cbn [rbind] in *; py_simpl.
  { by rewrite (Hn e2 eq_refl). }
  destruct (to_datetime tx _) as [e3|dt]; cbn [rbind] in *; py_simpl.
  { by rewrite (Hn e3 eq_refl). }
  destruct (astype_float _) as [e4|lv]; cbn [rbind] in *; py_simpl.
  { by rewrite (Hn e4 eq_refl). }
  done.
Qed.

Lemma sanitize_rows (t : table) :
  sanitize t
  = (fun raw => RawRow (r_index raw) (r_date raw) (r_time raw)
                  (sanitize_cell (r_level raw)) (sanitize_cell (r_rise raw)))
      <$> t.
Proof.
  unfold sanitize, replace. cbv zeta.
  rewrite <- !list_fmap_compose. apply list_fmap_ext.
  intros _ [a b c d e] _. reflexivity.
Qed.

Lemma Forall2_rmapM_length {A B} (f : A → result B) (l : list A) (l' : list B) :
  rmapM f l = Ok l' → length l' = length l.
Proof. intros E. apply rmapM_Forall2 in E. symmetry. by eapply Forall2_length. Qed.

(** The frame of a table that parses: one row for each row of the table, made
    of the parsed timestamp, the float of the sanitized sea level, and the
    other values with the sea-level rise sanitized. *)
Lemma parse_table_rows (t : table) (f : frame) :
  parse_table t = Ok f →
  length (rows f) = length t ∧
  ∀ i raw, t !! i = Some raw →
    ∃ ts v,
      rows f !! i
      = Some (Reading ts v [r_index raw; r_date raw; r_time raw;
                            sanitize_cell (r_rise raw)]) ∧
      float_of_cell (sanitize_cell (r_level raw)) = Ok v.
Proof.
  unfold parse_table. intros E.
  destruct (series_add_str _ _) as [|ds] eqn:E1; [done|]. cbn [rbind] in E.
  destruct (series_add ds _) as [|tx] eqn:E2; [done|]. cbn [rbind] in E.
  destruct (to_datetime tx _) as [|dt] eqn:E3; [done|]. cbn [rbind] in E.
  destruct (astype_float _) as [|lv] eqn:E4; [done|]. cbn [rbind] in E.
  injection E as <-.
  assert (L1 : length ds = length t).
  { unfold series_add_str in E1. destruct (r_date <$> t) as [|c cs] eqn:Ec.
    - injection E1 as <-. apply fmap_nil_inv in Ec. by subst.
    - destruct (existsb _ _); [|done].
      apply Forall2_rmapM_length in E1. rewrite E1, <- Ec.
      by rewrite length_fmap. }
  assert (L2 : length tx = length t).
  { apply Forall2_rmapM_length in E2.
    rewrite E2, length_zip_with, length_fmap. lia. }
  assert (L3 : length dt = length t).
  { apply Forall2_rmapM_length in E3. lia. }
  assert (L4 : length lv = length t).
  { apply Forall2_rmapM_length in E4.
    by rewrite E4, sanitize_rows, !length_fmap. }
  unfold build_frame. cbn [rows]. split.
  { rewrite !length_zip_with, sanitize_rows, length_fmap. lia. }
  intros i raw Hi.
  assert (Hlt : (i < length t)%nat) by (by eapply lookup_lt_Some).
  destruct (lookup_lt_is_Some_2 dt i) as [ts Hts]; [lia|].
  destruct (lookup_lt_is_Some_2 lv i) as [v Hv]; [lia|].
  exists ts, v. split.
  - rewrite sanitize_rows, lookup_zip_with, lookup_zip_with, Hts.
    rewrite list_lookup_fmap, Hi. cbn. rewrite Hv. done.
  - apply rmapM_Forall2 in E4.
    rewrite sanitize_rows, <- list_fmap_compose in E4.
    destruct (Forall2_lookup_r _ _ _ _ _ E4 Hv) as (c & Hc & Hf).
    rewrite list_lookup_fmap, Hi in Hc. by injection Hc as <-.
Qed.


Lemma string_suffixb_spec (suf s : string) :
  string_suffixb suf s = true ↔ ∃ p, s = (p +:+ suf)%string.
Proof.
  induction s as [|c s IH]; cbn [string_suffixb].
  - rewrite orb_false_r, bool_decide_eq_true. split.
    + intros ->. by exists EmptyString.
    + intros [p E]. destruct p; [done | discriminate].
  - rewrite orb_true_iff, bool_decide_eq_true, IH. split.
    + intros [->|[p ->]]; [by exists EmptyString | by exists (String c p)].
    + intros [[|c' p] E]; [by left|]. right. exists p.
      change (String c s = String c' (p +:+ suf)) in E. by injection E.
Qed.

(** A text that ends in one of the three letters is matched. *)
Lemma flagged_suffix (p : string) (c : ascii) :
  c ∈ markers → flagged (p +:+ String c EmptyString) = true.
Proof.
  intros Hc. unfold flagged, re_search.
  assert (E : string_suffixb (String c EmptyString)
                (p +:+ String c EmptyString) = true)
    by (apply string_suffixb_spec; by exists p).
  unfold markers in Hc. rewrite !elem_of_cons in Hc.
  destruct Hc as [->|[->|[->|Hc]]]; [| | |by apply elem_of_nil in Hc];
    rewrite E; cbn; by rewrite ?orb_true_r.
Qed.

(** What the patterns match: the texts that end in one of the three letters,
    or in one of them and a final newline. *)
Lemma flagged_spec (s : string) :
  flagged s = true ↔
  ∃ p c, c ∈ markers ∧
    (s = (p +:+ String c EmptyString)%string ∨
     s = (p +:+ String c (String newline EmptyString))%string).
Proof.
  unfold flagged, re_search. rewrite !orb_true_iff, !string_suffixb_spec.
  unfold markers. split.
  - intros [[[[p E]|[p E]]|[[p E]|[p E]]]|[[p E]|[p E]]];
      exists p; eexists; (split; [|(by left) || (by right)]);
      rewrite !elem_of_cons; auto.
  - intros (p & c & Hc & E). rewrite !elem_of_cons in Hc.
    destruct Hc as [->|[->|[->|Hc]]]; [| | |by apply elem_of_nil in Hc];
      destruct E as [E|E]; eauto 10.
Qed.

Lemma sanitize_cell_text (s : string) :
  sanitize_cell (Text s) = if flagged s then NaN else Text s.
Proof.
  unfold sanitize_cell, flagged, mask_cell.
  destruct (re_search ".*M$" s); [done|].
  destruct (re_search ".*N$" s); [done|].
  by destruct (re_search ".*T$" s).
Qed.

(** C1: in every row of a parsed file, a sea-level or sea-level-rise text
    that ends in [M], [N] or [T] has become nan, whichever of the three
    letters it is.  A sea-level text that none of the patterns matches and
    that Python reads as a float has become that float.  A sea-level-rise
    text that none of the patterns matches stays the text it was: that
    column is not coerced.  Values that the reader delivered as numbers are
    kept. *)
Theorem sanitized_fields (fs : filesystem) (filename : string) (h h' : heap)
    (t : table) (l : loc) :
  read_csv fs filename 11 columnNames = Ok t →
  read_tidal_data fs filename h = (h', Ok l) →
  ∃ out : frame,
    h' = h ++ [out] ∧ l = length h ∧ length (rows out) = length t ∧
    ∀ i raw, t !! i = Some raw →
      ∃ r, rows out !! i = Some r ∧
        (∀ p c, r_level raw = Text (p +:+ String c EmptyString) →
                c ∈ markers → sea_level r = None) ∧
        (∀ p c, r_rise raw = Text (p +:+ String c EmptyString) →
                c ∈ markers → rise r = Some NaN) ∧
        (∀ s v, r_level raw = Text s → flagged s = false →
                to_float s = Some v → sea_level r = v) ∧
        (∀ s, r_rise raw = Text s → flagged s = false →
              rise r = Some (Text s)) ∧
        (∀ q, r_level raw = Num q → sea_level r = Some q) ∧
        (∀ q, r_rise raw = Num q → rise r = Some (Num q)).
Proof.
  intros Hcsv Hrun. rewrite run_read_tidal_data, Hcsv in Hrun.
  unfold Ok, Raise in *.
  destruct (parse_table t) as [e|out] eqn:Hp; [done|].
  injection Hrun as <- <-. exists out.
  destruct (parse_table_rows t out Hp) as [Hlen Hrows].
  split; [done|]. split; [done|]. split; [done|].
  intros i raw Hi. destruct (Hrows i raw Hi) as (ts & v & Hr & Hv).
  eexists. split; [exact Hr|]. unfold rise. cbn [sea_level others].
  repeat split.
  - intros p c E Hc. rewrite E, sanitize_cell_text, flagged_suffix in Hv by done.
    by injection Hv as <-.
  - intros p c E Hc. by rewrite E, sanitize_cell_text, flagged_suffix.
  - intros s w E Hf Hw. rewrite E, sanitize_cell_text, Hf in Hv. cbn in Hv.
    rewrite Hw in Hv. by injection Hv as <-.
  - intros s E Hf. by rewrite E, sanitize_cell_text, Hf.
  - intros q E. rewrite E in Hv. by injection Hv as <-.
  - intros q E. by rewrite E.
Qed.


End Reader.

(** ** The parser on the sample files *)

Section ReaderExamples.
Lemma sanitized_fields_witness :
  ∃ out : frame,
    parsed_sample = [out] ∧ length (rows out) = 3%nat ∧
    (sea_level <$> rows out) !! 1%nat = Some None.
Proof.
  destruct (@sanitized_fields ref_parsers (one_file "a.txt" sample_file)
              "a.txt" [] parsed_sample
              [RawRow (Text "1)") (Text "1947/01/01") (Text "00:00:00")
                      (Text "3.5") (Text "0.1");
               RawRow (Text "2)") (Text "1947/01/01") (Text "01:00:00")
                      (Text "2.5M") (Text "0.2M");
               RawRow (Text "3)") (Text "1947/01/01") (Text "02:00:00")
                      (Text "1.5") (Text "-0.3")]
              0%nat)
    as (out & Hh & _ & Hlen & Hrows).
  - vm_compute. reflexivity.
  - vm_compute. reflexivity.
  - exists out. split; [exact Hh|]. split; [exact Hlen|].
    destruct (Hrows 1%nat _ eq_refl) as (r & Hr & Hm & _).
    rewrite list_lookup_fmap, Hr. cbn. f_equal.
    apply (Hm "2.5"%string "M"%char); [reflexivity|].
    unfold markers. left.
Defined.

(** The claim that an unflagged numeric text of either field becomes a float
    fails for the sea-level rise: in the parsed sample file the rise of the
    first row is still the text ["0.1"], which Python reads as 1/10. *)
Lemma rise_field_stays_text :
  (fun f => rise <$> rows f) <$> parsed_sample
  = [[Some (Text "0.1"); Some NaN; Some (Text "-0.3")]] ∧
  flagged "0.1" = false ∧
  @to_float ref_parsers "0.1" = Some (Some (Qc_of_Z 1 / Qc_of_Z 10)%Qc) ∧
  Text "0.1" ≠ Num (Qc_of_Z 1 / Qc_of_Z 10)%Qc.
Proof.
  split; [vm_compute; reflexivity|]. split; [reflexivity|].
  split; [vm_compute; reflexivity|]. discriminate.
Qed.


End ReaderExamples.

(** * Further properties *)

(** ** The block that the scanner returns *)

Section Block.
Context `{SorterLaws}.

(** In a series of identifiers that never go down, those equal to [g] sit
    together, after the smaller and before the greater ones. *)
Lemma sorted_split (ks : list nat) (g : nat) :
  StronglySorted le ks →
  ∃ a b c, ks = a ++ b ++ c ∧
    Forall (fun k => (k < g)%nat) a ∧
    Forall (fun k => k = g) b ∧
    Forall (fun k => (g < k)%nat) c.
Proof.
  induction 1 as [|k ks Hs IH Hk].
  - exists [], [], []. by repeat split.
  - destruct IH as (a & b & c & E & Ha & Hb & Hc).
    destruct (lt_eq_lt_dec k g) as [[L|L]|L].
    + exists (k :: a), b, c. rewrite E. repeat split; auto.
    + subst k. assert (a = []) as ->.
      { destruct a as [|x a]; [done|]. exfalso.
        inversion Ha; subst. rewrite Forall_forall in Hk.
        assert (g ≤ x)%nat; [|lia]. apply Hk. left. }
      exists [], (g :: b), c. rewrite E. repeat split; auto.
    + exists [], [], (k :: ks). repeat split; auto. constructor; [done|].
      eapply Forall_impl; [exact Hk|]. intros x Hx. cbn in Hx. lia.
Qed.

Lemma select_sorted_block {A} (l : list A) (ks : list nat) (g : nat) :
  length l = length ks →
  StronglySorted le ks →
  ∃ pre mid post a c,
    l = pre ++ mid ++ post ∧
    ks = a ++ replicate (length mid) g ++ c ∧
    length pre = length a ∧
    Forall (fun k => (k < g)%nat) a ∧
    Forall (fun k => (g < k)%nat) c ∧
    select l ((fun k => bool_decide (k = g)) <$> ks) = mid.
Proof.
  intros Hlen Hs.
  destruct (sorted_split ks g Hs) as (a & b & c & E & Ha & Hb & Hc).
  exists (take (length a) l),
    (take (length b) (drop (length a) l)),
    (drop (length b) (drop (length a) l)), a, c.
  assert (Hl : length l = (length a + (length b + length c))%nat)
    by (by rewrite Hlen, E, !length_app).
  assert (Hm : length (take (length b) (drop (length a) l)) = length b)
    by (rewrite length_take, length_drop; lia).
  split; [by rewrite take_drop, take_drop|].
  rewrite Hm.
  assert (Eb : b = replicate (length b) g).
  { rewrite <- (list_fmap_id b) at 1. by apply fmap_constant. }
  split; [by rewrite <- Eb|]. split; [rewrite length_take; lia|].
  split; [done|]. split; [done|].
  rewrite <- (take_drop (length a) l) at 1.
  rewrite <- (take_drop (length b) (drop (length a) l)) at 1.
  rewrite E, !fmap_app.
  rewrite (fmap_constant _ false a), (fmap_constant _ true b),
    (fmap_constant _ false c).
  - rewrite select_app by (rewrite length_replicate, length_take; lia).
    rewrite select_app by (rewrite length_replicate; lia).
    rewrite !select_none, app_nil_r. rewrite <- Hm at 2. apply select_all.
  - eapply Forall_impl; [exact Hc|]. intros k Hk. cbn in Hk.
    apply bool_decide_eq_false_2. lia.
  - eapply Forall_impl; [exact Hb|]. intros k Hk. cbn in Hk.
    by apply bool_decide_eq_true_2.
  - eapply Forall_impl; [exact Ha|]. intros k Hk. cbn in Hk.
    apply bool_decide_eq_false_2. lia.
Qed.

(** From one row to the next the identifier stays when the classification
    stays and goes up by one when it changes. *)
Lemma scan_from_step (l : list bool) (prev : bool) (id : nat) (i : nat)
    (x y : bool) (k k' : nat) :
  (prev :: l) !! i = Some x → (prev :: l) !! S i = Some y →
  (id :: scan_from prev id l) !! i = Some k →
  (id :: scan_from prev id l) !! S i = Some k' →
  k' = if bool_decide (y = x) then k else S k.
Proof.
  revert prev id i. induction l as [|b l IH]; intros prev id i Hx Hy Hk Hk'.
  - by destruct i.
  - destruct i as [|i].
    + cbn in *. by simplify_eq.
    + cbn [scan_from] in Hk, Hk'.
      by apply (IH b (if bool_decide (b = prev) then id else S id) i).
Qed.

Lemma scan_runs_step (cl : list bool) (i : nat) (x y : bool) (k k' : nat) :
  cl !! i = Some x → cl !! S i = Some y →
  scan_runs cl !! i = Some k → scan_runs cl !! S i = Some k' →
  k' = if bool_decide (y = x) then k else S k.
Proof.
  destruct cl as [|b l]; [done|]. cbn [scan_runs]. apply scan_from_step.
Qed.

Lemma scan_from_app (l1 l2 : list bool) (prev : bool) (id : nat) :
  scan_from prev id (l1 ++ l2)
  = scan_from prev id l1
    ++ scan_from (default prev (last l1))
         (default id (last (scan_from prev id l1))) l2.
Proof.
  revert prev id. induction l1 as [|b l1 IH]; intros prev id; [done|].
  cbn [app scan_from]. rewrite IH. cbn [app]. f_equal.
  rewrite !last_cons. destruct (last l1); destruct (last (scan_from _ _ l1)); done.
Qed.

(** A stretch of rows of one kind carries one identifier. *)
Lemma scan_runs_stretch (ca cb : list bool) (c : bool) (n : nat) :
  (0 < n)%nat →
  ∃ ia ib k,
    scan_runs (ca ++ replicate n c ++ cb) = ia ++ replicate n k ++ ib.
Proof.
  intros Hn. destruct ca as [|b0 ca].
  - destruct n as [|n]; [lia|]. cbn. rewrite scan_from_same.
    exists [], (scan_from c 1 cb), 1%nat. done.
  - cbn [app scan_runs]. rewrite scan_from_app.
    set (p := default b0 (last ca)).
    set (i := default 1%nat (last (scan_from b0 1 ca))).
    destruct (decide (c = p)) as [->|N].
    + rewrite scan_from_same. by exists (1%nat :: scan_from b0 1 ca), (scan_from p i cb), i.
    + rewrite scan_from_switch by done.
      by exists (1%nat :: scan_from b0 1 ca), (scan_from c (S i) cb), (S i).
Qed.

Lemma count_of_absent (ks : list nat) (g : nat) :
  Forall (fun k => k ≠ g) ks → count_of g ks = 0%nat.
Proof.
  intros Hf. unfold count_of. rewrite filter_none; [done|].
  eapply Forall_impl; [exact Hf|]. cbn. auto.
Qed.

(** The rows of a run, with the rows before and after it. *)
Lemma rows_of_run_block (d : frame) (g : nat) :
  ∃ pre post a c,
    rows d = pre ++ rows_of_run g d ++ post ∧
    run_ids d = a ++ replicate (length (rows_of_run g d)) g ++ c ∧
    length pre = length a ∧
    Forall (fun k => (k < g)%nat) a ∧
    Forall (fun k => (g < k)%nat) c.
Proof.
  destruct (select_sorted_block (rows d) (run_ids d) g)
    as (pre & mid & post & a & c & El & Ek & Hlen & Ha & Hc & Hsel).
  - by rewrite run_ids_scan, scan_runs_length, length_fmap.
  - rewrite run_ids_scan. apply scan_runs_sorted.
  - rewrite select_rows_of_run in Hsel. subst mid. by exists pre, post, a, c.
Qed.

Lemma rows_of_run_length (d : frame) (g : nat) :
  length (rows_of_run g d) = count_of g (run_ids d).
Proof.
  destruct (rows_of_run_block d g) as (pre & post & a & c & _ & Ek & _ & Ha & Hc).
  rewrite Ek, !count_of_app, count_of_replicate.
  rewrite decide_True by done.
  rewrite !count_of_absent; [lia| |].
  - eapply Forall_impl; [exact Hc|]. cbn. lia.
  - eapply Forall_impl; [exact Ha|]. cbn. lia.
Qed.

Lemma rows_of_run_homogeneous (d : frame) (g : nat) :
  ∃ c : bool, Forall (fun r => valid_row r = c) (rows_of_run g d).
Proof.
  destruct (scan_runs_homogeneous (valid_row <$> rows d) g) as [c Hc].
  exists c. unfold rows_of_run. apply Forall_forall. intros r Hr.
  apply list_elem_of_fmap in Hr as ([r' k] & -> & Hr). cbn.
  apply list_elem_of_filter in Hr as [Hk Hr]. cbn in Hk. subst k.
  apply list_elem_of_lookup in Hr as [i Hi].
  rewrite lookup_zip_with in Hi.
  destruct (rows d !! i) as [r0|] eqn:Er; [|done]. cbn in Hi.
  destruct (scan_runs (valid_row <$> rows d) !! i) as [k|] eqn:Ek; [|done].
  cbn in Hi. injection Hi as -> ->.
  rewrite Forall_forall in Hc.
  apply (Hc (valid_row r', g)); [|done].
  apply list_elem_of_lookup. exists i.
  rewrite lookup_zip_with, list_lookup_fmap, Er. cbn. by rewrite Ek.
Qed.

Lemma get_longest_picks (h : heap) (data : loc) (d : frame) :
  h !! data = Some d → rows d ≠ [] →
  ∃ g : nat,
    get_longest_contiguous_data data h
      = (h ++ [Frame (columns d) (rows_of_run g d)], Ok (length h)) ∧
    g ∈ run_ids d ∧
    ∀ k, k ∈ run_ids d → (count_of k (run_ids d) ≤ count_of g (run_ids d))%nat.
Proof.
  intros E Hne. rewrite (get_longest_run _ _ _ E).
  pose proof (idxmax_value_counts (run_ids d)) as Hg.
  destruct (idxmax (value_counts (run_ids d))) as [e|g].
  { exfalso. rewrite run_ids_scan in Hg.
    apply (f_equal length) in Hg. rewrite scan_runs_length, length_fmap in Hg.
    destruct (rows d); [done | discriminate]. }
  destruct Hg as (Hin & Hmax & _). exists g.
  by rewrite select_rows_of_run.
Qed.

Lemma lookup_run_ids (d : frame) (i : nat) (r : reading) :
  rows d !! i = Some r →
  (valid_row <$> rows d) !! i = Some (valid_row r) ∧
  is_Some (run_ids d !! i).
Proof.
  intros Hr. split; [by rewrite list_lookup_fmap, Hr|].
  apply lookup_lt_is_Some.
  rewrite run_ids_scan, scan_runs_length, length_fmap.
  by eapply lookup_lt_Some.
Qed.

(** Two neighbouring rows with different identifiers are of different
    kinds. *)
Lemma neighbours_differ (d : frame) (i : nat) (r r' : reading) (k k' : nat) :
  rows d !! i = Some r → rows d !! S i = Some r' →
  run_ids d !! i = Some k → run_ids d !! S i = Some k' →
  k ≠ k' → valid_row r ≠ valid_row r'.
Proof.
  intros Hr Hr' Hk Hk' Hne Heq. rewrite run_ids_scan in Hk, Hk'.
  pose proof (scan_runs_step (valid_row <$> rows d) i
                (valid_row r) (valid_row r') k k') as Hs.
  rewrite !list_lookup_fmap, Hr, Hr' in Hs.
  specialize (Hs eq_refl eq_refl Hk Hk').
  rewrite bool_decide_eq_true_2 in Hs by done. congruence.
Qed.

Lemma lookup_seam {A} (p q : list A) (x y : A) :
  (p ++ x :: y :: q) !! length p = Some x ∧
  (p ++ x :: y :: q) !! S (length p) = Some y.
Proof.
  split; [by rewrite list_lookup_middle|].
  rewrite lookup_app_r by lia.
  by replace (S (length p) - length p)%nat with 1%nat by lia.
Qed.

(** X1: the rows that [get_longest_contiguous_data] returns lie together in
    the series, as one block between the rows before and the rows after, and
    the block cannot be extended: the row just before it and the row just
    after it, when there is one, is of the other kind (missing next to valid,
    or valid next to missing). *)
Theorem longest_contiguous_maximal_block (h : heap) (data : loc) (d : frame) :
  h !! data = Some d →
  rows d ≠ [] →
  ∃ (out : frame) (pre post : list reading),
    get_longest_contiguous_data data h = (h ++ [out], Ok (length h)) ∧
    rows d = pre ++ rows out ++ post ∧
    (∀ r r', last pre = Some r → head (rows out) = Some r' →
             valid_row r ≠ valid_row r') ∧
    (∀ r r', last (rows out) = Some r → head post = Some r' →
             valid_row r ≠ valid_row r').
Proof.
  intros E Hne. destruct (get_longest_picks h data d E Hne) as (g & Hrun & _).
  destruct (rows_of_run_block d g)
    as (pre & post & a & c & El & Ek & Hlen & Ha & Hc).
  exists (Frame (columns d) (rows_of_run g d)), pre, post. cbn [rows].
  set (mid := rows_of_run g d) in *.
  split; [done|]. split; [done|]. split.
  - intros r r' Hl Hh.
    destruct pre as [|p0 pre0] using rev_ind; [done|]. clear IHpre0.
    rewrite last_snoc in Hl. injection Hl as ->.
    destruct mid as [|m0 mid0] eqn:Em; [done|]. injection Hh as ->.
    destruct a as [|a0 a'] using rev_ind;
      [rewrite length_app in Hlen; cbn in Hlen; lia|]. clear IHa'.
    rewrite !length_app in Hlen. cbn in Hlen.
    assert (La : length pre0 = length a') by lia.
    assert (El' : rows d = pre0 ++ r :: r' :: (mid0 ++ post))
      by (by rewrite El, <- !app_assoc).
    assert (Ek' : run_ids d
                  = a' ++ a0 :: g :: (replicate (length mid0) g ++ c))
      by (by rewrite Ek, <- !app_assoc).
    destruct (lookup_seam pre0 (mid0 ++ post) r r') as [H1 H2].
    destruct (lookup_seam a' (replicate (length mid0) g ++ c) a0 g) as [H3 H4].
    rewrite <- El' in H1, H2. rewrite <- Ek', <- La in H3, H4.
    apply (neighbours_differ d (length pre0) r r' a0 g); try done.
    apply Forall_app in Ha as [_ Ha]. inversion Ha; subst. lia.
  - intros r r' Hl Hh.
    destruct post as [|q0 post0]; [done|]. injection Hh as ->.
    destruct mid as [|m0 mid0] using rev_ind; [done|]. clear IHmid0.
    rewrite last_snoc in Hl. injection Hl as ->.
    destruct c as [|c0 c'].
    { apply (f_equal length) in El, Ek. revert El Ek.
      rewrite run_ids_scan, scan_runs_length, length_fmap.
      rewrite !length_app, length_replicate. cbn. lia. }
    rewrite length_app in Ek. cbn [length] in Ek.
    rewrite replicate_add in Ek. cbn [replicate] in Ek.
    assert (El' : rows d = (pre ++ mid0) ++ r :: r' :: post0)
      by (by rewrite El, <- !app_assoc).
    assert (Ek' : run_ids d
                  = (a ++ replicate (length mid0) g) ++ g :: c0 :: c')
      by (by rewrite Ek, <- !app_assoc).
    assert (La : length (pre ++ mid0) = length (a ++ replicate (length mid0) g))
      by (rewrite !length_app, length_replicate; lia).
    destruct (lookup_seam (pre ++ mid0) post0 r r') as [H1 H2].
    destruct (lookup_seam (a ++ replicate (length mid0) g) c' g c0) as [H3 H4].
    rewrite <- El' in H1, H2. rewrite <- Ek', <- La in H3, H4.
    apply (neighbours_differ d (length (pre ++ mid0)) r r' g c0); try done.
    inversion Hc; subst. lia.
Qed.

(** X2: the result of [get_longest_contiguous_data] is at least as long as
    every stretch of consecutive rows of one kind (all valid, or all
    missing) in the series. *)
Theorem longest_contiguous_no_longer_stretch (h : heap) (data : loc)
    (d : frame) (before stretch after : list reading) (c : bool) :
  h !! data = Some d →
  rows d = before ++ stretch ++ after →
  Forall (fun r => valid_row r = c) stretch →
  stretch ≠ [] →
  ∃ out : frame,
    get_longest_contiguous_data data h = (h ++ [out], Ok (length h)) ∧
    (length stretch ≤ length (rows out))%nat.
Proof.
  intros E Hrows Hst Hne.
  assert (Hd : rows d ≠ []).
  { rewrite Hrows. destruct stretch; [done|]. by destruct before. }
  destruct (get_longest_picks h data d E Hd) as (g & Hrun & _ & Hmax).
  exists (Frame (columns d) (rows_of_run g d)). split; [done|]. cbn [rows].
  rewrite rows_of_run_length.
  assert (Hn : (0 < length stretch)%nat) by (destruct stretch; [done | cbn; lia]).
  destruct (scan_runs_stretch (valid_row <$> before) (valid_row <$> after)
              c (length stretch) Hn) as (ia & ib & k & Hk).
  assert (Hids : run_ids d = ia ++ replicate (length stretch) k ++ ib).
  { rewrite run_ids_scan, Hrows, !fmap_app.
    by rewrite (fmap_constant _ _ _ Hst). }
  assert (Hin : k ∈ run_ids d).
  { rewrite Hids, !elem_of_app. right. left.
    apply elem_of_replicate. split; [done | lia]. }
  apply Hmax in Hin. rewrite Hids in Hin at 1.
  rewrite !count_of_app, count_of_replicate, decide_True in Hin by done. lia.
Qed.

(** X3: scanning the result of a scan changes nothing: applied to the series
    that [get_longest_contiguous_data] returned, the function returns a
    series with the same columns and rows. *)
Theorem longest_contiguous_idempotent (h : heap) (data : loc) (d : frame) :
  h !! data = Some d →
  rows d ≠ [] →
  ∃ out : frame,
    get_longest_contiguous_data data h = (h ++ [out], Ok (length h)) ∧
    get_longest_contiguous_data (length h) (h ++ [out])
      = ((h ++ [out]) ++ [out], Ok (length (h ++ [out]))).
Proof.
  intros E Hne. destruct (get_longest_picks h data d E Hne) as (g & Hrun & Hg & _).
  set (out := Frame (columns d) (rows_of_run g d)).
  exists out. split; [done|].
  assert (Hout : rows out ≠ []).
  { cbn [rows out]. intros Hnil. apply (count_of_pos _ _) in Hg.
    rewrite <- rows_of_run_length, Hnil in Hg. cbn in Hg. lia. }
  destruct (get_longest_picks (h ++ [out]) (length h) out
              (lookup_alloc_new h out) Hout) as (g' & Hrun' & Hg' & Hmax').
  rewrite Hrun'. do 2 f_equal.
  destruct (rows_of_run_homogeneous d g) as [c Hc].
  assert (Hn : (0 < length (rows out))%nat)
    by (destruct (rows out); [done | cbn; lia]).
  destruct (scan_runs_three_blocks c 0 (length (rows out)) 0 Hn)
    as (x & a & y & Hxa & Hya & Hxy & Hids).
  cbn [replicate app] in Hids. rewrite !app_nil_r in Hids.
  assert (Hids' : run_ids out = replicate (length (rows out)) a).
  { rewrite run_ids_scan. unfold out. cbn [rows].
    rewrite (fmap_constant _ _ _ Hc). exact Hids. }
  rewrite Hids' in Hg'. apply elem_of_replicate in Hg' as [-> _].
  unfold out at 1. f_equal. cbn [columns rows out].
  rewrite <- (select_rows_of_run a out), Hids'.
  rewrite fmap_replicate, bool_decide_eq_true_2 by done.
  by rewrite select_all.
Qed.

End Block.

Section BlockExamples.
Lemma longest_contiguous_maximal_block_witness :
  ∃ (out : frame) (pre post : list reading),
    get_longest_contiguous_data 0%nat [gappy] = ([gappy; out], Ok 1%nat) ∧
    rows gappy = pre ++ rows out ++ post.
Proof.
  destruct (longest_contiguous_maximal_block [gappy] 0%nat gappy eq_refl)
    as (out & pre & post & E & Hrows & _); [discriminate|].
  by exists out, pre, post.
Defined.

Lemma longest_contiguous_no_longer_stretch_witness :
  ∃ out : frame,
    get_longest_contiguous_data 0%nat [gappy] = ([gappy; out], Ok 1%nat) ∧
    (3 ≤ length (rows out))%nat.
Proof.
  apply (longest_contiguous_no_longer_stretch [gappy] 0%nat gappy
           (sample_rows 0 (take 12 gappy_levels))
           (sample_rows 12 [None; None; None]) [] false).
  - reflexivity.
  - reflexivity.
  - repeat constructor.
  - discriminate.
Defined.

Lemma longest_contiguous_idempotent_witness :
  ∃ out : frame,
    get_longest_contiguous_data 0%nat [gappy] = ([gappy; out], Ok 1%nat) ∧
    get_longest_contiguous_data 1%nat [gappy; out]
      = ([gappy; out; out], Ok 2%nat).
Proof.
  apply (longest_contiguous_idempotent [gappy] 0%nat gappy eq_refl).
  discriminate.
Defined.

End BlockExamples.

(** ** More on the window extractor *)

Section Window.
Context {F64 : Float64}.

Lemma filter_fmap_comm {A B} (f : A → B) (P : B → Prop) `{∀ x, Decision (P x)}
    (l : list A) :
  filter P (f <$> l) = f <$> filter (fun x => P (f x)) l.
Proof.
  induction l as [|x l IH]; [done|].
  rewrite fmap_cons, !filter_cons, IH. by destruct (decide (P (f x))).
Qed.

(** An index is a DatetimeIndex exactly when its entries share their time
    zone setting. *)
Lemma index_tz_is_Some (l : list timestamp) :
  is_Some (index_tz l) ↔ ∀ t u, t ∈ l → u ∈ l → tzinfo t = tzinfo u.
Proof.
  destruct l as [|t l]; cbn.
  - split; [|by eexists]. intros _ t u Ht. by apply elem_of_nil in Ht.
  - destruct (forallb _ l) eqn:E.
    + split; [|by eexists]. intros _ u v Hu Hv.
      assert (Hall : ∀ w, w ∈ t :: l → tzinfo w = tzinfo t).
      { intros w Hw. apply elem_of_cons in Hw as [->|Hw]; [done|].
        rewrite forallb_forall in E. apply list_elem_of_In in Hw.
        specialize (E w Hw). by apply bool_decide_eq_true in E. }
      by rewrite (Hall u Hu), (Hall v Hv).
    + split; [intros [? ?]; discriminate|]. intros Hall. exfalso.
      assert (forallb (fun u => bool_decide (tzinfo u = tzinfo t)) l = true);
        [|congruence].
      apply forallb_forall. intros w Hw. apply bool_decide_eq_true.
      apply Hall; [right; by apply list_elem_of_In | left].
Qed.

(** X4: bounds in the wrong order are not an error: on a series in
    increasing time order, when the end day lies before the start day
    [extract_section_remove_mean] returns a series without rows. *)
Theorem extract_section_reversed_bounds (h : heap) (data : loc) (d : frame)
    (start end_ : scalar) (a b : Z) :
  h !! data = Some d →
  is_Some (index_tz (index d)) →
  is_monotonic_increasing (row_ns <$> rows d) = true →
  parse_yyyymmdd (str start) = Some a →
  parse_yyyymmdd (str end_) = Some b →
  b < a →
  extract_section_remove_mean start end_ data h
  = (h ++ [Frame [] []], Ok (length h)).
Proof.
  intros E Htz Hm Ha Hb Hlt.
  rewrite (run_extract_section _ _ _ _ _ _ E
             (run_loc_slice _ _ _ _ _ Htz Ha Hb (or_introl Hm))).
  rewrite filter_none; [done|].
  apply Forall_forall. intros r _. unfold in_window, slice_start, slice_end.
  assert (0 < ns_per_day) by done. nia.
Qed.

End Window.

Section WindowExamples.

Lemma extract_section_reversed_bounds_witness :
  extract_section_remove_mean (SInt 19470102) (SInt 19470101) 0%nat [gappy]
  = ([gappy; Frame [] []], Ok 1%nat).
Proof.
  apply (extract_section_reversed_bounds [gappy] 0%nat gappy
           (SInt 19470102) (SInt 19470101) (-8400) (-8401)).
  - reflexivity.
  - by eexists.
  - reflexivity.
  - reflexivity.
  - reflexivity.
  - lia.
Defined.

End WindowExamples.

(** ** The window of a calendar year *)

Section Year.
Context {F64 : Float64}.

Lemma digit_val_char (d : Z) : 0 ≤ d < 10 → digit_val (digit_char d) = Some d.
Proof.
  intros Hd. unfold digit_val, digit_char.
  rewrite nat_ascii_embedding by lia.
  destruct (Z.leb_spec 48 (Z.of_nat (48 + Z.to_nat d))); [|lia].
  destruct (Z.leb_spec (Z.of_nat (48 + Z.to_nat d)) 57); [|lia].
  cbn [andb]. f_equal. lia.
Qed.

Lemma number_of_app (s t : string) (acc : Z) :
  number_of (s +:+ t) acc = n ← number_of s acc; number_of t n.
Proof.
  revert acc. induction s as [|c s IH]; intros acc; [done|].
  change (String c s +:+ t) with (String c (s +:+ t)). cbn [number_of].
  destruct (digit_val c) as [d|]; [|done]. cbn. apply IH.
Qed.

Lemma str_nat_small (n : Z) :
  0 ≤ n < 10 → str_nat n = String (digit_char n) EmptyString.
Proof.
  intros Hn. unfold str_nat. cbn [digits_fuel].
  destruct (Z.ltb_spec n 10); [|lia]. by rewrite Z.mod_small by lia.
Qed.

Lemma string_length_app (s t : string) :
  String.length (s +:+ t) = (String.length s + String.length t)%nat.
Proof.
  induction s as [|c s IH]; [done|].
  change (String c s +:+ t) with (String c (s +:+ t)). cbn. by rewrite IH.
Qed.

(** Reading back the decimal string of a number gives the number, and the
    string has as many characters as the number has digits. *)
Lemma number_of_str_nat (n : Z) :
  0 ≤ n → number_of (str_nat n) 0 = Some n ∧
          (∀ k : nat, n < 10 ^ Z.of_nat (S k) → 10 ^ Z.of_nat k ≤ n →
                      String.length (str_nat n) = S k).
Proof.
  revert n. apply (Zlt_0_ind (fun n => _ ∧ _)). intros n IH Hn.
  destruct (Z.ltb_spec n 10) as [Hs|Hb].
  - rewrite str_nat_small by lia. cbn [number_of].
    rewrite digit_val_char by lia. split; [cbn; f_equal; lia|].
    intros k Hu Hl. destruct k as [|k]; [done|].
    exfalso. rewrite Nat2Z.inj_succ, Z.pow_succ_r in Hl by lia.
    assert (1 ≤ 10 ^ Z.of_nat k) by (apply Z.pow_pos_nonneg; lia) || lia.
    pose proof (Z.pow_pos_nonneg 10 (Z.of_nat k)). lia.
  - assert (Hq : 0 < n / 10) by (apply Z.div_str_pos; lia).
    assert (Hr : 0 ≤ n mod 10 < 10) by (apply Z.mod_pos_bound; lia).
    assert (Hlt : n / 10 < n) by (apply Z.div_lt; lia).
    destruct (IH (n / 10) ltac:(lia)) as [IH1 IH2].
    pose proof (Z.div_mod n 10 ltac:(lia)) as En.
    assert (Hs : str_nat n
                 = str_nat (n / 10) +:+ String (digit_char (n mod 10)) EmptyString).
    { rewrite En at 1. apply str_nat_snoc; lia. }
    rewrite Hs. split.
    + rewrite number_of_app, IH1. cbn [mbind option_bind number_of].
      rewrite digit_val_char by lia. cbn. f_equal. lia.
    + intros k Hu Hl.
      destruct k as [|k]; [change (10 ^ Z.of_nat 1) with 10 in Hu; lia|].
      rewrite string_length_app. cbn [String.length].
      rewrite (IH2 k); [lia| |].
      * apply Z.div_lt_upper_bound; [lia|].
        rewrite (Nat2Z.inj_succ (S k)), Z.pow_succ_r in Hu by lia. lia.
      * apply Z.div_le_lower_bound; [lia|].
        rewrite (Nat2Z.inj_succ k), Z.pow_succ_r in Hl by lia. lia.
Qed.

(** The date string of a day given as an int reads back as that day. *)
Lemma parse_yyyymmdd_str_int (y m d : Z) :
  valid_date y m d = true →
  parse_yyyymmdd (str_int (y * 10000 + m * 100 + d))
  = Some (days_from_civil y m d).
Proof.
  intros Hv. pose proof Hv as Hv'. unfold valid_date in Hv'.
  rewrite !andb_true_iff, !Z.leb_le in Hv'.
  destruct Hv' as [[[[[Hy1 Hy2] Hm1] Hm2] Hd1] Hd2].
  assert (Hd3 : d ≤ 31).
  { revert Hd2. unfold days_in_month.
    repeat match goal with |- context [if ?b then _ else _] => destruct b end;
      lia. }
  set (n := y * 10000 + m * 100 + d).
  assert (Hn : 10 ^ Z.of_nat 7 ≤ n < 10 ^ Z.of_nat 8).
  { change (10 ^ Z.of_nat 7) with 10000000.
    change (10 ^ Z.of_nat 8) with 100000000. unfold n. lia. }
  unfold parse_yyyymmdd, str_int.
  destruct (Z.ltb_spec n 0); [lia|].
  destruct (number_of_str_nat n ltac:(lia)) as [Hnum Hlen].
  rewrite (Hlen 7%nat) by lia. rewrite bool_decide_eq_true_2 by done.
  rewrite Hnum. cbn [mbind option_bind].
  replace (n / 10000) with y
    by (unfold n; apply Z.div_unique with (m * 100 + d); lia).
  replace ((n / 100) mod 100) with m.
  2:{ replace (n / 100) with (y * 100 + m)
        by (unfold n; apply Z.div_unique with d; lia).
      apply Z.mod_unique with y; lia. }
  replace (n mod 100) with d
    by (unfold n; apply Z.mod_unique with (y * 100 + m); lia).
  by rewrite Hv.
Qed.

Lemma run_extract_year (year : scalar) (data : loc) (h : heap)
    (d sliced : frame) :
  h !! data = Some d →
  loc_slice (str year +:+ "0101") (str year +:+ "1231") d = Ok sliced →
  extract_single_year_remove_mean year data h
  = (h ++ [sub_sea_level (np_mean (levels sliced)) sliced], Ok (length h)).
Proof.
  intros E S. unfold extract_single_year_remove_mean. cbv zeta.
  py_simpl. rewrite (run_deref _ _ _ E). py_simpl.
  rewrite S. py_simpl.
  rewrite (run_deref _ _ _ (lookup_alloc_new h sliced)). py_simpl.
  f_equal. rewrite insert_app_r_alt by lia. by rewrite Nat.sub_diag.
Qed.

(** The day after the 31st of December is the 1st of January. *)
Lemma year_end_next_start (y : Z) :
  slice_end (days_from_civil y 12 31) + 1
  = slice_start (days_from_civil (y + 1) 1 1).
Proof.
  unfold slice_end, slice_start, days_from_civil.
  change (12 <=? 2) with false. change (1 <=? 2) with true. cbv iota.
  replace (y + 1 - 1) with y by lia.
  change ((12 + 9) mod 12) with 9. change ((1 + 9) mod 12) with 10.
  change ((153 * 9 + 2) / 5) with 275. change ((153 * 10 + 2) / 5) with 306.
  lia.
Qed.

(** X7: for a year [y] that pandas can hold (1678 to 2261), given as an int
    or as its str, and a series in increasing time order,
    [extract_single_year_remove_mean] does not fail and selects the rows of
    the calendar year: those from the first instant of
    the 1st of January of [y] up to, and not including, the first instant of
    the 1st of January of [y + 1].  Their sea levels come back with the mean
    of the present ones subtracted. *)
Theorem extract_single_year_calendar_year (h : heap) (data : loc) (d : frame)
    (y : Z) :
  h !! data = Some d →
  is_Some (index_tz (index d)) →
  is_monotonic_increasing (row_ns <$> rows d) = true →
  1678 ≤ y ≤ 2261 →
  ∃ (out : frame) (in_year : list reading),
    in_year = filter (fun r => slice_start (days_from_civil y 1 1) ≤ row_ns r
                               < slice_start (days_from_civil (y + 1) 1 1))
                     (rows d) ∧
    extract_single_year_remove_mean (SInt y) data h
      = (h ++ [out], Ok (length h)) ∧
    extract_single_year_remove_mean (SStr (str_int y)) data h
      = (h ++ [out], Ok (length h)) ∧
    index out = stamp <$> in_year ∧
    levels out
    = (fun r => fsub (sea_level r) (np_mean (sea_level <$> in_year))) <$> in_year.
Proof.
  intros E Htz Hm Hy.
  assert (V1 : valid_date y 1 1 = true).
  { unfold valid_date. change (days_in_month y 1) with 31.
    rewrite !andb_true_iff, !Z.leb_le. repeat split; lia. }
  assert (V2 : valid_date y 12 31 = true).
  { unfold valid_date. change (days_in_month y 12) with 31.
    rewrite !andb_true_iff, !Z.leb_le. repeat split; lia. }
  assert (Ha : parse_yyyymmdd (str (SInt y) +:+ "0101")
               = Some (days_from_civil y 1 1)).
  { cbn [str]. rewrite <- str_int_year_start by lia.
    replace (y * 10000 + 101) with (y * 10000 + 1 * 100 + 1) by lia.
    by apply parse_yyyymmdd_str_int. }
  assert (Hb : parse_yyyymmdd (str (SInt y) +:+ "1231")
               = Some (days_from_civil y 12 31)).
  { cbn [str]. rewrite <- str_int_year_end by lia.
    replace (y * 10000 + 1231) with (y * 10000 + 12 * 100 + 31) by lia.
    by apply parse_yyyymmdd_str_int. }
  pose proof (run_loc_slice _ _ d _ _ Htz Ha Hb (or_introl Hm)) as S.
  assert (Hw : filter (in_window (slice_start (days_from_civil y 1 1))
                         (slice_end (days_from_civil y 12 31))) (rows d)
               = filter (fun r => slice_start (days_from_civil y 1 1) ≤ row_ns r
                                  < slice_start (days_from_civil (y + 1) 1 1))
                        (rows d)).
  { apply filter_ext_Forall, Forall_forall. intros r _.
    unfold in_window. pose proof (year_end_next_start y) as Hn.
    revert Hn. generalize (slice_end (days_from_civil y 12 31)),
      (slice_start (days_from_civil (y + 1) 1 1)),
      (slice_start (days_from_civil y 1 1)), (row_ns r). lia. }
  rewrite Hw in S. set (w := filter _ (rows d)) in *.
  eexists _, w. split; [done|].
  split; [exact (run_extract_year (SInt y) _ _ _ _ E S)|].
  split; [exact (run_extract_year (SStr (str_int y)) _ _ _ _ E S)|].
  split.
  - unfold index, sub_sea_level. cbn [rows].
    rewrite <- !list_fmap_compose. by apply list_fmap_ext.
  - rewrite levels_sub_sea_level. unfold levels. cbn [rows].
    rewrite <- !list_fmap_compose. by apply list_fmap_ext.
Qed.


End Year.

Section YearExamples.

Lemma extract_single_year_calendar_year_witness :
  ∃ (out : frame) (in_year : list reading),
    in_year = filter (fun r => slice_start (days_from_civil 1947 1 1) ≤ row_ns r
                               < slice_start (days_from_civil (1947 + 1) 1 1))
                     (rows gappy) ∧
    extract_single_year_remove_mean (SInt 1947) 0%nat [gappy]
      = ([gappy; out], Ok 1%nat) ∧
    extract_single_year_remove_mean (SStr (str_int 1947)) 0%nat [gappy]
      = ([gappy; out], Ok 1%nat) ∧
    index out = stamp <$> in_year ∧
    levels out
    = (fun r => fsub (sea_level r) (np_mean (sea_level <$> in_year))) <$> in_year.
Proof.
  apply (extract_single_year_calendar_year [gappy] 0%nat gappy 1947).
  - reflexivity.
  - by eexists.
  - reflexivity.
  - lia.
Defined.

End YearExamples.

(** ** More on the series combiner *)

Section Joined.
(** X8: None is neutral for [join_data]: joined with a series, on either
    side, it gives a new series equal to that series, and no error. *)
Theorem join_data_none_neutral (h : heap) (l : loc) (f : frame) :
  h !! l = Some f →
  join_data PyNone (PyRef l) h = (h ++ [f], Ok (length h)) ∧
  join_data (PyRef l) PyNone h = (h ++ [f], Ok (length h)) ∧
  (h ++ [f]) !! l = Some f ∧ l ≠ length h.
Proof.
  intros E. destruct (run_join_none_frame h l f E) as [E1 E2].
  split; [done|]. split; [done|]. split; [by apply lookup_alloc|].
  apply lookup_lt_Some in E. lia.
Qed.

(** The columns of two joined frames have no label twice when neither of the
    two has. *)
Lemma labels_concat_rows (x y : frame) :
  NoDup (labels x) → NoDup (labels y) → NoDup (labels (concat_rows x y)).
Proof.
  intros Hx Hy. unfold concat_rows. case_decide; [done|].
  unfold labels, union_columns in *. cbn [columns].
  apply NoDup_cons in Hx as [Sx Hx]. apply NoDup_cons in Hy as [Sy Hy].
  apply NoDup_cons. split.
  - rewrite elem_of_app, list_elem_of_filter. tauto.
  - apply NoDup_app. split; [done|]. split.
    + intros c Hc Hf. by apply list_elem_of_filter in Hf as [? _].
    + by apply NoDup_filter.
Qed.

Lemma columns_concat_rows_same (x y : frame) :
  columns x = columns y → columns (concat_rows x y) = columns x.
Proof. intros E. by rewrite concat2_same_columns. Qed.

(** X9: [join_data] is associative on the timestamps and the sea levels, and
    on whole series when the three have the same columns: for three series
    that can be concatenated (the same columns in all, or no label twice in
    any), joining [a] with [b] and the result with [c] gives the same as
    joining [a] with the join of [b] and [c]. *)
Theorem join_data_associative (h : heap) (l1 l2 l3 : loc) (a b c : frame) :
  h !! l1 = Some a → h !! l2 = Some b → h !! l3 = Some c →
  (columns a = columns b ∧ columns b = columns c) ∨
  (NoDup (labels a) ∧ NoDup (labels b) ∧ NoDup (labels c)) →
  ∃ ab bc left right : frame,
    join_data (PyRef l1) (PyRef l2) h = (h ++ [ab], Ok (length h)) ∧
    join_data (PyRef (length h)) (PyRef l3) (h ++ [ab])
      = (h ++ [ab; left], Ok (S (length h))) ∧
    join_data (PyRef l2) (PyRef l3) h = (h ++ [bc], Ok (length h)) ∧
    join_data (PyRef l1) (PyRef (length h)) (h ++ [bc])
      = (h ++ [bc; right], Ok (S (length h))) ∧
    index left = index c ++ index b ++ index a ∧
    index right = index left ∧
    levels right = levels left ∧
    (columns a = columns b → columns b = columns c → right = left).
Proof.
  intros E1 E2 E3 J.
  assert (Jba : joinable b a).
  { destruct J as [[? ?]|(? & ? & ?)]; [by left | by right]. }
  assert (Jcb : joinable c b).
  { destruct J as [[? ?]|(? & ? & ?)]; [by left | by right]. }
  assert (Jc_ba : joinable c (concat_rows b a)).
  { destruct J as [[Hab Hbc]|(Ha & Hb & Hc)].
    - left. rewrite columns_concat_rows_same; congruence.
    - right. split; [done|]. by apply labels_concat_rows. }
  assert (Jcb_a : joinable (concat_rows c b) a).
  { destruct J as [[Hab Hbc]|(Ha & Hb & Hc)].
    - left. rewrite columns_concat_rows_same; congruence.
    - right. split; [|done]. by apply labels_concat_rows. }
  exists (concat_rows b a), (concat_rows c b),
         (concat_rows c (concat_rows b a)), (concat_rows (concat_rows c b) a).
  split; [by apply run_join_frames|]. split.
  { rewrite (run_join_frames (h ++ [concat_rows b a]) (length h) l3
               (concat_rows b a) c (lookup_alloc_new _ _)
               (lookup_alloc _ _ _ _ E3) Jc_ba).
    by rewrite length_app, Nat.add_1_r, <- app_assoc. }
  split; [by apply run_join_frames|]. split.
  { rewrite (run_join_frames (h ++ [concat_rows c b]) l1 (length h)
               a (concat_rows c b) (lookup_alloc _ _ _ _ E1)
               (lookup_alloc_new _ _) Jcb_a).
    by rewrite length_app, Nat.add_1_r, <- app_assoc. }
  destruct (concat2_index c (concat_rows b a)) as [I1 L1].
  destruct (concat2_index (concat_rows c b) a) as [I2 L2].
  destruct (concat2_index b a) as [I3 L3].
  destruct (concat2_index c b) as [I4 L4].
  split; [by rewrite I1, I3|].
  split; [by rewrite I1, I2, I3, I4, app_assoc|].
  split; [by rewrite L1, L2, L3, L4, app_assoc|].
  intros Hab Hbc.
  rewrite (concat2_same_columns c b) by done.
  rewrite (concat2_same_columns b a) by done.
  rewrite !concat2_same_columns by (cbn [columns]; congruence).
  cbn [columns rows]. by rewrite app_assoc.
Qed.

Lemma monotonic_cons_iff (x : Z) (ks : list Z) :
  is_monotonic_increasing (x :: ks) = true ↔
  (∀ y, head ks = Some y → x ≤ y) ∧ is_monotonic_increasing ks = true.
Proof.
  destruct ks as [|y ks].
  - cbn. split; [|done]. intros _. split; [|done]. intros y [=].
  - change (is_monotonic_increasing (x :: y :: ks))
      with ((x <=? y) && is_monotonic_increasing (y :: ks)).
    rewrite andb_true_iff, Z.leb_le. cbn [head]. split.
    + intros [? ?]. split; [|done]. by intros ? [= <-].
    + intros [Hh ?]. split; [|done]. by apply Hh.
Qed.

Lemma monotonic_app (l1 l2 : list Z) :
  is_monotonic_increasing (l1 ++ l2) = true ↔
  is_monotonic_increasing l1 = true ∧ is_monotonic_increasing l2 = true ∧
  (∀ x y, last l1 = Some x → head l2 = Some y → x ≤ y).
Proof.
  induction l1 as [|x l1 IH].
  - cbn [app]. split; [|tauto]. intros ?. split; [done|]. split; [done|].
    intros x y [=].
  - change ((x :: l1) ++ l2) with (x :: (l1 ++ l2)).
    rewrite !monotonic_cons_iff, IH. destruct l1 as [|x' l1].
    + cbn [app last head]. split.
      * intros (Hh & _ & H2 & _). split; [split; [by intros ? [=]|done]|].
        split; [done|]. intros ? y [= <-]. apply Hh.
      * intros (_ & H2 & Hl). split; [intros y Hy; by apply Hl|].
        split; [done|].
        split; [done|]. intros ? ? [=].
    + change (last (x :: x' :: l1)) with (last (x' :: l1)).
      cbn [app head]. tauto.
Qed.

(** X10: the series that [join_data] returns for two series that can be
    concatenated is in time order exactly when both arguments are and the
    last row of the second argument is not later than the first row of the
    first argument: the rows are put end to end, they are not sorted. *)
Theorem join_data_time_order (h : heap) (l1 l2 : loc) (a b : frame) :
  h !! l1 = Some a →
  h !! l2 = Some b →
  joinable b a →
  ∃ out : frame,
    join_data (PyRef l1) (PyRef l2) h = (h ++ [out], Ok (length h)) ∧
    (is_monotonic_increasing (ns <$> index out) = true ↔
     is_monotonic_increasing (ns <$> index b) = true ∧
     is_monotonic_increasing (ns <$> index a) = true ∧
     (∀ x y, last (index b) = Some x → head (index a) = Some y → ns x ≤ ns y)).
Proof.
  intros E1 E2 J. exists (concat_rows b a).
  split; [by apply run_join_frames|].
  destruct (concat2_index b a) as [-> _].
  rewrite fmap_app, monotonic_app, fmap_last.
  split; intros (Hb & Ha & Hl); (split; [done|]); (split; [done|]).
  - intros x y Hx Hy. apply Hl; [by rewrite Hx|].
    destruct (index a); [done|]. by injection Hy as <-.
  - intros x y Hx Hy. destruct (last (index b)) as [x'|]; [|done].
    injection Hx as <-. destruct (index a) as [|y' ?]; [done|].
    injection Hy as <-. by apply Hl.
Qed.

(** X11: the earlier copy of [join_data] returns what the current one
    returns whenever that one returns; where the current one fails, with
    whatever error, the earlier copy raises a plain Exception whose text
    starts with "Concatenation error joining data: " and goes on with the
    text of the error of [pd.concat].  For two None arguments, whose error
    the current one lets through, it raises that Exception too. *)
Theorem earlier_join_data_wraps_every_error (h : heap) (v1 v2 : pyval) :
  valid_arg h v1 →
  valid_arg h v2 →
  (∀ h' l, join_data v1 v2 h = (h', Ok l) →
           Data.join_data v1 v2 h = (h', inr l)) ∧
  (∀ h' e, join_data v1 v2 h = (h', Raise e) →
     ∃ msg, Data.join_data v1 v2 h
            = (h', inl (Data.Exception
                          ("Concatenation error joining data: " +:+ msg))) ∧
            (is_scalar v1 ∨ is_scalar v2 →
             e = ValueError ("Concatenation error joining data: " +:+ msg)) ∧
            (¬ is_scalar v1 → ¬ is_scalar v2 → exn_msg e = msg)) ∧
  Data.join_data PyNone PyNone h
  = (h, inl (Data.Exception
               "Concatenation error joining data: All objects passed were None")).
Proof.
  intros H1 H2. unfold join_data, Data.join_data, try_except, Ok, Raise.
  split; [|split; [|done]].
  - intros h' l. destruct (pd_concat [v2; v1] h) as [h1 [e|l1]].
    + destruct (is_TypeError e); unfold raise, Raise; intros [=].
    + by intros [= -> ->].
  - intros h' e.
    assert (Hs : ∀ h1 e1, pd_concat [v2; v1] h = (h1, inl e1) →
                 is_TypeError e1 = true ↔ is_scalar v1 ∨ is_scalar v2).
    { intros h1 e1. unfold pd_concat. py_simpl.
      destruct v1 as [|s1|k1], v2 as [|s2|k2]; cbn [valid_arg] in H1, H2;
        cbn [forallb andb concat_args];
        repeat match goal with
               | |- context [ ?h !! ?l ] => destruct (h !! l)
               end;
        unfold rbind, Ok; cbv beta iota; cbn [concat_frames];
        unfold rbind, concat2; repeat case_decide;
        cbn in *; intros [= <- <-]; cbn;
        try (by destruct H1); try (by destruct H2); intuition discriminate. }
    destruct (pd_concat [v2; v1] h) as [h1 [e1|l1]] eqn:Ec; [|intros [=]].
    specialize (Hs h1 e1 eq_refl).
    destruct (is_TypeError e1) eqn:Et; unfold raise, Raise.
    + intros [= <- <-]. exists (exn_msg e1). split; [done|]. split; [done|].
      intros N1 N2. exfalso. destruct Hs as [Hs _].
      destruct (Hs eq_refl); tauto.
    + intros [= <- <-]. exists (exn_msg e1). split; [done|]. split; [|done].
      intros Hsc. apply Hs in Hsc. discriminate.
Qed.

(** The window of a joined series, reduced to the sea-level column, is the
    window of the one followed by the window of the other. *)
Lemma window_concat2 (P : reading → Prop) `{∀ r, Decision (P r)} (x y : frame) :
  (∀ cols own r, P (reindex cols own r) ↔ P r) →
  (fun r => Reading (stamp r) (sea_level r) []) <$> filter P (rows (concat_rows x y))
  = ((fun r => Reading (stamp r) (sea_level r) []) <$> filter P (rows x)) ++
    ((fun r => Reading (stamp r) (sea_level r) []) <$> filter P (rows y)).
Proof.
  intros HP. unfold concat_rows. case_decide; cbn [rows].
  - by rewrite filter_app, fmap_app.
  - rewrite filter_app, fmap_app, !(filter_fmap_comm _ P).
    rewrite <- !list_fmap_compose. f_equal.
    + rewrite (filter_ext_Forall _ P); [done|].
      apply Forall_forall. intros r _. apply HP.
    + rewrite (filter_ext_Forall _ P); [done|].
      apply Forall_forall. intros r _. apply HP.
Qed.

End Joined.

Section JoinedWindow.
Context {F64 : Float64}.

(** X12: rows outside the window do not count: for two series that can be
    concatenated and whose join is in increasing time order, when no row of
    [b] lies between the two dates, extracting the section from the join of
    [a] and [b] gives the same series as extracting it from [a] alone. *)
Theorem extract_section_of_join (h : heap) (l1 l2 : loc) (a b : frame)
    (start end_ : scalar) (lo hi : Z) :
  h !! l1 = Some a →
  h !! l2 = Some b →
  joinable b a →
  is_Some (index_tz (index b ++ index a)) →
  is_monotonic_increasing (ns <$> (index b ++ index a)) = true →
  parse_yyyymmdd (str start) = Some lo →
  parse_yyyymmdd (str end_) = Some hi →
  Forall (fun r => ¬ in_window (slice_start lo) (slice_end hi) r) (rows b) →
  ∃ joined out : frame,
    join_data (PyRef l1) (PyRef l2) h = (h ++ [joined], Ok (length h)) ∧
    extract_section_remove_mean start end_ (length h) (h ++ [joined])
      = (h ++ [joined; out], Ok (S (length h))) ∧
    extract_section_remove_mean start end_ l1 h = (h ++ [out], Ok (length h)).
Proof.
  intros E1 E2 J Htz Hm Ha Hb Hout.
  exists (concat_rows b a). eexists.
  split; [by apply run_join_frames|].
  destruct (concat2_index b a) as [Hi _].
  assert (Htz1 : is_Some (index_tz (index (concat_rows b a))))
    by (by rewrite Hi).
  assert (Htz2 : is_Some (index_tz (index a))).
  { revert Htz. rewrite !index_tz_is_Some. intros Hall t u Ht Hu.
    apply Hall; apply elem_of_app; by right. }
  assert (Hkeys : ∀ f, row_ns <$> rows f = ns <$> index f).
  { intros f. unfold index. by rewrite <- list_fmap_compose. }
  assert (Hm1 : is_monotonic_increasing (row_ns <$> rows (concat_rows b a))
                = true) by (by rewrite Hkeys, Hi).
  assert (Hm2 : is_monotonic_increasing (row_ns <$> rows a) = true).
  { rewrite Hkeys. rewrite fmap_app in Hm.
    by apply monotonic_app in Hm as (_ & ? & _). }
  rewrite (run_extract_section _ _ _ _ _ _ (lookup_alloc_new h (concat_rows b a))
             (run_loc_slice _ _ _ _ _ Htz1 Ha Hb (or_introl Hm1))).
  rewrite (run_extract_section _ _ _ _ _ _ E1
             (run_loc_slice _ _ _ _ _ Htz2 Ha Hb (or_introl Hm2))).
  rewrite window_concat2 by done.
  rewrite (filter_none _ (rows b)) by done. cbn [fmap list_fmap app].
  rewrite length_app, Nat.add_1_r, <- app_assoc. done.
Qed.

End JoinedWindow.

Section JoinedExamples.

Lemma join_data_none_neutral_witness :
  join_data PyNone (PyRef 0%nat) [gappy] = ([gappy; gappy], Ok 1%nat) ∧
  join_data (PyRef 0%nat) PyNone [gappy] = ([gappy; gappy], Ok 1%nat) ∧
  [gappy; gappy] !! 0%nat = Some gappy ∧ 0%nat ≠ 1%nat.
Proof. apply (join_data_none_neutral [gappy] 0%nat gappy). reflexivity. Defined.

Lemma join_data_associative_witness :
  ∃ ab bc left right : frame,
    join_data (PyRef 0%nat) (PyRef 1%nat) [gappy; later]
      = ([gappy; later; ab], Ok 2%nat) ∧
    join_data (PyRef 2%nat) (PyRef 0%nat) [gappy; later; ab]
      = ([gappy; later; ab; left], Ok 3%nat) ∧
    join_data (PyRef 1%nat) (PyRef 0%nat) [gappy; later]
      = ([gappy; later; bc], Ok 2%nat) ∧
    join_data (PyRef 0%nat) (PyRef 2%nat) [gappy; later; bc]
      = ([gappy; later; bc; right], Ok 3%nat) ∧
    index left = index gappy ++ index later ++ index gappy ∧
    index right = index left ∧
    levels right = levels left ∧
    (columns gappy = columns later → columns later = columns gappy →
     right = left).
Proof.
  apply (join_data_associative [gappy; later] 0%nat 1%nat 0%nat
           gappy later gappy); try reflexivity.
  left. split; reflexivity.
Defined.

Lemma join_data_time_order_witness :
  ∃ out : frame,
    join_data (PyRef 1%nat) (PyRef 0%nat) [gappy; later]
      = ([gappy; later; out], Ok 2%nat) ∧
    (is_monotonic_increasing (ns <$> index out) = true ↔
     is_monotonic_increasing (ns <$> index gappy) = true ∧
     is_monotonic_increasing (ns <$> index later) = true ∧
     (∀ x y, last (index gappy) = Some x → head (index later) = Some y →
             ns x ≤ ns y)).
Proof.
  apply (join_data_time_order [gappy; later] 1%nat 0%nat later gappy);
    try reflexivity.
  left. reflexivity.
Defined.

Lemma earlier_join_data_wraps_every_error_witness :
  ∃ msg, Data.join_data PyNone PyNone [gappy]
         = ([gappy], inl (Data.Exception
                            ("Concatenation error joining data: " +:+ msg))) ∧
         exn_msg (ValueError "All objects passed were None") = msg.
Proof.
  destruct (earlier_join_data_wraps_every_error [gappy] PyNone PyNone I I)
    as (_ & Hw & _).
  destruct (Hw [gappy] (ValueError "All objects passed were None") eq_refl)
    as (msg & E & _ & Hm).
  exists msg. split; [exact E|]. apply Hm; intros [].
Defined.

Lemma extract_section_of_join_witness :
  ∃ joined out : frame,
    join_data (PyRef 1%nat) (PyRef 0%nat) [gappy; later]
      = ([gappy; later; joined], Ok 2%nat) ∧
    extract_section_remove_mean (SInt 19480101) (SInt 19480131) 2%nat
      [gappy; later; joined]
      = ([gappy; later; joined; out], Ok 3%nat) ∧
    extract_section_remove_mean (SInt 19480101) (SInt 19480131) 1%nat
      [gappy; later]
      = ([gappy; later; out], Ok 2%nat).
Proof.
  apply (extract_section_of_join [gappy; later] 1%nat 0%nat later gappy
           (SInt 19480101) (SInt 19480131) (-8036) (-8006)).
  - reflexivity.
  - reflexivity.
  - left. reflexivity.
  - by eexists.
  - reflexivity.
  - reflexivity.
  - reflexivity.
  - unfold gappy, in_window, slice_start, slice_end. cbn [rows].
    repeat constructor; vm_compute; intros [H1 H2]; by apply H1.
Defined.

End JoinedExamples.

(** ** More on the trend estimator *)

Section Trend.
Context {F64 : Float64} {TZ : Zones}.

Lemma all_present_Some (l : list Qc) : all_present (Some <$> l) = Some l.
Proof. induction l as [|x l IH]; [done|]. cbn. by rewrite IH. Qed.

(** What the regression is given for a series whose valid rows all carry a
    time: their times and their sea levels, none of them nan. *)
Lemma regression_points (d : frame) :
  (∀ r, r ∈ rows d → sea_level r ≠ None → ns (stamp r) ≠ iNaT) →
  ∃ xs ys : list Qc,
    length xs = length (rows (dropna d)) ∧
    length ys = length (rows (dropna d)) ∧
    date2num <$> index (dropna d) = Some <$> xs ∧
    levels (dropna d) = Some <$> ys ∧
    Some <$> xs = (fun r => date2num (stamp r)) <$> rows (dropna d).
Proof.
  intros Ht. unfold index, levels, dropna. cbn [rows].
  induction (rows d) as [|r rs IH]; [by exists [], []|].
  destruct IH as (xs & ys & Hlx & Hly & Hx & Hy & Hd).
  { intros r' Hr'. apply Ht. by right. }
  rewrite filter_cons. destruct (decide (sea_level r ≠ None)) as [Hv|Hv].
  - destruct (sea_level r) as [v|] eqn:Ev; [|done].
    destruct (date2num (stamp r)) as [x|] eqn:Ex.
    2:{ exfalso. revert Ex. unfold date2num.
        destruct (Z.eqb_spec (ns (stamp r)) iNaT) as [En|]; [|done].
        intros _. apply (Ht r); [by left | by rewrite Ev | done]. }
    exists (x :: xs), (v :: ys). cbn [fmap list_fmap length].
    rewrite Hlx, Hly, Ex, Ev. split; [done|]. split; [done|].
    split; [by f_equal|]. split; by f_equal.
  - by exists xs, ys.
Qed.

(** X14: a series with two valid rows or more, all at the same instant,
    makes [sea_level_rise] fail with the ValueError of the regression: no
    line can be fitted. *)
Theorem sea_level_rise_one_instant (h : heap) (data : loc) (d : frame) :
  h !! data = Some d →
  is_Some (index_tz (index (dropna d))) →
  (∀ r, r ∈ rows d → sea_level r ≠ None → ns (stamp r) ≠ iNaT) →
  (1 < length (rows (dropna d)))%nat →
  (∀ r1 r2, r1 ∈ rows d → r2 ∈ rows d →
            sea_level r1 ≠ None → sea_level r2 ≠ None →
            ns (stamp r1) = ns (stamp r2)) →
  sea_level_rise data h
  = (h ++ [dropna d],
     Raise (ValueError
              "Cannot calculate a linear regression if all x values are identical")).
Proof.
  intros E Htz Ht Hlen Hsame.
  rewrite (run_sea_level_rise _ _ _ E Htz). f_equal.
  destruct (regression_points d Ht) as (xs & ys & Hxl & Hl & -> & -> & Hd).
  assert (Hrun : linregress (Some <$> xs) (Some <$> ys)
                 = if forallb (fun w => bool_decide (w = default 0%Qc (head xs)))
                        xs
                   then Raise (ValueError
                          "Cannot calculate a linear regression if all x values are identical")
                   else linregress (Some <$> xs) (Some <$> ys)).
  { unfold linregress.
    destruct (Some <$> xs) as [|a1 l1] eqn:E1.
    { apply fmap_nil_inv in E1. rewrite E1 in Hxl. cbn [length] in Hxl. lia. }
    destruct (Some <$> ys) as [|a2 l2] eqn:E2.
    { apply fmap_nil_inv in E2. rewrite E2 in Hl. cbn [length] in Hl. lia. }
    rewrite <- E1, <- E2, !all_present_Some.
    rewrite bool_decide_eq_true_2 by lia. cbn [andb].
    by destruct (forallb _ xs). }
  rewrite Hrun. clear Hrun.
  assert (Hall : forallb (fun w => bool_decide (w = default 0%Qc (head xs))) xs
                 = true).
  { assert (Heq : ∀ u v, u ∈ xs → v ∈ xs → u = v).
    { intros u v Hu Hv.
      assert (Hin : ∀ w, w ∈ xs →
                ∃ r, r ∈ rows d ∧ sea_level r ≠ None ∧
                     date2num (stamp r) = Some w ∧
                     tzinfo (stamp r) ∈ tzinfo <$> index (dropna d)).
      { intros w Hw.
        assert (Hsw : Some w ∈ Some <$> xs)
          by (apply list_elem_of_fmap; by exists w).
        rewrite Hd in Hsw. apply list_elem_of_fmap in Hsw as (r & Er & Hr).
        exists r. pose proof Hr as Hr'.
        apply list_elem_of_filter in Hr as [V Hr].
        split; [done|]. split; [done|]. split; [done|].
        unfold index. rewrite <- list_fmap_compose.
        apply list_elem_of_fmap. by exists r. }
      destruct (Hin u Hu) as (r1 & R1 & V1 & D1 & T1).
      destruct (Hin v Hv) as (r2 & R2 & V2 & D2 & T2).
      assert (Ets : stamp r1 = stamp r2).
      { destruct (stamp r1) as [n1 z1] eqn:S1, (stamp r2) as [n2 z2] eqn:S2.
        f_equal.
        - pose proof (Hsame r1 r2 R1 R2 V1 V2) as Hn.
          by rewrite S1, S2 in Hn.
        - rewrite index_tz_is_Some in Htz. cbn [tzinfo] in T1, T2.
          apply list_elem_of_fmap in T1 as (t1 & -> & T1).
          apply list_elem_of_fmap in T2 as (t2 & -> & T2).
          by apply Htz. }
      rewrite Ets in D1. rewrite D1 in D2. by injection D2. }
    apply forallb_forall. intros w Hw. apply bool_decide_eq_true.
    apply list_elem_of_In in Hw.
    destruct xs as [|x0 xs'] eqn:Ex; [by apply elem_of_nil in Hw|].
    cbn [head default]. apply Heq; [done | by left]. }
  by rewrite Hall.
Qed.

End Trend.

Section TrendExamples.

Lemma sea_level_rise_one_instant_witness :
  sea_level_rise 0%nat [twice]
  = ([twice; dropna twice],
     Raise (ValueError
              "Cannot calculate a linear regression if all x values are identical")).
Proof.
  apply (sea_level_rise_one_instant [twice] 0%nat twice).
  - reflexivity.
  - by eexists.
  - intros r Hr _. unfold twice in Hr. cbn [rows] in Hr.
    repeat (apply elem_of_cons in Hr as [->|Hr]); [done..|].
    by apply elem_of_nil in Hr.
  - vm_compute. lia.
  - intros r1 r2 Hr1 Hr2 _ _. unfold twice in Hr1, Hr2. cbn [rows] in Hr1, Hr2.
    repeat (apply elem_of_cons in Hr1 as [->|Hr1]);
      [| |by apply elem_of_nil in Hr1];
      (repeat (apply elem_of_cons in Hr2 as [->|Hr2]);
        [| |by apply elem_of_nil in Hr2]); reflexivity.
Defined.

End TrendExamples.

(** ** More on the harmonic adapter *)

Section Harmonic.
Context {F64 : Float64} {U : Uptide}.

(** Filtering an array by [pd.notna] of the sea levels keeps the entries of
    the rows whose sea level is present. *)
Lemma select_notna {A} (f : reading → A) (rs : list reading) :
  select (f <$> rs) (notna (sea_level <$> rs))
  = f <$> filter (fun r => sea_level r ≠ None) rs.
Proof.
  unfold notna, isna. induction rs as [|r rs IH]; [done|].
  rewrite filter_cons. cbn [fmap list_fmap select].
  destruct (sea_level r) as [v|]; cbn [negb].
  - rewrite decide_True by done. cbn [fmap list_fmap]. f_equal. apply IH.
  - rewrite decide_False by (intros ?; done). apply IH.
Qed.

Lemma total_seconds_naive (s t : timestamp) :
  total_seconds (naive s) (naive t) = total_seconds s t.
Proof. done. Qed.

Lemma strip_start (t0 : timestamp) :
  (if tzinfo t0 is Some _ then naive t0 else t0) = naive t0.
Proof. by destruct t0 as [n [tz|]]. Qed.

Lemma index_tz_fmap_naive (l : list timestamp) :
  index_tz (naive <$> l) = Some None.
Proof.
  destruct l as [|t l]; [done|]. cbn [fmap list_fmap index_tz].
  destruct (forallb _ _) eqn:F; [done|]. exfalso.
  apply not_true_iff_false in F. apply F.
  apply forallb_forall. intros u Hu. apply bool_decide_eq_true.
  apply list_elem_of_In, list_elem_of_fmap in Hu as (? & -> & _). done.
Qed.

Lemma run_tidal_analysis (h : heap) (data : loc) (d : frame)
    (cs : list string) (t0 : timestamp) (tide : tides) :
  h !! data = Some d →
  is_Some (index_tz (index d)) →
  Tides cs = Ok tide →
  tidal_analysis data cs t0 h
  = (<[data := set_index d (naive <$> index d)]> h,
     harmonic_analysis (set_initial_time tide (naive t0))
       (sea_level <$> filter (fun r => sea_level r ≠ None) (rows d))
       ((fun r => total_seconds t0 (stamp r))
          <$> filter (fun r => sea_level r ≠ None) (rows d))).
Proof.
  intros E [tz Htz] HT. unfold tidal_analysis. cbv zeta. py_simpl.
  rewrite HT. py_simpl. rewrite (run_deref _ _ _ E). py_simpl.
  unfold tz_localize_none. rewrite Htz. py_simpl.
  assert (Hlt : (data < length h)%nat) by (by eapply lookup_lt_Some).
  rewrite (run_deref _ _ (set_index d (naive <$> index d)))
    by (by apply list_lookup_insert_eq).
  py_simpl. rewrite strip_start, set_index_fmap.
  unfold levels, index. cbn [rows]. rewrite <- !list_fmap_compose.
  assert (Hn : notna ((sea_level ∘ (fun r => Reading (naive (stamp r))
                                      (sea_level r) (others r))) <$> rows d)
               = notna (sea_level <$> rows d)).
  { by f_equal. }
  rewrite Hn, !select_notna. f_equal.
Qed.

(** X16: [tidal_analysis] hands the solver the rows with a present sea level
    only, their sea levels and their times in step: the i-th time belongs to
    the row of the i-th sea level.  A time is the wall-clock time of the row
    less that of the start, in nanoseconds, divided as a float64 by the
    nanoseconds of a second, whatever the time zones; the reference time of
    the tide object is the start without its time zone. *)
Theorem tidal_analysis_fits_valid_rows (h : heap) (data : loc) (d : frame)
    (cs : list string) (t0 : timestamp) (tide : tides) :
  h !! data = Some d →
  is_Some (index_tz (index d)) →
  Tides cs = Ok tide →
  ∃ valid : list reading,
    valid = filter (fun r => sea_level r ≠ None) (rows d) ∧
    (tidal_analysis data cs t0 h).2
    = harmonic_analysis (set_initial_time tide (naive t0))
        (sea_level <$> valid)
        ((fun r => total_seconds t0 (stamp r)) <$> valid) ∧
    Forall (fun v => v ≠ None) (sea_level <$> valid) ∧
    (∀ r, r ∈ valid → ns (stamp r) ≠ iNaT → ns t0 ≠ iNaT →
          total_seconds t0 (stamp r)
          = Some (f64_div (f64_of_int (ns (stamp r) - ns t0))
                    (f64_of_int ns_per_second))).
Proof.
  intros E Htz HT. eexists. split; [reflexivity|].
  rewrite (run_tidal_analysis _ _ _ _ _ _ E Htz HT). split; [done|]. split.
  - rewrite Forall_fmap. apply Forall_forall. intros r Hr.
    by apply list_elem_of_filter in Hr as [? _].
  - intros r _ Hr H0. unfold total_seconds.
    destruct (Z.eqb_spec (ns (stamp r)) iNaT); [done|].
    by destruct (Z.eqb_spec (ns t0) iNaT).
Qed.

(** X17: the time zones play no part in [tidal_analysis]: a call with a
    start and a series that carry time zones comes to the same, in its
    result and in the store it leaves, as a call with the start and the
    series made naive beforehand. *)
Theorem tidal_analysis_ignores_time_zones (h : heap) (data : loc) (d : frame)
    (cs : list string) (t0 : timestamp) (tide : tides) :
  h !! data = Some d →
  is_Some (index_tz (index d)) →
  Tides cs = Ok tide →
  tidal_analysis data cs t0 h
  = tidal_analysis data cs (naive t0)
      (<[data := set_index d (naive <$> index d)]> h).
Proof.
  intros E Htz HT.
  assert (Hlt : (data < length h)%nat) by (by eapply lookup_lt_Some).
  set (d' := set_index d (naive <$> index d)).
  assert (E' : <[data := d']> h !! data = Some d')
    by (by apply list_lookup_insert_eq).
  assert (Hi : index d' = naive <$> index d).
  { unfold d'. rewrite set_index_fmap. unfold index. cbn [rows].
    rewrite <- !list_fmap_compose. by apply list_fmap_ext. }
  assert (Htz' : index_tz (index d') = Some None)
    by (rewrite Hi; apply index_tz_fmap_naive).
  rewrite (run_tidal_analysis _ _ _ _ _ _ E Htz HT).
  rewrite (run_tidal_analysis _ _ _ _ _ _ E' (mk_is_Some _ _ Htz') HT).
  rewrite (index_tz_naive _ Htz'), set_index_same, list_insert_insert_eq.
  f_equal. unfold d'. rewrite set_index_fmap. cbn [rows].
  rewrite !(filter_fmap_comm _ (fun r => sea_level r ≠ None)).
  rewrite <- !list_fmap_compose. f_equal.
Qed.

(** X18: how [tidal_analysis] fails.  When the tide object cannot be built
    the error comes before the series is touched.  An index that is not a
    DatetimeIndex has no [tz_localize]: AttributeError, the series as it
    was.  An error of the fit itself comes after the assignment of the naive
    index, which stays. *)
Theorem tidal_analysis_failures (h : heap) (data : loc) (d : frame)
    (cs : list string) (t0 : timestamp) :
  h !! data = Some d →
  (∀ e, Tides cs = Raise e → tidal_analysis data cs t0 h = (h, Raise e)) ∧
  (∀ tide, Tides cs = Ok tide → index_tz (index d) = None →
     tidal_analysis data cs t0 h
     = (h, Raise (AttributeError
                    "'Index' object has no attribute 'tz_localize'"))) ∧
  (∀ tide e, Tides cs = Ok tide → is_Some (index_tz (index d)) →
     (tidal_analysis data cs t0 h).2 = Raise e →
     tidal_analysis data cs t0 h
     = (<[data := set_index d (naive <$> index d)]> h, Raise e)).
Proof.
  intros E. split; [|split].
  - intros e HT. unfold tidal_analysis. cbv zeta. py_simpl. by rewrite HT.
  - intros tide HT Htz. unfold tidal_analysis. cbv zeta. py_simpl.
    rewrite HT. py_simpl. rewrite (run_deref _ _ _ E). py_simpl.
    unfold tz_localize_none. by rewrite Htz.
  - intros tide e HT Htz. rewrite (run_tidal_analysis _ _ _ _ _ _ E Htz HT).
    cbn [snd]. by intros ->.
Qed.

End Harmonic.

Section HarmonicExamples.

Lemma tidal_analysis_fits_valid_rows_witness :
  ∃ valid : list reading,
    valid = filter (fun r => sea_level r ≠ None) (rows aware) ∧
    (@tidal_analysis exact echo_uptide 0%nat ["M2"]%string
       (Timestamp 0 (Some "UTC"%string)) [aware]).2
    = Ok (sea_level <$> valid,
          (fun r => total_seconds (Timestamp 0 (Some "UTC"%string)) (stamp r))
            <$> valid) ∧
    Forall (fun v => v ≠ None) (sea_level <$> valid) ∧
    (∀ r, r ∈ valid → ns (stamp r) ≠ iNaT → 0 ≠ iNaT →
          total_seconds (Timestamp 0 (Some "UTC"%string)) (stamp r)
          = Some (f64_div (f64_of_int (ns (stamp r) - 0))
                    (f64_of_int ns_per_second))).
Proof.
  apply (@tidal_analysis_fits_valid_rows exact echo_uptide [aware] 0%nat aware
           ["M2"]%string (Timestamp 0 (Some "UTC"%string))
           (["M2"]%string, None)).
  - reflexivity.
  - by eexists.
  - reflexivity.
Defined.

Lemma tidal_analysis_ignores_time_zones_witness :
  @tidal_analysis exact echo_uptide 0%nat ["M2"]%string
    (Timestamp 0 (Some "UTC"%string)) [aware]
  = @tidal_analysis exact echo_uptide 0%nat ["M2"]%string (Timestamp 0 None) [lonely].
Proof.
  apply (@tidal_analysis_ignores_time_zones exact echo_uptide [aware] 0%nat aware
           ["M2"]%string (Timestamp 0 (Some "UTC"%string))
           (["M2"]%string, None)).
  - reflexivity.
  - by eexists.
  - reflexivity.
Defined.

Lemma tidal_analysis_failures_witness :
  @tidal_analysis exact echo_uptide 0%nat [] (Timestamp 0 None) [aware]
  = ([aware], Raise (ValueError "no constituents")).
Proof.
  destruct (@tidal_analysis_failures exact echo_uptide [aware] 0%nat aware []
              (Timestamp 0 None) eq_refl) as (Hf & _).
  by apply Hf.
Defined.

End HarmonicExamples.

(** ** More on the record parser *)

Section Parsed.
Context `{Parsers}.

(** The timestamp of a row of a table that parses is the parse of its date
    and its time, joined by one blank. *)
Lemma parse_table_stamp (t : table) (f : frame) (i : nat) (raw : raw_row)
    (a b : string) :
  parse_table t = Ok f →
  t !! i = Some raw →
  r_date raw = Text a → r_time raw = Text b →
  ∃ ts, strptime "%Y/%m/%d %H:%M:%S" ((a +:+ " ") +:+ b) = Some ts ∧
        index f !! i = Some ts.
Proof.
  unfold parse_table. intros E Hi Ha Hb.
  destruct (series_add_str _ _) as [|ds] eqn:E1; [done|]. cbn [rbind] in E.
  destruct (series_add ds _) as [|tx] eqn:E2; [done|]. cbn [rbind] in E.
  destruct (to_datetime tx _) as [|dt] eqn:E3; [done|]. cbn [rbind] in E.
  destruct (astype_float _) as [|lv] eqn:E4; [done|]. cbn [rbind] in E.
  injection E as <-.
  assert (Hd : ds !! i = Some (Text (a +:+ " "))).
  { unfold series_add_str in E1. destruct (r_date <$> t) as [|c cs] eqn:Ec.
    - apply fmap_nil_inv in Ec. by subst.
    - destruct (existsb _ _); [|done]. apply rmapM_Forall2 in E1.
      rewrite <- Ec in E1.
      assert (Hr : (r_date <$> t) !! i = Some (Text a))
        by (by rewrite list_lookup_fmap, Hi; cbn; rewrite Ha).
      destruct (Forall2_lookup_l _ _ _ _ _ E1 Hr) as (y & Hy & Hf).
      by injection Hf as <-. }
  assert (Ht : tx !! i = Some (Text ((a +:+ " ") +:+ b))).
  { apply rmapM_Forall2 in E2.
    assert (Hz : zip ds (r_time <$> t) !! i = Some (Text (a +:+ " "), Text b)).
    { rewrite lookup_zip_with, Hd. cbn.
      by rewrite list_lookup_fmap, Hi; cbn; rewrite Hb. }
    destruct (Forall2_lookup_l _ _ _ _ _ E2 Hz) as (y & Hy & Hf).
    by injection Hf as <-. }
  pose proof E3 as L3. apply Forall2_rmapM_length in L3.
  pose proof E4 as L4. apply Forall2_rmapM_length in L4.
  apply rmapM_Forall2 in E3.
  destruct (Forall2_lookup_l _ _ _ _ _ E3 Ht) as (ts & Hts & Hf).
  cbn [timestamp_of_cell] in Hf.
  destruct (strptime _ _) as [ts'|] eqn:Es; [|done].
  injection Hf as ->. exists ts. split; [done|].
  assert (Hlt : (i < length t)%nat) by (by eapply lookup_lt_Some).
  assert (Hlv : (i < length lv)%nat).
  { rewrite L4, sanitize_rows, !length_fmap. done. }
  destruct (lookup_lt_is_Some_2 lv i Hlv) as [v Hv].
  unfold index, build_frame. cbn [rows].
  rewrite list_lookup_fmap, sanitize_rows, lookup_zip_with, lookup_zip_with.
  rewrite Hts. cbn. rewrite Hv. cbn. rewrite list_lookup_fmap, Hi. done.
Qed.

(** A sea level that is not flagged and is not a number makes the table
    fail. *)
Lemma parse_table_bad_level (t : table) (i : nat) (raw : raw_row) (s : string) :
  t !! i = Some raw →
  r_level raw = Text s → flagged s = false → to_float s = None →
  ∃ e, parse_table t = Raise e.
Proof.
  intros Hi Hl Hf Hn. unfold parse_table.
  destruct (series_add_str _ _) as [e|ds]; [by exists e|]. cbn [rbind].
  destruct (series_add ds _) as [e|tx]; [by exists e|]. cbn [rbind].
  destruct (to_datetime tx _) as [e|dt]; [by exists e|]. cbn [rbind].
  assert (Hin : Text s ∈ r_level <$> sanitize t).
  { rewrite sanitize_rows, <- list_fmap_compose. apply list_elem_of_fmap.
    exists raw. split; [|apply list_elem_of_lookup; by exists i].
    cbn. by rewrite Hl, sanitize_cell_text, Hf. }
  destruct (rmapM_fails float_of_cell _ _
              (ValueError ("could not convert string to float: '" +:+ s
                           +:+ "'")) Hin) as [e He].
  { cbn. by rewrite Hn. }
  unfold astype_float. rewrite He. by exists e.
Qed.

(** X19: in the frame that [read_tidal_data] returns, the index entry of a
    row is the parse, under the format [%Y/%m/%d %H:%M:%S], of the row's date
    and time joined by one blank, and the Index, Date and Time values of the
    row are kept as they were read: the replacements of flagged values touch
    the two sea-level columns only. *)
Theorem read_tidal_data_index (fs : filesystem) (filename : string)
    (h h' : heap) (t : table) (l : loc) :
  read_csv fs filename 11 columnNames = Ok t →
  read_tidal_data fs filename h = (h', Ok l) →
  ∃ out : frame,
    h' !! l = Some out ∧
    columns out = ["Index"; "Date"; "Time"; "Sea Level Rise"]%string ∧
    ∀ i raw a b, t !! i = Some raw → r_date raw = Text a → r_time raw = Text b →
      ∃ r ts, rows out !! i = Some r ∧
        strptime "%Y/%m/%d %H:%M:%S" ((a +:+ " ") +:+ b) = Some ts ∧
        stamp r = ts ∧
        take 3 (others r) = [r_index raw; Text a; Text b].
Proof.
  intros Hcsv Hrun. rewrite run_read_tidal_data, Hcsv in Hrun.
  unfold Ok, Raise in *.
  destruct (parse_table t) as [e|out] eqn:Hp; [done|].
  injection Hrun as <- <-. exists out.
  split; [apply lookup_alloc_new|]. split.
  { revert Hp. unfold parse_table.
    destruct (series_add_str _ _); [done|]. cbn [rbind].
    destruct (series_add _ _); [done|]. cbn [rbind].
    destruct (to_datetime _ _); [done|]. cbn [rbind].
    destruct (astype_float _); [done|]. cbn [rbind]. by intros [= <-]. }
  intros i raw a b Hi Ha Hb.
  destruct (parse_table_rows t out Hp) as [_ Hrows].
  destruct (Hrows i raw Hi) as (ts' & v & Hr & _).
  destruct (parse_table_stamp t out i raw a b Hp Hi Ha Hb) as (ts & Hs & Hix).
  unfold index in Hix. rewrite list_lookup_fmap, Hr in Hix.
  injection Hix as ->.
  eexists _, ts. split; [exact Hr|]. split; [done|]. split; [done|].
  cbn. by rewrite Ha, Hb.
Qed.

(** X20: a sea level that is not flagged and that Python does not read as a
    float ends the parse of the whole file: [read_tidal_data] raises, the
    error is not its FileNotFoundError, and no frame is made. *)
Theorem read_tidal_data_bad_level (fs : filesystem) (filename : string)
    (h : heap) (t : table) (i : nat) (raw : raw_row) (s : string) :
  read_csv fs filename 11 columnNames = Ok t →
  t !! i = Some raw →
  r_level raw = Text s →
  flagged s = false →
  to_float s = None →
  ∃ e, read_tidal_data fs filename h = (h, Raise e) ∧
       is_FileNotFoundError e = false.
Proof.
  intros Hcsv Hi Hl Hf Hn. rewrite run_read_tidal_data, Hcsv.
  destruct (parse_table_bad_level t i raw s Hi Hl Hf Hn) as [e He].
  exists e. unfold Ok, Raise in *. rewrite He. split; [done|].
  by apply parse_table_not_missing_file in He.
Qed.

End Parsed.

Section ParsedExamples.

Lemma read_tidal_data_index_witness :
  ∃ out : frame,
    parsed_sample !! 0%nat = Some out ∧
    index out !! 1%nat
    = Some (Timestamp (days_from_civil 1947 1 1 * ns_per_day + hour_ns) None).
Proof.
  destruct (@read_tidal_data_index ref_parsers (one_file "a.txt" sample_file)
              "a.txt" [] parsed_sample
              [RawRow (Text "1)") (Text "1947/01/01") (Text "00:00:00")
                      (Text "3.5") (Text "0.1");
               RawRow (Text "2)") (Text "1947/01/01") (Text "01:00:00")
                      (Text "2.5M") (Text "0.2M");
               RawRow (Text "3)") (Text "1947/01/01") (Text "02:00:00")
                      (Text "1.5") (Text "-0.3")]
              0%nat)
    as (out & Hh & _ & Hrows).
  - vm_compute. reflexivity.
  - vm_compute. reflexivity.
  - exists out. split; [exact Hh|].
    destruct (Hrows 1%nat _ "1947/01/01"%string "01:00:00"%string
                eq_refl eq_refl eq_refl) as (r & ts & Hr & Hs & Hst & _).
    unfold index. rewrite list_lookup_fmap, Hr. cbn. f_equal.
    rewrite Hst. vm_compute in Hs. injection Hs as <-.
    vm_compute. reflexivity.
Defined.

Lemma read_tidal_data_bad_level_witness :
  ∃ e, @read_tidal_data ref_parsers (one_file "a.txt" bad_level_file) "a.txt" []
       = ([], Raise e) ∧ is_FileNotFoundError e = false.
Proof.
  apply (@read_tidal_data_bad_level ref_parsers
           (one_file "a.txt" bad_level_file) "a.txt" []
           [RawRow (Text "1)") (Text "1947/01/01") (Text "00:00:00")
                   (Text "3.5") (Text "0.1");
            RawRow (Text "2)") (Text "1947/01/01") (Text "01:00:00")
                   (Text "2.5x") (Text "0.2M")]
           1%nat
           (RawRow (Text "2)") (Text "1947/01/01") (Text "01:00:00")
                   (Text "2.5x") (Text "0.2M"))
           "2.5x"%string).
  - vm_compute. reflexivity.
  - reflexivity.
  - reflexivity.
  - reflexivity.
  - reflexivity.
Defined.

End ParsedExamples.
